(** * Backtest engine: ledger, trailing-stop strategy and drawdown metrics

    A shallow embedding of [backtester.py] (classes [CostConfig],
    [TradeRecord], [Portfolio] and the parts of [BacktestEngine] that drive
    the volatility-weighted trailing-stop strategy and the drawdown
    computation), together with the properties of the ledger that the
    design document states.

    Numbers.  Python [float] values are embedded as rationals [Q]
    (compared with [==]), Python [int] values as [Z].  Rounding
    ([round]), truncation ([int]) and the [ZeroDivisionError] of a float
    division are written out.  The accounting of the ledger takes the
    arithmetic as exact.  Where a decision hangs on the last bit of a
    float (the size of a shrunk order, the trailing-stop test, the values
    of the drawdown curve) every arithmetic result is rounded by a
    function [fl], and [fl64] is the rounding of binary64.  Dictionaries
    that are only looked up or whose iteration order cannot influence an
    exact sum are [gmap]s. *)

From Stdlib Require Import ZArith QArith Qpower Qround Qabs Lia Lqa Bool Sorted.
From Stdlib Require OrdersEx.
From stdpp Require Import gmap strings list fin_maps sorting.

Local Open Scope Z_scope.
Local Open Scope Q_scope.

(** ** Python numerics *)

(** [a < b] on floats, as a boolean. *)
Definition Qltb (a b : Q) : bool := negb (Qle_bool b a).

(** [int(x)]: truncation towards zero. *)
Definition py_int (x : Q) : Z := Z.quot (Qnum x) (Zpos (Qden x)).

(** [round(x)]: nearest integer, ties to the even neighbour. *)
Definition py_round (x : Q) : Z :=
  let f := Qfloor x in
  match Qcompare (x - inject_Z f) (1 # 2) with
  | Lt => f
  | Gt => (f + 1)%Z
  | Eq => if Z.even f then f else (f + 1)%Z
  end.

(** [round(x, n)]: the same rounding at [n] decimal places. *)
Definition py_round_n (x : Q) (n : nat) : Q :=
  inject_Z (py_round (x * inject_Z (10 ^ Z.of_nat n))) / inject_Z (10 ^ Z.of_nat n).

(** Where a decision of the program hangs on the last bit of a float, the
    rounding of each arithmetic result is made explicit: an operation [x op
    y] on floats is [fl (x op y)] for the rounding function [fl] of the
    arithmetic.  [fl64] is the rounding of binary64, the floats of Python:
    to the nearest number with a 53-bit significand, ties to the even one,
    subnormal below [2 ** -1022]; the overflow to infinity is left out.
    [binade a] is the exponent [E] with [2 ** E <= a < 2 ** (E + 1)]. *)
Definition binade (a : Q) : Z :=
  let k := (Z.log2 (Qnum a) - Z.log2 (Zpos (Qden a)))%Z in
  if Qle_bool (2 ^ k) a then k else (k - 1)%Z.

Definition fl64 (x : Q) : Q :=
  if Qeq_bool x 0 then 0 else
  let a := Qabs x in
  let e := Z.max (binade a - 52) (-1074) in
  let m := py_round (a / 2 ^ e) in
  Qred ((if Qle_bool 0 x then 1 else -1) * (inject_Z m * 2 ^ e)).

(** ** Exceptions and the state monad of the mutable objects *)

Inductive exn :=
  ZeroDivisionError | KeyError | IndexError | OverflowError | TypeError.

(** Running a method on an object in state [s] either returns a value and
    the new state, or raises with the state mutated so far. *)
Inductive outcome (S A : Type) :=
| Returned (a : A) (s : S)
| Raised (e : exn) (s : S).
Arguments Returned {S A} a s.
Arguments Raised {S A} e s.

Definition final_state {S A} (o : outcome S A) : S :=
  match o with Returned _ s => s | Raised _ s => s end.

Definition M (S A : Type) : Type := S -> outcome S A.

Definition ret {S A} (a : A) : M S A := fun s => Returned a s.
Definition raise {S A} (e : exn) : M S A := fun s => Raised e s.
Definition bind {S A B} (m : M S A) (k : A -> M S B) : M S B :=
  fun s => match m s with
           | Returned a s' => k a s'
           | Raised e s' => Raised e s'
           end.
Definition get {S} : M S S := fun s => Returned s s.
Definition put {S} (s' : S) : M S unit := fun _ => Returned tt s'.
Definition modify {S} (f : S -> S) : M S unit := fun s => Returned tt (f s).

Declare Scope py_scope.
Delimit Scope py_scope with py.
Notation "'do' x <- m ; k" := (bind m (fun x => k))
  (at level 10, x name, m at level 100, k at level 200) : py_scope.
Notation "'run' m ; k" := (bind m (fun _ => k))
  (at level 10, m at level 100, k at level 200) : py_scope.
Local Open Scope py_scope.

(** [for x in l: body x] *)
Fixpoint for_each {S X} (l : list X) (body : X -> M S unit) : M S unit :=
  match l with
  | [] => ret tt
  | x :: l' => bind (body x) (fun _ => for_each l' body)
  end.

(** [x / y] on floats. *)
Definition py_div {S} (x y : Q) : M S Q :=
  if Qeq_bool y 0 then raise ZeroDivisionError else ret (x / y).

(** ** Data model *)

Record CostConfig := mkCostConfig {
  slippage_pct : Q;
  commission_pct : Q;
  tax_pct : Q
}.

Inductive Status := st_open | st_closed.

Record TradeRecord := mkTradeRecord {
  t_ticker : string;
  t_name : string;
  t_entry_date : string;
  t_entry_price : Q;
  t_exec_price : Q;
  t_shares : Z;
  t_entry_cost : Q;
  t_exit_date : option string;
  t_exit_price : option Q;
  t_exec_exit_price : option Q;
  t_exit_cost : Q;
  t_pnl : Q;
  t_pnl_pct : Q;
  t_status : Status
}.

(** The value stored under a ticker in [Portfolio.positions]. *)
Record Position := mkPosition {
  pos_shares : Z;
  pos_avg_price : Q;
  pos_name : string
}.

(** One entry of [Portfolio.equity_history]. *)
Record Snapshot := mkSnapshot {
  snap_date : string;
  snap_equity : Q;
  snap_cash : Q;
  snap_invested : Q
}.

Record Portfolio := mkPortfolio {
  initial_capital : Q;
  cash : Q;
  positions : gmap string Position;
  equity_history : list Snapshot;
  trades : list TradeRecord;
  cost : CostConfig;
  total_slippage_cost : Q;
  total_commission_cost : Q;
  total_tax_cost : Q
}.

(** [Portfolio.__init__] *)
Definition Portfolio_init (capital : Q) (cfg : CostConfig) : Portfolio :=
  {| initial_capital := capital; cash := capital; positions := ∅;
     equity_history := []; trades := []; cost := cfg;
     total_slippage_cost := 0; total_commission_cost := 0;
     total_tax_cost := 0 |}.

(** [name or ticker] *)
Definition name_or (name ticker : string) : string :=
  if String.eqb name "" then ticker else name.

Definition Status_eqb (a b : Status) : bool :=
  match a, b with
  | st_open, st_open | st_closed, st_closed => true
  | _, _ => false
  end.

(** ** Portfolio.buy *)

(** The part of [buy] after the share count is settled (from the cost
    recomputation to the [return]). *)
Definition buy_fill (ticker : string) (price exec_price : Q) (shares : Z)
    (date name : string) (self : Portfolio) : outcome Portfolio Z :=
  let gross_cost := exec_price * inject_Z shares in
  let commission := gross_cost * (commission_pct (cost self) / 100) in
  let total_cost := gross_cost + commission in
  let slippage_cost := (exec_price - price) * inject_Z shares in
  let positions' :=
    match positions self !! ticker with
    | Some pos =>
        let old_total := pos_shares pos in
        let new_total := (old_total + shares)%Z in
        <[ticker := {| pos_shares := new_total;
                       pos_avg_price :=
                         (pos_avg_price pos * inject_Z old_total
                          + exec_price * inject_Z shares) / inject_Z new_total;
                       pos_name := pos_name pos |}]> (positions self)
    | None =>
        <[ticker := {| pos_shares := shares; pos_avg_price := exec_price;
                       pos_name := name_or name ticker |}]> (positions self)
    end in
  let record :=
    {| t_ticker := ticker; t_name := name_or name ticker;
       t_entry_date := date; t_entry_price := price;
       t_exec_price := py_round_n exec_price 1;
       t_shares := shares;
       t_entry_cost := py_round_n (commission + slippage_cost) 0;
       t_exit_date := None; t_exit_price := None; t_exec_exit_price := None;
       t_exit_cost := 0; t_pnl := 0; t_pnl_pct := 0; t_status := st_open |} in
  Returned shares
    {| initial_capital := initial_capital self;
       cash := cash self - total_cost;
       positions := positions';
       equity_history := equity_history self;
       trades := trades self ++ [record];
       cost := cost self;
       total_slippage_cost := total_slippage_cost self + slippage_cost;
       total_commission_cost := total_commission_cost self + commission;
       total_tax_cost := total_tax_cost self |}.

Definition buy (ticker : string) (price : Q) (shares : Z)
    (date name : string) : M Portfolio Z := fun self =>
  if (shares <=? 0)%Z || Qle_bool price 0 then Returned 0%Z self else
  let exec_price := price * (1 + slippage_pct (cost self) / 100) in
  let gross_cost := exec_price * inject_Z shares in
  let commission := gross_cost * (commission_pct (cost self) / 100) in
  let total_cost := gross_cost + commission in
  if Qltb (cash self) total_cost then
    let unit_cost := exec_price * (1 + commission_pct (cost self) / 100) in
    if Qeq_bool unit_cost 0 then Raised ZeroDivisionError self else
    let max_shares := py_int (cash self / unit_cost) in
    if (max_shares <=? 0)%Z then Returned 0%Z self
    else buy_fill ticker price exec_price max_shares date name self
  else buy_fill ticker price exec_price shares date name self.

(** ** Portfolio.buy, with the rounding of its arithmetic

    [buy] above takes the arithmetic of the floats as exact, which is what
    the accounting identities are about.  The size of a shrunk order hangs
    on the last bit of a quotient, and there the rounding must be seen:
    this is [buy] again, every arithmetic result rounded by [fl]. *)
Module Rounded.
Section Rounding.

Variable fl : Q -> Q.

(** [float(n)], the conversion of an integer operand. *)
Definition of_int (n : Z) : Q := fl (inject_Z n).

(** [round(x, n)] of a float. *)
Definition round_to (x : Q) (n : nat) : Q := fl (py_round_n x n).

(** [price * (1 + self.cost.slippage_pct / 100)] *)
Definition exec_price_of (cfg : CostConfig) (price : Q) : Q :=
  fl (price * fl (1 + fl (slippage_pct cfg / 100))).

(** [gross_cost], [commission] and [total_cost] of [shares] shares. *)
Definition gross_cost_of (exec_price : Q) (shares : Z) : Q :=
  fl (exec_price * of_int shares).

Definition commission_of (cfg : CostConfig) (exec_price : Q) (shares : Z) : Q :=
  fl (gross_cost_of exec_price shares * fl (commission_pct cfg / 100)).

Definition total_cost_of (cfg : CostConfig) (exec_price : Q) (shares : Z) : Q :=
  fl (gross_cost_of exec_price shares + commission_of cfg exec_price shares).

(** [exec_price * (1 + self.cost.commission_pct / 100)] *)
Definition unit_cost_of (cfg : CostConfig) (exec_price : Q) : Q :=
  fl (exec_price * fl (1 + fl (commission_pct cfg / 100))).

(** [int(self.cash / (exec_price * (1 + self.cost.commission_pct / 100)))] *)
Definition max_shares_of (cfg : CostConfig) (exec_price cash : Q) : Z :=
  py_int (fl (cash / unit_cost_of cfg exec_price)).

(** The part of [buy] after the share count is settled (from the cost
    deduction to the [return]). *)
Definition buy_fill (ticker : string) (price exec_price : Q) (shares : Z)
    (date name : string) (self : Portfolio) : outcome Portfolio Z :=
  let commission := commission_of (cost self) exec_price shares in
  let total_cost := total_cost_of (cost self) exec_price shares in
  let slippage_cost := fl (fl (exec_price - price) * of_int shares) in
  let debited positions' trades' :=
    {| initial_capital := initial_capital self;
       cash := fl (cash self - total_cost);
       positions := positions';
       equity_history := equity_history self;
       trades := trades';
       cost := cost self;
       total_slippage_cost := fl (total_slippage_cost self + slippage_cost);
       total_commission_cost := fl (total_commission_cost self + commission);
       total_tax_cost := total_tax_cost self |} in
  let record :=
    {| t_ticker := ticker; t_name := name_or name ticker;
       t_entry_date := date; t_entry_price := price;
       t_exec_price := round_to exec_price 1;
       t_shares := shares;
       t_entry_cost := round_to (fl (commission + slippage_cost)) 0;
       t_exit_date := None; t_exit_price := None; t_exec_exit_price := None;
       t_exit_cost := 0; t_pnl := 0; t_pnl_pct := 0; t_status := st_open |} in
  match positions self !! ticker with
  | Some pos =>
      let old_total := pos_shares pos in
      let new_total := (old_total + shares)%Z in
      if Qeq_bool (of_int new_total) 0
      then Raised ZeroDivisionError (debited (positions self) (trades self))
      else
        let avg :=
          fl (fl (fl (pos_avg_price pos * of_int old_total)
                  + fl (exec_price * of_int shares)) / of_int new_total) in
        Returned shares
          (debited (<[ticker := {| pos_shares := new_total; pos_avg_price := avg;
                                   pos_name := pos_name pos |}]> (positions self))
                   (trades self ++ [record]))
  | None =>
      Returned shares
        (debited (<[ticker := {| pos_shares := shares; pos_avg_price := exec_price;
                                 pos_name := name_or name ticker |}]>
                    (positions self))
                 (trades self ++ [record]))
  end.

Definition buy (ticker : string) (price : Q) (shares : Z)
    (date name : string) : M Portfolio Z := fun self =>
  if (shares <=? 0)%Z || Qle_bool price 0 then Returned 0%Z self else
  let exec_price := exec_price_of (cost self) price in
  if Qltb (cash self) (total_cost_of (cost self) exec_price shares) then
    if Qeq_bool (unit_cost_of (cost self) exec_price) 0
    then Raised ZeroDivisionError self else
    let max_shares := max_shares_of (cost self) exec_price (cash self) in
    if (max_shares <=? 0)%Z then Returned 0%Z self
    else buy_fill ticker price exec_price max_shares date name self
  else buy_fill ticker price exec_price shares date name self.

End Rounding.
End Rounded.

(** ** Portfolio.sell *)

Definition close_record (t : TradeRecord) (date : string)
    (price exec_price exit_cost pnl pnl_pct : Q) : TradeRecord :=
  {| t_ticker := t_ticker t; t_name := t_name t;
     t_entry_date := t_entry_date t; t_entry_price := t_entry_price t;
     t_exec_price := t_exec_price t; t_shares := t_shares t;
     t_entry_cost := t_entry_cost t;
     t_exit_date := Some date;
     t_exit_price := Some price;
     t_exec_exit_price := Some (py_round_n exec_price 1);
     t_exit_cost := py_round_n exit_cost 0;
     t_pnl := py_round_n pnl 0;
     t_pnl_pct := py_round_n pnl_pct 2;
     t_status := st_closed |}.

(** The body of [for t in ...: if t.ticker == ticker and t.status ==
    'open': ...; break], over the records in the order they are visited. *)
Fixpoint close_first_open (ticker : string) (upd : TradeRecord -> TradeRecord)
    (visited : list TradeRecord) : list TradeRecord :=
  match visited with
  | [] => []
  | t :: rest =>
      if String.eqb (t_ticker t) ticker && Status_eqb (t_status t) st_open
      then upd t :: rest
      else t :: close_first_open ticker upd rest
  end.

(** [for t in reversed(self.trades)]: the list is visited from its end; the
    records keep their places. *)
Definition close_last_open (ticker : string) (upd : TradeRecord -> TradeRecord)
    (trades : list TradeRecord) : list TradeRecord :=
  reverse (close_first_open ticker upd (reverse trades)).

(** The end of [sell], from the update of the trade record to the
    [return]; [credited] is the ledger after the cash and the cost counters
    were updated. *)
Definition sell_finish (ticker date : string)
    (price exec_price exit_cost pnl pnl_pct : Q) (pos : Position)
    (actual : Z) (credited : Portfolio) : outcome Portfolio Z :=
  let new_shares := (pos_shares pos - actual)%Z in
  Returned actual
    {| initial_capital := initial_capital credited;
       cash := cash credited;
       positions :=
         if (new_shares <=? 0)%Z then delete ticker (positions credited)
         else <[ticker := {| pos_shares := new_shares;
                             pos_avg_price := pos_avg_price pos;
                             pos_name := pos_name pos |}]> (positions credited);
       equity_history := equity_history credited;
       trades :=
         close_last_open ticker
           (fun t => close_record t date price exec_price exit_cost pnl pnl_pct)
           (trades credited);
       cost := cost credited;
       total_slippage_cost := total_slippage_cost credited;
       total_commission_cost := total_commission_cost credited;
       total_tax_cost := total_tax_cost credited |}.

Definition sell (ticker : string) (price : Q) (shares : Z) (date : string)
    : M Portfolio Z := fun self =>
  match positions self !! ticker with
  | None => Returned 0%Z self
  | Some pos =>
      let actual := Z.min shares (pos_shares pos) in
      let exec_price := price * (1 - slippage_pct (cost self) / 100) in
      let gross_proceeds := exec_price * inject_Z actual in
      let commission := gross_proceeds * (commission_pct (cost self) / 100) in
      let tax := gross_proceeds * (tax_pct (cost self) / 100) in
      let net_proceeds := gross_proceeds - commission - tax in
      let slippage_cost := (price - exec_price) * inject_Z actual in
      let credited :=
        {| initial_capital := initial_capital self;
           cash := cash self + net_proceeds;
           positions := positions self;
           equity_history := equity_history self;
           trades := trades self;
           cost := cost self;
           total_slippage_cost := total_slippage_cost self + slippage_cost;
           total_commission_cost := total_commission_cost self + commission;
           total_tax_cost := total_tax_cost self + tax |} in
      let pnl := net_proceeds - pos_avg_price pos * inject_Z actual in
      let exit_cost := commission + tax + slippage_cost in
      if Qltb 0 (pos_avg_price pos) then
        let basis := pos_avg_price pos * inject_Z actual in
        if Qeq_bool basis 0 then Raised ZeroDivisionError credited
        else sell_finish ticker date price exec_price exit_cost pnl
               ((net_proceeds / basis - 1) * 100) pos actual credited
      else sell_finish ticker date price exec_price exit_cost pnl 0
             pos actual credited
  end.

(** ** Portfolio.sell_all, equity, snapshot, get_cost_summary *)

(** The body of the loop of [sell_all]. *)
Definition sell_all_body (prices : gmap string Q) (date ticker : string)
    : M Portfolio unit :=
  match prices !! ticker with
  | Some price =>
      do self <- get;
      match positions self !! ticker with
      | Some pos => run sell ticker price (pos_shares pos) date; ret tt
      | None => raise KeyError
      end
  | None => ret tt
  end.

(** [list(self.positions.keys())] is taken once, before the loop. *)
Definition sell_all (prices : gmap string Q) (date : string) : M Portfolio unit :=
  do self0 <- get;
  for_each (map_to_list (positions self0)).*1 (sell_all_body prices date).

Definition equity (prices : gmap string Q) (self : Portfolio) : Q :=
  map_fold (fun ticker pos total =>
              let p := default (pos_avg_price pos) (prices !! ticker) in
              total + p * inject_Z (pos_shares pos))
           (cash self) (positions self).

Definition snapshot (date : string) (prices : gmap string Q) : M Portfolio unit :=
  fun self =>
    let eq := equity prices self in
    Returned tt
      {| initial_capital := initial_capital self;
         cash := cash self;
         positions := positions self;
         equity_history :=
           equity_history self ++
           [{| snap_date := date; snap_equity := eq; snap_cash := cash self;
               snap_invested := eq - cash self |}];
         trades := trades self;
         cost := cost self;
         total_slippage_cost := total_slippage_cost self;
         total_commission_cost := total_commission_cost self;
         total_tax_cost := total_tax_cost self |}.

Record CostSummary := mkCostSummary {
  cs_slippage : Z;
  cs_commission : Z;
  cs_tax : Z;
  cs_total : Z
}.

Definition get_cost_summary (self : Portfolio) : CostSummary :=
  let total := total_slippage_cost self + total_commission_cost self
               + total_tax_cost self in
  {| cs_slippage := py_round (total_slippage_cost self);
     cs_commission := py_round (total_commission_cost self);
     cs_tax := py_round (total_tax_cost self);
     cs_total := py_round total |}.

(** ** BacktestEngine._calc_metrics: drawdown and annualised return

    Of [_calc_metrics] the running peak, the drawdown curve, the maximum
    drawdown with its period and the annualised return are embedded.  The
    power in the annualised return can raise, and its result can be a
    complex number, which [round] refuses; the total return, the
    volatility and the Sharpe figure computed next to them are made of
    operations that do not raise, and do not enter these values; the win
    rate is embedded on its own below. *)

(** The local variables of the drawdown loop. *)
Record dd_state := mk_dd_state {
  peak : Q;
  mdd : Q;
  dd_curve : list Q;
  mdd_peak_d : string;
  mdd_trough_d : string;
  tmp_peak_d : string
}.

(** [l[i]] *)
Definition getitem {S A} (l : list A) (i : nat) : M S A :=
  match l !! i with
  | Some x => ret x
  | None => raise IndexError
  end.

(** The drawdown entries and the annualised return of the dictionary that
    [_calc_metrics] returns. *)
Inductive Metrics :=
| NoMetrics
| DrawdownMetrics (m_annual_return : Q) (m_mdd : Q)
    (m_mdd_period : string * string) (m_dd_curve : list (string * Q)).

(** [zip(dates, dd_curve)] *)
Fixpoint zip {A B} (l : list A) (k : list B) : list (A * B) :=
  match l, k with
  | a :: l', b :: k' => (a, b) :: zip l' k'
  | _, _ => []
  end.

Inductive result (A : Type) := Value (a : A) | Exception (e : exn).
Arguments Value {A} a.
Arguments Exception {A} e.

Section CalcMetrics.

(** The rounding of the float arithmetic. *)
Variable fl : Q -> Q.

(** [x ** y] on floats: a float, a complex number ([None]; a negative [x]
    with a fractional [y]), or [OverflowError]. *)
Variable float_pow : Q -> Q -> result (option Q).

(** [(eq / peak - 1) * 100 if peak > 0 else 0] *)
Definition drawdown (eq peak : Q) : Q :=
  if Qltb 0 peak then fl (fl (fl (eq / peak) - 1) * 100) else 0.

(** [round(x, 2)] of a float. *)
Definition round2 (x : Q) : Q := fl (py_round_n x 2).

(** One iteration of [for i, eq in enumerate(equities)]. *)
Definition dd_step (dates : list string) (i : nat) (eq : Q) : M dd_state unit :=
  do st <- get;
  do st1 <-
    (if Qltb (peak st) eq then
       do d <- getitem dates i;
       ret {| peak := eq; mdd := mdd st; dd_curve := dd_curve st;
              mdd_peak_d := mdd_peak_d st; mdd_trough_d := mdd_trough_d st;
              tmp_peak_d := d |}
     else ret st);
  let dd := drawdown eq (peak st1) in
  let curve := dd_curve st1 ++ [round2 dd] in
  if Qltb dd (mdd st1) then
    do d <- getitem dates i;
    put {| peak := peak st1; mdd := dd; dd_curve := curve;
           mdd_peak_d := tmp_peak_d st1; mdd_trough_d := d;
           tmp_peak_d := tmp_peak_d st1 |}
  else
    put {| peak := peak st1; mdd := mdd st1; dd_curve := curve;
           mdd_peak_d := mdd_peak_d st1; mdd_trough_d := mdd_trough_d st1;
           tmp_peak_d := tmp_peak_d st1 |}.

Fixpoint dd_loop (dates : list string) (i : nat) (equities : list Q)
    : M dd_state unit :=
  match equities with
  | [] => ret tt
  | eq :: rest => run dd_step dates i eq; dd_loop dates (S i) rest
  end.

(** [(equities[-1] / equities[0]) ** (252 / max(n, 1))] *)
Definition annual_power (equities : list Q) (first : Q) : result (option Q) :=
  float_pow (fl (List.last equities first / first))
    (fl (252 / inject_Z (Z.max (Z.of_nat (length equities)) 1))).

Definition _calc_metrics (equities : list Q) (dates : list string)
    : result Metrics :=
  match equities with
  | [] => Value NoMetrics
  | first :: _ =>
      if Qeq_bool first 0 then Value NoMetrics else
      match dates with
      | [] => Exception IndexError
      | date0 :: _ =>
          let init := {| peak := first; mdd := 0; dd_curve := [];
                         mdd_peak_d := date0; mdd_trough_d := date0;
                         tmp_peak_d := date0 |} in
          match dd_loop dates 0 equities init with
          | Returned _ st =>
              match annual_power equities first with
              | Exception e => Exception e
              | Value None =>
                  (* [round(ann_ret, 2)] of a complex number *)
                  Exception TypeError
              | Value (Some pw) =>
                  let ann_ret := fl (fl (pw - 1) * 100) in
                  Value (DrawdownMetrics (round2 ann_ret) (round2 (mdd st))
                           (mdd_peak_d st, mdd_trough_d st)
                           (zip dates (dd_curve st)))
              end
          | Raised e _ => Exception e
          end
      end
  end.

End CalcMetrics.

(** ** BacktestEngine: price data *)

(** One row of a price series ([{'date', 'open', 'high', 'low', 'close',
    'volume'}]). *)
Record PriceRow := mkPriceRow {
  r_date : string;
  r_open : Q;
  r_high : Q;
  r_low : Q;
  r_close : Q;
  r_volume : Z
}.

(** The engine: its cost configuration, its portfolio and the price series
    and display names registered by [add_price_data].  ([_price_idx] and
    the benchmark series are not read by the strategy embedded below.) *)
Record BacktestEngine := mkBacktestEngine {
  cost_config : CostConfig;
  portfolio : Portfolio;
  price_data : gmap string (list PriceRow);
  ticker_names : gmap string string
}.

Definition BacktestEngine_init (capital slippage commission tax : Q)
    : BacktestEngine :=
  let cfg := mkCostConfig slippage commission tax in
  {| cost_config := cfg; portfolio := Portfolio_init capital cfg;
     price_data := ∅; ticker_names := ∅ |}.

(** [sorted(data, key=lambda x: x['date'])]: a stable sort. *)
Fixpoint insert_row (r : PriceRow) (l : list PriceRow) : list PriceRow :=
  match l with
  | [] => [r]
  | y :: l' =>
      if String.leb (r_date r) (r_date y) then r :: l
      else y :: insert_row r l'
  end.

Definition sorted_by_date (data : list PriceRow) : list PriceRow :=
  foldr insert_row [] data.

Definition add_price_data (ticker : string) (data : list PriceRow)
    (name : string) (self : BacktestEngine) : BacktestEngine :=
  {| cost_config := cost_config self; portfolio := portfolio self;
     price_data := <[ticker := sorted_by_date data]> (price_data self);
     ticker_names :=
       if String.eqb name "" then ticker_names self
       else <[ticker := name]> (ticker_names self) |}.

(** [sorted(dates)] for the set of all dates: a strictly increasing list. *)
Fixpoint add_date (d : string) (l : list string) : list string :=
  match l with
  | [] => [d]
  | y :: l' =>
      match String.compare d y with
      | Eq => l
      | Lt => d :: l
      | Gt => y :: add_date d l'
      end
  end.

Definition _build_dates (self : BacktestEngine) : list string :=
  map_fold (fun _ ticker_data dates =>
              foldr add_date dates (map r_date ticker_data))
           [] (price_data self).

(** The inner loop of [_last_known_prices], with its [break]. *)
Fixpoint last_close (data : list PriceRow) (date : string) (last : option Q)
    : option Q :=
  match data with
  | [] => last
  | row :: rest =>
      if String.leb (r_date row) date
      then last_close rest date (Some (r_close row))
      else last
  end.

Definition _last_known_prices (self : BacktestEngine) (date : string)
    : gmap string Q :=
  omap (fun data => last_close data date None) (price_data self).

(** ** BacktestEngine.run_volatility_trailing_stop *)

(** [m[k]] on a dictionary. *)
Definition dict_get {S V} (m : gmap string V) (k : string) : M S V :=
  match m !! k with
  | Some v => ret v
  | None => raise KeyError
  end.

Definition result_bind {A B} (r : result A) (k : A -> result B) : result B :=
  match r with
  | Value a => k a
  | Exception e => Exception e
  end.

(** A computation that reads no state, inside a method. *)
Definition lift {S A} (r : result A) : M S A :=
  fun s => match r with
           | Value a => Returned a s
           | Exception e => Raised e s
           end.

(** [l[s:]] *)
Definition py_slice_from {A} (l : list A) (s : Z) : list A :=
  if (s <? 0)%Z
  then drop (Z.to_nat (Z.max 0 (Z.of_nat (length l) + s))) l
  else drop (Z.to_nat s) l.

(** [max(a, b)] *)
Definition py_max (a b : Q) : Q := if Qltb a b then b else a.

(** [[closes[j] / closes[j - 1] - 1 for j in range(1, len(closes))]],
    [prev] being [closes[j - 1]]. *)
Fixpoint returns_from (prev : Q) (closes : list Q) : result (list Q) :=
  match closes with
  | [] => Value []
  | c :: rest =>
      if Qeq_bool prev 0 then Exception ZeroDivisionError
      else result_bind (returns_from c rest)
             (fun rets => Value ((c / prev - 1) :: rets))
  end.

Definition daily_returns (closes : list Q) : result (list Q) :=
  match closes with
  | [] => Value []
  | c0 :: rest => returns_from c0 rest
  end.

(** The local variables of the strategy, with the portfolio it drives. *)
Record RunState := mkRunState {
  rs_portfolio : Portfolio;
  peaks : gmap string Q;
  sold_day : gmap string Z;
  holding : gmap string bool;
  initial_buy_done : bool
}.

Definition set_portfolio (p : Portfolio) (st : RunState) : RunState :=
  {| rs_portfolio := p; peaks := peaks st; sold_day := sold_day st;
     holding := holding st; initial_buy_done := initial_buy_done st |}.

Definition set_peaks (pk : gmap string Q) (st : RunState) : RunState :=
  {| rs_portfolio := rs_portfolio st; peaks := pk; sold_day := sold_day st;
     holding := holding st; initial_buy_done := initial_buy_done st |}.

(** [holding[t] = False; sold_day[t] = i] *)
Definition mark_sold (t : string) (i : Z) (st : RunState) : RunState :=
  {| rs_portfolio := rs_portfolio st; peaks := peaks st;
     sold_day := <[t := i]> (sold_day st);
     holding := <[t := false]> (holding st);
     initial_buy_done := initial_buy_done st |}.

(** [holding[t] = True; peaks[t] = p; initial_buy_done = True] *)
Definition mark_bought (t : string) (p : Q) (st : RunState) : RunState :=
  {| rs_portfolio := rs_portfolio st; peaks := <[t := p]> (peaks st);
     sold_day := sold_day st;
     holding := <[t := true]> (holding st);
     initial_buy_done := true |}.

(** A call of a portfolio method from the strategy. *)
Definition on_portfolio {A} (m : M Portfolio A) : M RunState A :=
  fun st => match m (rs_portfolio st) with
            | Returned a p => Returned a (set_portfolio p st)
            | Raised e p => Raised e (set_portfolio p st)
            end.

Section VolatilityTrailingStop.

(** The rounding of the float arithmetic in the stop test. *)
Variable fl : Q -> Q.

(** [statistics.stdev] of the Python standard library. *)
Variable stdev : list Q -> Q.

Variable self : BacktestEngine.
Variables (lookback : Z) (stop_pct : Q) (cooldown : Z) (reentry : bool).

(** The body of the trailing-stop loop, for one ticker of [valid]. *)
Definition stop_check (prices : gmap string Q) (i : Z) (date t : string)
    : M RunState unit :=
  do st <- get;
  do held <- dict_get (holding st) t;
  if negb held then ret tt else
  match prices !! t with
  | None => ret tt
  | Some p =>
      let peaks1 :=
        if Qltb (default 0 (peaks st !! t)) p then <[t := p]> (peaks st)
        else peaks st in
      run put (set_peaks peaks1 st);
      let pk := default p (peaks1 !! t) in
      if Qltb 0 pk then
        let dd_pct := fl (fl (fl (p / pk) - 1) * 100) in
        if Qle_bool dd_pct stop_pct then
          run match positions (rs_portfolio st) !! t with
              | Some pos =>
                  run on_portfolio (sell t p (pos_shares pos) date); ret tt
              | None => ret tt
              end;
          modify (mark_sold t i)
        else ret tt
      else ret tt
  end.

(** The tests of the loop that collects [buyable], for one ticker. *)
Definition is_buyable (prices : gmap string Q) (i : Z) (st : RunState)
    (t : string) : result bool :=
  match holding st !! t with
  | None => Exception KeyError
  | Some true => Value false
  | Some false =>
      match sold_day st !! t with
      | None => Exception KeyError
      | Some sold =>
          if negb reentry && (0 <=? sold)%Z && initial_buy_done st
          then Value false
          else if (i - sold <=? cooldown)%Z then Value false
          else match prices !! t with
               | Some p => Value (Qltb 0 p)
               | None => Value false
               end
      end
  end.

Fixpoint collect_buyable (prices : gmap string Q) (i : Z) (st : RunState)
    (valid : list string) : result (list string) :=
  match valid with
  | [] => Value []
  | t :: rest =>
      result_bind (is_buyable prices i st t) (fun b =>
      result_bind (collect_buyable prices i st rest) (fun l =>
      Value (if b then t :: l else l)))
  end.

(** [inv_vols[t]] as the volatility loop computes it. *)
Definition inv_vol_of (date t : string) : result Q :=
  match price_data self !! t with
  | None => Exception KeyError
  | Some data =>
      let closes :=
        map r_close (List.filter (fun row => String.leb (r_date row) date) data) in
      let closes := py_slice_from closes (- (lookback + 1)) in
      if (2 <=? length closes)%nat then
        result_bind (daily_returns closes) (fun rets =>
          let vol := if (1 <? length rets)%nat then stdev rets else 1 in
          Value (1 / py_max vol (1 # 100000000)))
      else Value 1
  end.

Fixpoint build_inv_vols (date : string) (buyable : list string)
    (inv_vols : gmap string Q) : result (gmap string Q) :=
  match buyable with
  | [] => Value inv_vols
  | t :: rest =>
      result_bind (inv_vol_of date t) (fun v =>
        build_inv_vols date rest (<[t := v]> inv_vols))
  end.

(** The body of the buying loop, for one ticker of [buyable]. *)
Definition buy_weighted (prices inv_vols : gmap string Q) (total_inv available : Q)
    (n_buyable : nat) (date t : string) : M RunState unit :=
  do weight <-
    (if Qltb 0 total_inv
     then do iv <- dict_get inv_vols t; py_div iv total_inv
     else py_div 1 (inject_Z (Z.of_nat n_buyable)));
  let alloc := available * weight in
  if Qle_bool alloc 0 then ret tt else
  do p <- dict_get prices t;
  let exec_p := p * (1 + slippage_pct (cost_config self) / 100) in
  do q <- py_div alloc (exec_p * (1 + commission_pct (cost_config self) / 100));
  let shares := py_int q in
  if (0 <? shares)%Z then
    let name := default t (ticker_names self !! t) in
    do bought <- on_portfolio (buy t p shares date name);
    if (0 <? bought)%Z then modify (mark_bought t p) else ret tt
  else ret tt.

(** The block that buys by inverse volatility: first entry or re-entry. *)
Definition buy_phase (valid : list string) (i : Z) (date : string)
    : M RunState unit :=
  let prices := _last_known_prices self date in
  do st <- get;
  do buyable <- lift (collect_buyable prices i st valid);
  match buyable with
  | [] => ret tt
  | _ :: _ =>
      do inv_vols <- lift (build_inv_vols date buyable ∅);
      let total_inv := map_fold (fun _ v total => total + v) 0 inv_vols in
      do st' <- get;
      let available := cash (rs_portfolio st') in
      for_each buyable
        (buy_weighted prices inv_vols total_inv available (length buyable) date)
  end.

(** One iteration of [for i, date in enumerate(dates)]. *)
Definition day_step (valid : list string) (i : Z) (date : string)
    : M RunState unit :=
  let prices := _last_known_prices self date in
  run for_each valid (stop_check prices i date);
  run buy_phase valid i date;
  on_portfolio (snapshot date prices).

Fixpoint run_days (valid : list string) (i : Z) (dates : list string)
    : M RunState unit :=
  match dates with
  | [] => ret tt
  | date :: rest => run day_step valid i date; run_days valid (i + 1) rest
  end.

(** [x or d] for an optional string argument. *)
Definition str_or (x : option string) (d : string) : string :=
  match x with
  | Some s => if String.eqb s "" then d else s
  | None => d
  end.

(** The initialisation [for t in valid: holding[t] = False; sold_day[t] =
    -cooldown - 1]. *)
Definition init_locals (valid : list string) : RunState :=
  foldl (fun st t =>
           {| rs_portfolio := rs_portfolio st; peaks := peaks st;
              sold_day := <[t := (- cooldown - 1)%Z]> (sold_day st);
              holding := <[t := false]> (holding st);
              initial_buy_done := initial_buy_done st |})
        {| rs_portfolio := portfolio self; peaks := ∅; sold_day := ∅;
           holding := ∅; initial_buy_done := false |}
        valid.

(** The method; the result is the state in which it ends, the engine's
    portfolio being [rs_portfolio] of it. *)
Definition run_volatility_trailing_stop (tickers : list string)
    (start_date end_date : option string) : outcome RunState unit :=
  let all_dates := _build_dates self in
  let untouched := init_locals [] in
  match all_dates with
  | [] => Returned tt untouched
  | first_date :: _ =>
      let start := str_or start_date first_date in
      let end_ := str_or end_date (List.last all_dates first_date) in
      let dates :=
        List.filter (fun d => String.leb start d && String.leb d end_) all_dates in
      let valid :=
        List.filter (fun t => match price_data self !! t with
                              | Some (_ :: _) => true
                              | _ => false
                              end) tickers in
      match valid, dates with
      | [], _ | _, [] => Returned tt untouched
      | _, _ => run_days valid 0 dates (init_locals valid)
      end
  end.

End VolatilityTrailingStop.

(** ** BacktestEngine._price *)

(** [self._price_idx[ticker]], which [add_price_data] builds from the rows
    it stores: [{row['date']: row for row in sorted_data}]. *)
Definition price_index (data : list PriceRow) : gmap string PriceRow :=
  foldl (fun idx row => <[r_date row := row]> idx) ∅ data.

Definition _price (self : BacktestEngine) (ticker date : string) : option Q :=
  match price_data self !! ticker with
  | Some data => r_close <$> price_index data !! date
  | None => None
  end.

(** ** BacktestEngine.run_equal_weight *)

(** The body of [for ticker in valid]. *)
Definition equal_weight_buy (self : BacktestEngine) (alloc : Q)
    (buy_date ticker : string) : M Portfolio unit :=
  match _price self ticker buy_date with
  | Some price =>
      if negb (Qeq_bool price 0) && Qltb 0 price then
        let exec_p := price * (1 + slippage_pct (cost_config self) / 100) in
        do q <- py_div alloc
                  (exec_p * (1 + commission_pct (cost_config self) / 100));
        let shares := py_int q in
        let name := default ticker (ticker_names self !! ticker) in
        run buy ticker price shares buy_date name;
        ret tt
      else ret tt
  | None => ret tt
  end.

(** The method, run on the engine's portfolio.  [self.initial_capital] is
    the value the constructor hands to the portfolio, and neither of the
    two attributes is assigned again. *)
Definition run_equal_weight (self : BacktestEngine) (tickers : list string)
    (start_date end_date : option string) : outcome Portfolio unit :=
  let all_dates := _build_dates self in
  match all_dates with
  | [] => Returned tt (portfolio self)
  | first_date :: _ =>
      let start := str_or start_date first_date in
      let end_ := str_or end_date (List.last all_dates first_date) in
      let dates :=
        List.filter (fun d => String.leb start d && String.leb d end_) all_dates in
      match dates with
      | [] => Returned tt (portfolio self)
      | buy_date :: _ =>
          let valid :=
            List.filter (fun t => match price_data self !! t with
                                  | Some (_ :: _) => true
                                  | _ => false
                                  end) tickers in
          match valid with
          | [] => Returned tt (portfolio self)
          | _ :: _ =>
              let alloc := initial_capital (portfolio self)
                           / inject_Z (Z.of_nat (length valid)) in
              (run for_each valid (equal_weight_buy self alloc buy_date);
               for_each dates
                 (fun date => snapshot date (_last_known_prices self date)))
                (portfolio self)
          end
      end
  end.

(** ** BacktestEngine.run_rebalance *)

(** The body of [for ticker in valid] on a rebalancing day. *)
Definition rebalance_buy (self : BacktestEngine) (prices : gmap string Q)
    (alloc : Q) (date ticker : string) : M Portfolio unit :=
  match prices !! ticker with
  | Some price =>
      if Qltb 0 price then
        let exec_p := price * (1 + slippage_pct (cost_config self) / 100) in
        do q <- py_div alloc
                  (exec_p * (1 + commission_pct (cost_config self) / 100));
        let shares := py_int q in
        let name := default ticker (ticker_names self !! ticker) in
        run buy ticker price shares date name;
        ret tt
      else ret tt
  | None => ret tt
  end.

(** [for i, date in enumerate(dates)], from index [i] on; the assignment
    [last_rebal = i] is the argument of the next iteration. *)
Fixpoint rebalance_days (self : BacktestEngine) (valid : list string)
    (period i last_rebal : Z) (dates : list string) : M Portfolio unit :=
  match dates with
  | [] => ret tt
  | date :: rest =>
      let prices := _last_known_prices self date in
      let rebalancing := (period <=? i - last_rebal)%Z in
      run (if rebalancing then
             run sell_all prices date;
             do p <- get;
             let eq := equity prices p in
             let alloc := eq / inject_Z (Z.of_nat (length valid)) in
             for_each valid (rebalance_buy self prices alloc date)
           else ret tt);
      run snapshot date prices;
      rebalance_days self valid period (i + 1)
        (if rebalancing then i else last_rebal) rest
  end.

Definition run_rebalance (self : BacktestEngine) (tickers : list string)
    (start_date end_date : option string) (period : Z)
    : outcome Portfolio unit :=
  let all_dates := _build_dates self in
  match all_dates with
  | [] => Returned tt (portfolio self)
  | first_date :: _ =>
      let start := str_or start_date first_date in
      let end_ := str_or end_date (List.last all_dates first_date) in
      let dates :=
        List.filter (fun d => String.leb start d && String.leb d end_) all_dates in
      let valid :=
        List.filter (fun t => match price_data self !! t with
                              | Some (_ :: _) => true
                              | _ => false
                              end) tickers in
      match valid, dates with
      | [], _ | _, [] => Returned tt (portfolio self)
      | _, _ => rebalance_days self valid period 0 (- period) dates (portfolio self)
      end
  end.

(** ** BacktestEngine._calc_metrics: the win rate

    The value of the ['win_rate'] entry: [closed] is never empty where the
    division is evaluated. *)
Definition win_rate (trades : list TradeRecord) : Q :=
  let closed :=
    List.filter (fun t => Status_eqb (t_status t) st_closed) trades in
  let wins := length (List.filter (fun t => Qltb 0 (t_pnl t)) closed) in
  let win_rate :=
    match closed with
    | [] => 0
    | _ :: _ => inject_Z (Z.of_nat wins) / inject_Z (Z.of_nat (length closed)) * 100
    end in
  py_round_n win_rate 2.

(** ** BacktestEngine._calc_benchmark *)





(** * Properties *)

(** ** Facts about the numeric primitives *)

(** Percentages: [x / 100] is [x * (1 # 100)] for the linear solver. *)
Ltac pct :=
  unfold Qdiv in *; change (/ 100) with (1 # 100) in *.
Ltac lra_pct := pct; lra.

Lemma Qltb_lt (a b : Q) : Qltb a b = true <-> a < b.
Proof.
  unfold Qltb. rewrite negb_true_iff, <- not_true_iff_false, Qle_bool_iff.
  split; [apply Qnot_le_lt | apply Qlt_not_le].
Qed.

Lemma Qltb_ge (a b : Q) : Qltb a b = false <-> b <= a.
Proof.
  unfold Qltb. rewrite negb_false_iff. apply Qle_bool_iff.
Qed.

Lemma py_round_cases (x : Q) :
  (py_round x = Qfloor x /\ x - inject_Z (Qfloor x) <= 1 # 2) \/
  (py_round x = (Qfloor x + 1)%Z /\ 1 # 2 <= x - inject_Z (Qfloor x)).
Proof.
  unfold py_round.
  destruct (Qcompare_spec (x - inject_Z (Qfloor x)) (1 # 2)) as [E|L|G].
  - destruct (Z.even (Qfloor x)); [left | right]; split; auto; lra.
  - left; split; auto; lra.
  - right; split; auto; lra.
Qed.

Lemma py_round_lower (x : Q) : x - (1 # 2) <= inject_Z (py_round x).
Proof.
  pose proof (Qlt_floor x) as Hu.
  destruct (py_round_cases x) as [[-> H]|[-> H]].
  - lra.
  - rewrite inject_Z_plus in *. lra.
Qed.

Lemma py_round_upper (x : Q) : inject_Z (py_round x) <= x + (1 # 2).
Proof.
  pose proof (Qfloor_le x) as Hl.
  destruct (py_round_cases x) as [[-> H]|[-> H]].
  - lra.
  - rewrite inject_Z_plus. change (inject_Z 1) with 1. lra.
Qed.

Lemma py_round_nonneg (x : Q) : 0 <= x -> (0 <= py_round x)%Z.
Proof.
  intros Hx.
  assert (0 <= Qfloor x)%Z as Hf.
  { change 0%Z with (Qfloor 0). by apply Qfloor_resp_le. }
  destruct (py_round_cases x) as [[-> _]|[-> _]]; lia.
Qed.

Lemma py_round_mono (x y : Q) : x <= y -> (py_round x <= py_round y)%Z.
Proof.
  intros Hxy.
  pose proof (Qfloor_resp_le x y Hxy) as Hf.
  destruct (Z.eq_dec (Qfloor x) (Qfloor y)) as [E|N].
  - unfold py_round. rewrite <- E.
    destruct (Qcompare_spec (x - inject_Z (Qfloor x)) (1 # 2)) as [Ex|Lx|Gx];
      destruct (Qcompare_spec (y - inject_Z (Qfloor x)) (1 # 2)) as [Ey|Ly|Gy];
      try destruct (Z.even (Qfloor x)); try lia; exfalso; lra.
  - destruct (py_round_cases x) as [[-> _]|[-> _]];
      destruct (py_round_cases y) as [[-> _]|[-> _]]; lia.
Qed.

Lemma py_round_inject_Z (z : Z) : py_round (inject_Z z) = z.
Proof.
  unfold py_round. rewrite Qfloor_Z.
  destruct (Qcompare_spec (inject_Z z - inject_Z z) (1 # 2)) as [E|L|G];
    try reflexivity; exfalso; lra.
Qed.

Lemma Qnum_nonneg (x : Q) : 0 <= x <-> (0 <= Qnum x)%Z.
Proof. unfold Qle; simpl. lia. Qed.

(** Truncation is the floor on non-negative values, and never positive on
    non-positive ones. *)
Lemma py_int_floor (x : Q) : 0 <= x -> py_int x = Qfloor x.
Proof.
  intros Hx. apply Qnum_nonneg in Hx. destruct x as [n d]; simpl in *.
  unfold py_int; simpl. apply Z.quot_div_nonneg; lia.
Qed.

Lemma py_int_nonpos (x : Q) : x <= 0 -> (py_int x <= 0)%Z.
Proof.
  intros Hx. destruct x as [n d]. unfold Qle in Hx; simpl in Hx.
  unfold py_int; simpl.
  assert (n <= 0)%Z as Hn by lia.
  replace n with (- - n)%Z by lia.
  rewrite Z.quot_opp_l by lia.
  pose proof (Z.quot_pos (- n) (Z.pos d)). lia.
Qed.

(** Sum of a list of floats. *)
Definition Qsum (l : list Q) : Q := foldr Qplus 0 l.

(** ** The rounding of binary64 *)

Lemma pow2_pos (e : Z) : 0 < 2 ^ e.
Proof. by apply Qpower_0_lt. Qed.

Lemma pow2_succ (e : Z) : 2 ^ (e + 1) == 2 * 2 ^ e.
Proof. rewrite Qpower_plus by discriminate. change (2 ^ 1) with 2. ring. Qed.

Lemma pow2_inject (n : Z) : (0 <= n)%Z -> inject_Z (2 ^ n) == 2 ^ n.
Proof. intros Hn. by rewrite Zpower_Qpower. Qed.

Lemma log2_bounds (n : Z) :
  (0 < n)%Z -> 2 ^ Z.log2 n <= inject_Z n /\ inject_Z n < 2 * 2 ^ Z.log2 n.
Proof.
  intros Hn. destruct (Z.log2_spec n Hn) as [Hl Hu].
  pose proof (Z.log2_nonneg n) as Hnn.
  rewrite <- pow2_succ, <- !pow2_inject by lia.
  split; [by rewrite <- Zle_Qle|].
  rewrite <- Zlt_Qlt. by rewrite Z.add_1_r.
Qed.

(** [binade a] is the exponent of the power of two at or just below [a]. *)
Lemma binade_spec (a : Q) :
  0 < a -> 2 ^ binade a <= a /\ a < 2 * 2 ^ binade a.
Proof.
  intros Ha. unfold binade.
  set (k := (Z.log2 (Qnum a) - Z.log2 (Zpos (Qden a)))%Z).
  assert (0 < Qnum a)%Z as Hn by (destruct a as [n d]; unfold Qlt in Ha; simpl in *; lia).
  destruct (log2_bounds (Qnum a) Hn) as [Hn1 Hn2].
  destruct (log2_bounds (Zpos (Qden a)) eq_refl) as [Hd1 Hd2].
  pose proof (pow2_pos (Z.log2 (Qnum a))) as Hpn.
  pose proof (pow2_pos (Z.log2 (Z.pos (Qden a)))) as Hpd.
  pose proof (pow2_pos k) as Hpk.
  assert (2 ^ Z.log2 (Qnum a) == 2 ^ k * 2 ^ Z.log2 (Zpos (Qden a))) as Hk.
  { rewrite <- Qpower_plus by discriminate. unfold k.
    by replace (Z.log2 (Qnum a) - Z.log2 (Z.pos (Qden a))
                + Z.log2 (Z.pos (Qden a)))%Z with (Z.log2 (Qnum a)) by lia. }
  assert (a * inject_Z (Zpos (Qden a)) == inject_Z (Qnum a)) as Hfrac.
  { destruct a as [n d]. unfold Qeq, Qmult, inject_Z. simpl. lia. }
  set (N := inject_Z (Qnum a)) in *. set (D := inject_Z (Zpos (Qden a))) in *.
  set (pn := 2 ^ Z.log2 (Qnum a)) in *.
  set (pd := 2 ^ Z.log2 (Z.pos (Qden a))) in *.
  set (pk := 2 ^ k) in *.
  assert (0 < D) as HD by lra.
  assert (a < 2 * pk) as Hup.
  { apply Qnot_le_lt. intros Hle.
    assert (2 * pk * D <= a * D) as H1 by (apply Qmult_le_compat_r; lra).
    assert (2 * pk * pd <= 2 * pk * D) as H2
      by (apply Qmult_le_l; [lra|exact Hd1]).
    rewrite Hfrac in H1. rewrite Hk in Hn2.
    assert (2 * (pk * pd) == 2 * pk * pd) as E by ring. lra. }
  assert (pk < 2 * a) as Hlow.
  { apply Qnot_le_lt. intros Hle.
    assert (2 * a * D <= pk * D) as H1 by (apply Qmult_le_compat_r; lra).
    assert (pk * D < pk * (2 * pd)) as H2
      by (apply Qmult_lt_l; [lra|exact Hd2]).
    assert (2 * a * D == 2 * (a * D)) as E by ring.
    rewrite E, Hfrac in H1. rewrite Hk in Hn1.
    assert (pk * (2 * pd) == 2 * (pk * pd)) as E' by ring. lra. }
  destruct (Qle_bool pk a) eqn:Hc.
  - apply Qle_bool_iff in Hc. fold pk. split; lra.
  - assert (2 * 2 ^ (k - 1) == pk) as E.
    { rewrite <- pow2_succ. unfold pk.
      by replace (k - 1 + 1)%Z with k by lia. }
    assert (a < pk) as Hlt.
    { apply Qnot_le_lt. intros Hle. apply Qle_bool_iff in Hle. congruence. }
    split; lra.
Qed.

Lemma binade_mono (a b : Q) : 0 < a -> a <= b -> (binade a <= binade b)%Z.
Proof.
  intros Ha Hab.
  destruct (binade_spec a Ha) as [Ha1 _].
  destruct (binade_spec b) as [_ Hb2]; [lra|].
  rewrite <- pow2_succ in Hb2.
  assert (2 ^ binade a < 2 ^ (binade b + 1)) as H by lra.
  apply Qpower_lt_compat_l_inv in H; [lia|reflexivity].
Qed.

(** The float next to a positive number. *)
Definition nearest (a : Q) : Q :=
  let e := Z.max (binade a - 52) (-1074) in
  inject_Z (py_round (a / 2 ^ e)) * 2 ^ e.

Lemma nearest_nonneg (a : Q) : 0 < a -> 0 <= nearest a.
Proof.
  intros Ha. unfold nearest.
  set (e := Z.max (binade a - 52) (-1074)).
  pose proof (pow2_pos e) as He.
  apply Qmult_le_0_compat; [|lra].
  change 0 with (inject_Z 0). rewrite <- Zle_Qle. apply py_round_nonneg.
  apply Qle_shift_div_l; [exact He|]. lra.
Qed.

Lemma nearest_mono (a b : Q) : 0 < a -> a <= b -> nearest a <= nearest b.
Proof.
  intros Ha Hab. unfold nearest.
  pose proof (binade_mono a b Ha Hab) as Hbin.
  set (ea := Z.max (binade a - 52) (-1074)).
  set (eb := Z.max (binade b - 52) (-1074)).
  pose proof (pow2_pos ea) as Hea. pose proof (pow2_pos eb) as Heb.
  destruct (Z.eq_dec ea eb) as [E|Hne].
  - rewrite <- E. apply Qmult_le_compat_r; [|lra].
    rewrite <- Zle_Qle. apply py_round_mono.
    apply Qmult_le_compat_r; [exact Hab|].
    apply Qlt_le_weak, Qinv_lt_0_compat, Hea.
  - assert (ea < eb)%Z as Hlt by (unfold ea, eb in *; lia).
    assert (eb = binade b - 52)%Z as Heb' by (unfold ea, eb in *; lia).
    destruct (binade_spec a Ha) as [_ Ha2].
    destruct (binade_spec b) as [Hb1 _]; [lra|].
    apply Qle_trans with (2 ^ binade b).
    + (* the float next to [a] is at most [2 ** binade b] *)
      assert (0 <= binade b - ea)%Z as Hd by lia.
      assert (2 ^ binade b == inject_Z (2 ^ (binade b - ea)) * 2 ^ ea) as ->.
      { rewrite pow2_inject by exact Hd.
        rewrite <- Qpower_plus by discriminate.
        by replace (binade b - ea + ea)%Z with (binade b) by lia. }
      apply Qmult_le_compat_r; [|lra].
      rewrite <- Zle_Qle.
      rewrite <- (py_round_inject_Z (2 ^ (binade b - ea))).
      apply py_round_mono.
      apply Qle_shift_div_r; [exact Hea|].
      rewrite pow2_inject by exact Hd.
      rewrite <- Qpower_plus by discriminate.
      replace (binade b - ea + ea)%Z with (binade b) by lia.
      apply Qle_trans with (2 ^ (binade a + 1)).
      * rewrite pow2_succ. lra.
      * apply Qpower_le_compat_l; [unfold ea, eb in *; lia|discriminate].
    + (* the float next to [b] is at least [2 ** binade b] *)
      assert (2 ^ binade b == inject_Z (2 ^ 52) * 2 ^ eb) as E.
      { rewrite pow2_inject by lia.
        rewrite <- Qpower_plus by discriminate.
        by replace (52 + eb)%Z with (binade b) by lia. }
      rewrite E at 1.
      apply Qmult_le_compat_r; [|lra].
      rewrite <- Zle_Qle.
      rewrite <- (py_round_inject_Z (2 ^ 52)) at 1.
      apply py_round_mono.
      apply Qle_shift_div_l; [exact Heb|].
      rewrite <- E. exact Hb1.
Qed.

Lemma fl64_pos (x : Q) : 0 < x -> fl64 x == nearest (Qabs x) /\ Qabs x == x.
Proof.
  intros Hx. unfold fl64, nearest.
  replace (Qeq_bool x 0) with false
    by (symmetry; apply not_true_iff_false; rewrite Qeq_bool_iff; lra).
  replace (Qle_bool 0 x) with true
    by (symmetry; apply Qle_bool_iff; lra).
  rewrite Qred_correct. split; [ring|]. apply Qabs_pos. lra.
Qed.

Lemma fl64_neg (x : Q) : x < 0 -> fl64 x == - nearest (Qabs x) /\ Qabs x == - x.
Proof.
  intros Hx. unfold fl64, nearest.
  replace (Qeq_bool x 0) with false
    by (symmetry; apply not_true_iff_false; rewrite Qeq_bool_iff; lra).
  replace (Qle_bool 0 x) with false
    by (symmetry; apply not_true_iff_false; rewrite Qle_bool_iff; lra).
  rewrite Qred_correct. split; [ring|]. apply Qabs_neg. lra.
Qed.

Lemma fl64_zero (x : Q) : x == 0 -> fl64 x = 0.
Proof.
  intros Hx. unfold fl64.
  by replace (Qeq_bool x 0) with true by (symmetry; by apply Qeq_bool_iff).
Qed.

(** Rounding to the nearest float keeps the order. *)
Lemma fl64_mono (x y : Q) : x <= y -> fl64 x <= fl64 y.
Proof.
  intros Hxy.
  destruct (Q_dec x 0) as [[Hx|Hx]|Hx]; destruct (Q_dec y 0) as [[Hy|Hy]|Hy];
    try (exfalso; lra).
  - destruct (fl64_neg x Hx) as [-> Ex], (fl64_neg y Hy) as [-> Ey].
    assert (nearest (Qabs y) <= nearest (Qabs x)) as H
      by (apply nearest_mono; lra).
    lra.
  - destruct (fl64_neg x Hx) as [-> Ex], (fl64_pos y Hy) as [-> Ey].
    pose proof (nearest_nonneg (Qabs x)) as H1.
    pose proof (nearest_nonneg (Qabs y)) as H2. lra.
  - destruct (fl64_neg x Hx) as [-> Ex]. rewrite (fl64_zero y Hy).
    pose proof (nearest_nonneg (Qabs x)) as H1. lra.
  - destruct (fl64_pos x Hx) as [-> Ex], (fl64_pos y Hy) as [-> Ey].
    apply nearest_mono; lra.
  - rewrite (fl64_zero x Hx). destruct (fl64_pos y Hy) as [-> Ey].
    pose proof (nearest_nonneg (Qabs y)) as H2. lra.
  - rewrite (fl64_zero x Hx), (fl64_zero y Hy). lra.
Qed.

Lemma fl64_0 : fl64 0 == 0.
Proof. reflexivity. Qed.

Lemma fl64_1 : fl64 1 == 1.
Proof. vm_compute. reflexivity. Qed.

(** ** Valuation *)

(** The value at which one open position enters the equity: its shares
    times the supplied mark, or times its own average execution price when
    the price map has no entry for the ticker. *)
Definition marked_value (prices : gmap string Q) (entry : string * Position) : Q :=
  match prices !! entry.1 with
  | Some mark => mark * inject_Z (pos_shares entry.2)
  | None => pos_avg_price entry.2 * inject_Z (pos_shares entry.2)
  end.

Lemma equity_fold_sum (prices : gmap string Q) (c : Q) (l : list (string * Position)) :
  foldr (uncurry (fun ticker pos total =>
           total + default (pos_avg_price pos) (prices !! ticker)
                   * inject_Z (pos_shares pos))) c l
  == c + Qsum (map (marked_value prices) l).
Proof.
  induction l as [|[k pos] l IH]; simpl.
  - lra.
  - rewrite IH. unfold marked_value; simpl.
    destruct (prices !! k); simpl; lra.
Qed.

Lemma equity_sum (prices : gmap string Q) (self : Portfolio) :
  equity prices self
  == cash self + Qsum (map (marked_value prices) (map_to_list (positions self))).
Proof.
  unfold equity. rewrite map_fold_foldr. apply equity_fold_sum.
Qed.

(** C1. [snapshot] records exactly one entry; its equity is the cash plus
    the sum, over the open positions, of shares times the supplied mark
    price, a ticker without a mark being valued at its position's average
    execution price; the entry also carries the cash and the invested
    part, and the ledger itself is not touched. *)
Theorem C1_snapshot_equity (date : string) (prices : gmap string Q)
    (self : Portfolio) :
  exists snap self',
    snapshot date prices self = Returned tt self' /\
    equity_history self' = equity_history self ++ [snap] /\
    snap_date snap = date /\
    snap_equity snap
      == cash self
         + Qsum (map (fun entry : string * Position =>
                        match prices !! entry.1 with
                        | Some mark => mark * inject_Z (pos_shares entry.2)
                        | None => pos_avg_price entry.2 * inject_Z (pos_shares entry.2)
                        end)
                     (map_to_list (positions self))) /\
    snap_cash snap = cash self /\
    snap_invested snap == snap_equity snap - cash self /\
    cash self' = cash self /\ positions self' = positions self /\
    trades self' = trades self.
Proof.
  eexists _, _. split; [reflexivity|]. simpl.
  repeat split; try reflexivity.
  apply equity_sum.
Qed.

(** ** Buying *)




Lemma buy_rejects_invalid (ticker : string) (price : Q) (shares : Z)
    (date name : string) (self : Portfolio) :
  price <= 0 \/ (shares <= 0)%Z ->
  buy ticker price shares date name self = Returned 0%Z self.
Proof.
  intros H. unfold buy.
  destruct (Z.leb_spec shares 0) as [Hs|Hs]; [reflexivity|].
  destruct H as [H|H]; [|lia].
  apply Qle_bool_iff in H. by rewrite H.
Qed.

(** What a fill of [n] shares does to the ledger. *)
Definition filled_with (ticker : string) (price : Q) (n : Z) (date : string)
    (self self' : Portfolio) : Prop :=
  let exec_price := price * (1 + slippage_pct (cost self) / 100) in
  cash self' == cash self
                - exec_price * inject_Z n * (1 + commission_pct (cost self) / 100) /\
  (exists pos', positions self' !! ticker = Some pos' /\
     pos_shares pos' =
       (match positions self !! ticker with
        | Some pos => pos_shares pos
        | None => 0
        end + n)%Z) /\
  (exists record, trades self' = trades self ++ [record] /\
     t_ticker record = ticker /\ t_entry_date record = date /\
     t_shares record = n /\ t_status record = st_open).

Lemma buy_fill_filled_with (ticker : string) (price : Q) (n : Z)
    (date name : string) (self : Portfolio) :
  exists self',
    buy_fill ticker price (price * (1 + slippage_pct (cost self) / 100)) n
      date name self = Returned n self' /\
    filled_with ticker price n date self self'.
Proof.
  eexists. split; [reflexivity|]. unfold filled_with; simpl.
  split; [lra|]. split.
  - destruct (positions self !! ticker) as [pos|];
      eexists; (split; [apply lookup_insert_eq|]); simpl; lia.
  - eexists. repeat split.
Qed.

Lemma unit_cost_pos (price slip comm : Q) :
  0 < price -> -100 < slip -> -100 < comm ->
  0 < price * (1 + slip / 100) * (1 + comm / 100).
Proof.
  intros Hp Hs Hc.
  apply Qmult_lt_0_compat; [apply Qmult_lt_0_compat|]; lra_pct.
Qed.




(** ** Selling *)

(** [sell] reaches its [return] exactly when the return-percentage division
    is defined: the average price is not positive, or the filled amount is
    not zero. *)
Lemma sell_basis_nonzero (avg : Q) (actual : Z) :
  0 < avg -> actual <> 0%Z -> Qeq_bool (avg * inject_Z actual) 0 = false.
Proof.
  intros Ha Hn. apply not_true_iff_false. rewrite Qeq_bool_iff. intros E.
  apply Qmult_integral in E as [E|E];
    [rewrite E in Ha; by apply Qlt_irrefl in Ha|].
  unfold Qeq in E; simpl in E. lia.
Qed.

(** The amounts [sell] computes for a fill of [actual] shares. *)
Definition sell_net_proceeds (cfg : CostConfig) (price : Q) (actual : Z) : Q :=
  let exec_price := price * (1 - slippage_pct cfg / 100) in
  let gross_proceeds := exec_price * inject_Z actual in
  gross_proceeds - gross_proceeds * (commission_pct cfg / 100)
  - gross_proceeds * (tax_pct cfg / 100).

(** When the division is defined, [sell] ends in [sell_finish] on a ledger
    that differs from the initial one in cash and cost counters only. *)
Lemma sell_returns (ticker : string) (price : Q) (shares : Z) (date : string)
    (self : Portfolio) (pos : Position) :
  positions self !! ticker = Some pos ->
  (Z.min shares (pos_shares pos) <> 0%Z \/ pos_avg_price pos <= 0) ->
  let actual := Z.min shares (pos_shares pos) in
  let net := sell_net_proceeds (cost self) price actual in
  exists exit_cost pnl_pct credited,
    sell ticker price shares date self
    = sell_finish ticker date price (price * (1 - slippage_pct (cost self) / 100))
        exit_cost (net - pos_avg_price pos * inject_Z actual) pnl_pct
        pos actual credited /\
    positions credited = positions self /\
    trades credited = trades self /\
    equity_history credited = equity_history self /\
    cost credited = cost self /\
    cash credited = cash self + net.
Proof.
  intros Hpos Hdef actual net. unfold sell. rewrite Hpos. fold actual.
  destruct (Qltb 0 (pos_avg_price pos)) eqn:Havg.
  - apply Qltb_lt in Havg.
    destruct Hdef as [Hdef|Hdef]; [|lra].
    rewrite (sell_basis_nonzero (pos_avg_price pos) actual Havg Hdef).
    eexists _, _, _. split; [reflexivity|]. simpl. done.
  - eexists _, _, _. split; [reflexivity|]. simpl. done.
Qed.

(** The effect of a returning [sell] on the positions map. *)
Lemma sell_positions_after (ticker : string) (price : Q)
    (shares : Z) (date : string) (self : Portfolio) (pos : Position) :
  positions self !! ticker = Some pos ->
  (Z.min shares (pos_shares pos) <> 0%Z \/ pos_avg_price pos <= 0) ->
  let filled := Z.min shares (pos_shares pos) in
  let remaining := (pos_shares pos - filled)%Z in
  exists self',
    sell ticker price shares date self = Returned filled self' /\
    (0 <= remaining)%Z /\
    (positions self' !! ticker = None <-> remaining = 0%Z) /\
    (remaining <> 0%Z ->
     exists pos', positions self' !! ticker = Some pos' /\
                  pos_shares pos' = remaining /\
                  pos_avg_price pos' = pos_avg_price pos) /\
    (forall other, other <> ticker ->
                   positions self' !! other = positions self !! other).
Proof.
  intros Hpos Hdef filled remaining.
  assert (0 <= remaining)%Z as Hrem by (unfold remaining, filled; lia).
  destruct (sell_returns ticker price shares date self pos Hpos Hdef)
    as (exit_cost & pnl_pct & credited & -> & Hp & _).
  eexists. split; [reflexivity|]. simpl. fold filled. fold remaining.
  rewrite Hp. split; [exact Hrem|].
  destruct (Z.leb_spec remaining 0) as [Hz|Hz].
  - split; [|split].
    + rewrite lookup_delete_eq. split; [lia|done].
    + lia.
    + intros other Hne. by rewrite lookup_delete_ne.
  - split; [|split].
    + rewrite lookup_insert_eq. split; [done|lia].
    + intros _. eexists. split; [apply lookup_insert_eq|]. done.
    + intros other Hne. by rewrite lookup_insert_ne.
Qed.

(** C4. A sell against an existing position fills
    [min(requested, held)]; the remaining share count is never negative;
    the entry leaves the positions map exactly when the remaining count is
    zero, and otherwise stays with the remaining count.  (The hypothesis
    rules out the one case in which [sell] does not return: a zero fill on
    a position with a positive average price.) *)
Theorem C4_sell_fills_min_and_removes_at_zero (ticker : string) (price : Q)
    (shares : Z) (date : string) (self : Portfolio) (pos : Position) :
  positions self !! ticker = Some pos ->
  (Z.min shares (pos_shares pos) <> 0%Z \/ pos_avg_price pos <= 0) ->
  let filled := Z.min shares (pos_shares pos) in
  let remaining := (pos_shares pos - filled)%Z in
  exists self',
    sell ticker price shares date self = Returned filled self' /\
    (0 <= remaining)%Z /\
    (positions self' !! ticker = None <-> remaining = 0%Z) /\
    (remaining <> 0%Z ->
     exists pos', positions self' !! ticker = Some pos' /\
                  pos_shares pos' = remaining /\
                  pos_avg_price pos' = pos_avg_price pos) /\
    (forall other, other <> ticker ->
                   positions self' !! other = positions self !! other).
Proof. exact (sell_positions_after ticker price shares date self pos). Qed.

(** A ledger holding ten shares of one ticker, bought at 100 without
    costs. *)
Definition ten_shares_held : Portfolio :=
  final_state (buy "A" 100 10 "day1" "" (Portfolio_init 10000 (mkCostConfig 0 0 0))).

Lemma ten_shares_held_position :
  exists pos, positions ten_shares_held !! "A" = Some pos /\
              pos_shares pos = 10%Z /\ pos_avg_price pos == 100.
Proof. vm_compute. eexists. repeat split. Defined.

Lemma C4_sell_fills_min_witness :
  exists self',
    sell "A" 110 4 "day2" ten_shares_held = Returned 4%Z self' /\
    exists pos', positions self' !! "A" = Some pos' /\ pos_shares pos' = 6%Z.
Proof.
  destruct ten_shares_held_position as (pos & Hpos & Hsh & Havg).
  destruct (C4_sell_fills_min_and_removes_at_zero "A" 110 4%Z "day2"
              ten_shares_held pos Hpos) as (self' & E & _ & _ & Hrest & _).
  - left. rewrite Hsh. discriminate.
  - rewrite Hsh in E, Hrest. exists self'. split; [exact E|].
    destruct Hrest as (pos' & H1 & H2 & _); [discriminate|]. eauto.
Defined.

(** C3 (sell side, at concrete orders).  Unlike [buy], [sell] has no guard
    on the order: on the ledger holding ten shares, a request for zero
    shares raises [ZeroDivisionError], a request for minus five shares
    returns -5, enlarges the position to fifteen shares and debits the
    cash, and a request at price zero fills five shares for nothing. *)
Theorem C3_sell_accepts_invalid_orders :
  (exists s, sell "A" 100 0 "day2" ten_shares_held = Raised ZeroDivisionError s) /\
  (exists s pos,
     sell "A" 100 (-5) "day2" ten_shares_held = Returned (-5)%Z s /\
     positions s !! "A" = Some pos /\ pos_shares pos = 15%Z /\
     cash s == cash ten_shares_held - 500 /\
     (exists record, trades s = [record] /\ t_status record = st_closed)) /\
  (exists s pos,
     sell "A" 0 5 "day2" ten_shares_held = Returned 5%Z s /\
     positions s !! "A" = Some pos /\ pos_shares pos = 5%Z /\
     cash s == cash ten_shares_held /\
     (exists record, trades s = [record] /\ t_status record = st_closed)) /\
  (exists s,
     sell "A" (-100) 5 "day2" ten_shares_held = Returned 5%Z s /\
     cash s == cash ten_shares_held - 500).
Proof.
  split; [|split; [|split]].
  - eexists. vm_compute. reflexivity.
  - eexists _, _. split; [vm_compute; reflexivity|].
    split; [vm_compute; reflexivity|].
    split; [reflexivity|]. split; [reflexivity|].
    eexists. split; reflexivity.
  - eexists _, _. split; [vm_compute; reflexivity|].
    split; [vm_compute; reflexivity|].
    split; [reflexivity|]. split; [reflexivity|].
    eexists. split; reflexivity.
  - eexists. split; [vm_compute; reflexivity|]. reflexivity.
Qed.

(** ** The trade list *)

(** The test of the record loop of [sell]. *)
Definition open_for (ticker : string) (t : TradeRecord) : bool :=
  String.eqb (t_ticker t) ticker && Status_eqb (t_status t) st_open.

Lemma open_for_spec (ticker : string) (t : TradeRecord) :
  open_for ticker t = true <-> t_ticker t = ticker /\ t_status t = st_open.
Proof.
  unfold open_for. rewrite andb_true_iff, String.eqb_eq.
  destruct (t_status t); simpl; intuition congruence.
Qed.

Lemma close_first_open_at (ticker : string) (upd : TradeRecord -> TradeRecord)
    (before : list TradeRecord) (t : TradeRecord) (after : list TradeRecord) :
  Forall (fun u => open_for ticker u = false) before ->
  open_for ticker t = true ->
  close_first_open ticker upd (before ++ t :: after) = before ++ upd t :: after.
Proof.
  intros Hb Ht. induction Hb as [|u before Hu _ IH]; simpl.
  - fold (open_for ticker t). by rewrite Ht.
  - fold (open_for ticker u). by rewrite Hu, IH.
Qed.

Lemma close_first_open_none (ticker : string) (upd : TradeRecord -> TradeRecord)
    (l : list TradeRecord) :
  Forall (fun u => open_for ticker u = false) l ->
  close_first_open ticker upd l = l.
Proof.
  induction 1 as [|u l Hu _ IH]; simpl; [done|].
  fold (open_for ticker u). by rewrite Hu, IH.
Qed.

(** The record completed is the last open one of the ticker; every other
    record keeps its place and content. *)
Lemma close_last_open_at (ticker : string) (upd : TradeRecord -> TradeRecord)
    (before : list TradeRecord) (t : TradeRecord) (after : list TradeRecord) :
  open_for ticker t = true ->
  Forall (fun u => open_for ticker u = false) after ->
  close_last_open ticker upd (before ++ t :: after) = before ++ upd t :: after.
Proof.
  intros Ht Ha. unfold close_last_open.
  rewrite reverse_app, reverse_cons, <- (assoc_L (++)). simpl.
  rewrite close_first_open_at; [|by apply Forall_reverse|done].
  rewrite reverse_app, reverse_cons, !reverse_involutive, <- (assoc_L (++)).
  done.
Qed.

Lemma close_last_open_none (ticker : string) (upd : TradeRecord -> TradeRecord)
    (l : list TradeRecord) :
  Forall (fun u => open_for ticker u = false) l ->
  close_last_open ticker upd l = l.
Proof.
  intros H. unfold close_last_open.
  rewrite close_first_open_none by (by apply Forall_reverse).
  apply reverse_involutive.
Qed.

(** How one record may differ between two states of the ledger: not at all,
    or by having gone from open to closed with its entry data intact. *)
Definition record_evolves (r r' : TradeRecord) : Prop :=
  r' = r \/
  (t_status r = st_open /\ t_status r' = st_closed /\
   t_ticker r' = t_ticker r /\ t_name r' = t_name r /\
   t_entry_date r' = t_entry_date r /\ t_entry_price r' = t_entry_price r /\
   t_exec_price r' = t_exec_price r /\ t_shares r' = t_shares r /\
   t_entry_cost r' = t_entry_cost r).

(** The trade list only grows at its end, and its records only evolve. *)
Definition ledger_extends (l l' : list TradeRecord) : Prop :=
  exists evolved added, l' = evolved ++ added /\ Forall2 record_evolves l evolved.

Lemma record_evolves_refl (r : TradeRecord) : record_evolves r r.
Proof. by left. Qed.

Lemma record_evolves_trans (r1 r2 r3 : TradeRecord) :
  record_evolves r1 r2 -> record_evolves r2 r3 -> record_evolves r1 r3.
Proof.
  intros [->|H12] [->|H23]; [by left|by right|by right|].
  destruct H12 as (_ & Hc & _), H23 as (Ho & _). congruence.
Qed.

Lemma ledger_extends_refl (l : list TradeRecord) : ledger_extends l l.
Proof.
  exists l, []. split; [by rewrite app_nil_r|].
  apply Forall2_same_length_lookup_2; [done|].
  intros i x y Hx Hy. rewrite Hx in Hy. injection Hy as ->. apply record_evolves_refl.
Qed.

Lemma ledger_extends_trans (l1 l2 l3 : list TradeRecord) :
  ledger_extends l1 l2 -> ledger_extends l2 l3 -> ledger_extends l1 l3.
Proof.
  intros (e1 & a1 & -> & H1) (e2 & a2 & -> & H2).
  apply Forall2_app_inv_l in H2 as (e21 & e22 & H21 & H22 & ->).
  exists e21, (e22 ++ a2). split; [by rewrite (assoc_L (++))|].
  eapply Forall2_trans; [|exact H1|exact H21].
  apply record_evolves_trans.
Qed.

Lemma close_first_open_evolves (ticker date : string)
    (price exec_price exit_cost pnl pnl_pct : Q) (l : list TradeRecord) :
  Forall2 record_evolves l
    (close_first_open ticker
       (fun t => close_record t date price exec_price exit_cost pnl pnl_pct) l).
Proof.
  induction l as [|t l IH]; simpl; [constructor|].
  fold (open_for ticker t). destruct (open_for ticker t) eqn:Ht.
  - constructor.
    + right. apply open_for_spec in Ht as [_ Ht]. by repeat split.
    + apply Forall2_same_length_lookup_2; [done|].
      intros i x y Hx Hy. rewrite Hx in Hy. injection Hy as ->.
      apply record_evolves_refl.
  - constructor; [apply record_evolves_refl|exact IH].
Qed.

Lemma close_last_open_evolves (ticker date : string)
    (price exec_price exit_cost pnl pnl_pct : Q) (l : list TradeRecord) :
  Forall2 record_evolves l
    (close_last_open ticker
       (fun t => close_record t date price exec_price exit_cost pnl pnl_pct) l).
Proof.
  unfold close_last_open.
  rewrite <- (reverse_involutive l) at 1.
  apply Forall2_reverse, close_first_open_evolves.
Qed.

(** Orders, and a ledger driven by a sequence of them. *)
Inductive order :=
| Buy (ticker : string) (price : Q) (shares : Z) (date name : string)
| Sell (ticker : string) (price : Q) (shares : Z) (date : string).

Definition place (o : order) : M Portfolio Z :=
  match o with
  | Buy ticker price shares date name => buy ticker price shares date name
  | Sell ticker price shares date => sell ticker price shares date
  end.

Definition place_all (orders : list order) : M Portfolio unit :=
  for_each orders (fun o => run place o; ret tt).

Lemma buy_trades_extend (ticker : string) (price : Q) (shares : Z)
    (date name : string) (self : Portfolio) :
  ledger_extends (trades self)
    (trades (final_state (buy ticker price shares date name self))).
Proof.
  assert (forall e n, ledger_extends (trades self)
            (trades (final_state (buy_fill ticker price e n date name self)))) as Hfill.
  { intros e n. simpl. eexists (trades self), _. split; [reflexivity|].
    destruct (ledger_extends_refl (trades self)) as (ev & ad & E & H).
    apply Forall2_same_length_lookup_2; [done|].
    intros i x y Hx Hy. rewrite Hx in Hy. injection Hy as ->.
    apply record_evolves_refl. }
  unfold buy.
  repeat match goal with
         | |- context [if ?b then _ else _] => destruct b
         end; simpl; try apply ledger_extends_refl; apply Hfill.
Qed.

Lemma sell_trades_extend (ticker : string) (price : Q) (shares : Z)
    (date : string) (self : Portfolio) :
  ledger_extends (trades self)
    (trades (final_state (sell ticker price shares date self))).
Proof.
  unfold sell. destruct (positions self !! ticker) as [pos|];
    [|apply ledger_extends_refl].
  repeat match goal with
         | |- context [if ?b then _ else _] => destruct b
         end; simpl; try apply ledger_extends_refl;
    (eexists _, []; split; [by rewrite app_nil_r|apply close_last_open_evolves]).
Qed.

Lemma place_all_trades_extend (orders : list order) (self : Portfolio) :
  ledger_extends (trades self) (trades (final_state (place_all orders self))).
Proof.
  revert self. induction orders as [|o orders IH]; intros self.
  - apply ledger_extends_refl.
  - unfold place_all; simpl. unfold bind at 1. unfold bind at 1.
    assert (ledger_extends (trades self) (trades (final_state (place o self)))) as H1
      by (destruct o; [apply buy_trades_extend|apply sell_trades_extend]).
    destruct (place o self) as [n s|e s]; simpl in *.
    + eapply ledger_extends_trans; [exact H1|]. apply IH.
    + exact H1.
Qed.

(** What [sell] does when it returns a non-zero fill. *)
Lemma sell_returned_inv (ticker : string) (price : Q) (shares : Z) (date : string)
    (self self' : Portfolio) (filled : Z) :
  sell ticker price shares date self = Returned filled self' ->
  filled <> 0%Z ->
  exists pos exit_cost pnl_pct,
    positions self !! ticker = Some pos /\
    filled = Z.min shares (pos_shares pos) /\
    trades self' =
      close_last_open ticker
        (fun t => close_record t date price
                    (price * (1 - slippage_pct (cost self) / 100)) exit_cost
                    (sell_net_proceeds (cost self) price filled
                     - pos_avg_price pos * inject_Z filled) pnl_pct)
        (trades self).
Proof.
  unfold sell. intros H Hn.
  destruct (positions self !! ticker) as [pos|]; [|injection H as <- _; lia].
  exists pos.
  destruct (Qltb 0 (pos_avg_price pos));
    [destruct (Qeq_bool _ 0); [discriminate|]|];
    unfold sell_finish in H; injection H as <- <-;
    eexists _, _; (split; [reflexivity|]); (split; [reflexivity|]);
    reflexivity.
Qed.

(** Every trade list has a last-created record that is open for the ticker,
    or none at all. *)
Lemma last_open_or_none (ticker : string) (l : list TradeRecord) :
  (exists before t after,
     l = before ++ t :: after /\ open_for ticker t = true /\
     Forall (fun u => open_for ticker u = false) after) \/
  Forall (fun u => open_for ticker u = false) l.
Proof.
  induction l as [|r l IH]; [right; constructor|].
  destruct IH as [(before & t & after & -> & Ht & Ha)|Hnone].
  - left. by exists (r :: before), t, after.
  - destruct (open_for ticker r) eqn:Hr.
    + left. by exists [], r, l.
    + right. by constructor.
Qed.

(** C5 (as the code has it).  A sell that fills a positive amount completes
    the last-created still-open record of its ticker, whatever older open
    records of the ticker there are, and leaves every other record as it
    was; when the ticker has no open record left, the sell fills all the
    same and changes no record.  One of the two is always the case.  Under
    any sequence of buys and sells the trade list only grows at its end,
    each earlier record is either unchanged or has gone from open to closed
    with its entry data intact, and a closed record is never modified
    again. *)
Theorem C5_lifo_match_and_append_only :
  (forall (ticker : string) (price : Q) (shares : Z) (date : string)
          (self self' : Portfolio) (filled : Z),
     sell ticker price shares date self = Returned filled self' ->
     (0 < filled)%Z ->
     (forall (before : list TradeRecord) (t : TradeRecord)
             (after : list TradeRecord),
        trades self = before ++ t :: after ->
        t_ticker t = ticker -> t_status t = st_open ->
        Forall (fun u => ~ (t_ticker u = ticker /\ t_status u = st_open)) after ->
        exists t',
          trades self' = before ++ t' :: after /\
          t_status t' = st_closed /\ t_exit_date t' = Some date /\
          t_exit_price t' = Some price /\
          t_ticker t' = ticker /\ t_entry_date t' = t_entry_date t /\
          t_shares t' = t_shares t) /\
     (Forall (fun u => ~ (t_ticker u = ticker /\ t_status u = st_open))
             (trades self) ->
      trades self' = trades self) /\
     ((exists before t after,
         trades self = before ++ t :: after /\
         t_ticker t = ticker /\ t_status t = st_open /\
         Forall (fun u => ~ (t_ticker u = ticker /\ t_status u = st_open)) after) \/
      Forall (fun u => ~ (t_ticker u = ticker /\ t_status u = st_open))
             (trades self))) /\
  (forall (orders : list order) (self : Portfolio),
     let final := final_state (place_all orders self) in
     (exists evolved added,
        trades final = evolved ++ added /\
        Forall2 record_evolves (trades self) evolved) /\
     (forall (i : nat) (r : TradeRecord),
        trades self !! i = Some r -> t_status r = st_closed ->
        trades final !! i = Some r)).
Proof.
  assert (forall ticker (l : list TradeRecord),
            Forall (fun u => open_for ticker u = false) l <->
            Forall (fun u => ~ (t_ticker u = ticker /\ t_status u = st_open)) l)
    as Hnot.
  { intros ticker l. apply Forall_iff. intros u.
    by rewrite <- not_true_iff_false, open_for_spec. }
  split.
  - intros ticker price shares date self self' filled Hsell Hpos.
    destruct (sell_returned_inv _ _ _ _ _ _ _ Hsell) as
      (pos & exit_cost & pnl_pct & _ & _ & ->); [lia|].
    split; [|split].
    + intros before t after Htr Htick Hopen Hafter.
      rewrite Htr, close_last_open_at.
      * eexists. split; [reflexivity|]. by repeat split.
      * by apply open_for_spec.
      * by apply Hnot.
    + intros Hnone. apply close_last_open_none. by apply Hnot.
    + destruct (last_open_or_none ticker (trades self))
        as [(before & t & after & Htr & Ht & Ha)|Hnone].
      * left. exists before, t, after. apply open_for_spec in Ht as [Ht1 Ht2].
        split; [exact Htr|]. split; [exact Ht1|]. split; [exact Ht2|].
        by apply Hnot.
      * right. by apply Hnot.
  - intros orders self final.
    pose proof (place_all_trades_extend orders self) as Hext. fold final in Hext.
    split; [exact Hext|].
    intros i r Hi Hclosed.
    destruct Hext as (evolved & added & -> & Hev).
    destruct (Forall2_lookup_l _ _ _ _ _ Hev Hi) as (r' & Hi' & Hr).
    rewrite lookup_app_l by (by eapply lookup_lt_Some).
    destruct Hr as [->|(Ho & _)]; [done|congruence].
Qed.

(** Two lots of one ticker: 10 shares bought on day 1, 5 more on day 2. *)
Definition two_lots_held : Portfolio :=
  final_state (buy "A" 105 5 "day2" "" ten_shares_held).

Lemma two_lots_held_trades :
  exists first second,
    trades two_lots_held = [first] ++ second :: [] /\
    t_status first = st_open /\ t_shares first = 10%Z /\
    t_ticker second = "A" /\ t_status second = st_open /\
    t_shares second = 5%Z.
Proof. vm_compute. eexists _, _. repeat split. Defined.

(** With an older and a newer open lot, a sell of 3 shares completes the
    newer one (5 shares, entered on day 2) and leaves the older one open: a
    first-in-first-out match would have completed the older one. *)
Lemma C5_lifo_match_witness :
  exists self' first second',
    sell "A" 110 3 "day3" two_lots_held = Returned 3%Z self' /\
    trades self' = [first; second'] /\
    t_status first = st_open /\ t_shares first = 10%Z /\
    t_status second' = st_closed /\ t_exit_date second' = Some "day3" /\
    t_entry_date second' = "day2" /\ t_shares second' = 5%Z.
Proof.
  assert (exists self', sell "A" 110 3 "day3" two_lots_held = Returned 3%Z self')
    as (self' & Hsell) by (eexists; vm_compute; reflexivity).
  destruct two_lots_held_trades
    as (first & second & Htr & Ho1 & Hs1 & Htick & Hopen & Hs2).
  assert (t_entry_date second = "day2") as Hd.
  { vm_compute in Htr. by injection Htr as _ <-. }
  destruct (proj1 (proj1 C5_lifo_match_and_append_only "A" 110 3%Z "day3"
                     two_lots_held self' 3%Z Hsell eq_refl)
              [first] second [] Htr Htick Hopen (Forall_nil_2 _))
    as (t' & H1 & H2 & H3 & _ & _ & H6 & H7).
  exists self', first, t'.
  split; [exact Hsell|]. split; [exact H1|]. split; [exact Ho1|].
  split; [exact Hs1|]. split; [exact H2|]. split; [exact H3|].
  split; congruence.
Defined.

(** The claim without its proviso fails: after a partial sell has closed
    the only record of a 10-share position, the sell of the remaining 6
    shares fills 6 and completes no record; the trade list is the same
    before and after it. *)
Theorem C5_sell_without_open_record_counterexample :
  exists self1 self2 record,
    sell "A" 110 4 "day2" ten_shares_held = Returned 4%Z self1 /\
    trades self1 = [record] /\ t_status record = st_closed /\
    t_exit_date record = Some "day2" /\
    (exists pos, positions self1 !! "A" = Some pos /\ pos_shares pos = 6%Z) /\
    sell "A" 120 6 "day3" self1 = Returned 6%Z self2 /\
    trades self2 = [record] /\
    positions self2 !! "A" = None.
Proof.
  eexists _, _, _. split; [vm_compute; reflexivity|].
  split; [reflexivity|]. split; [reflexivity|]. split; [reflexivity|].
  split; [eexists; split; vm_compute; reflexivity|].
  split; [vm_compute; reflexivity|].
  split; reflexivity.
Qed.

(** ** Partial sells *)






(** ** Liquidation *)

(** Every open position holds a positive number of shares. *)
Definition positions_wf (self : Portfolio) : Prop :=
  forall ticker pos, positions self !! ticker = Some pos -> (0 < pos_shares pos)%Z.

Lemma sell_whole_position (ticker : string) (price : Q) (date : string)
    (self : Portfolio) (pos : Position) :
  positions self !! ticker = Some pos -> (0 < pos_shares pos)%Z ->
  exists self',
    sell ticker price (pos_shares pos) date self = Returned (pos_shares pos) self' /\
    positions self' = delete ticker (positions self).
Proof.
  intros Hpos Hsh.
  destruct (sell_returns ticker price (pos_shares pos) date self pos Hpos)
    as (exit_cost & pnl_pct & credited & Hsell & Hp & _); [left; lia|].
  rewrite Z.min_id in Hsell.
  eexists. split; [exact Hsell|]. simpl.
  rewrite Z.sub_diag, Hp. reflexivity.
Qed.

Lemma sell_all_loop (prices : gmap string Q) (date : string) (l : list string) :
  forall self : Portfolio,
    NoDup l ->
    (forall k, k ∈ l -> is_Some (positions self !! k)) ->
    positions_wf self ->
    exists self',
      for_each l (sell_all_body prices date) self = Returned tt self' /\
      (forall t, t ∈ l -> is_Some (prices !! t) -> positions self' !! t = None) /\
      (forall t, t ∉ l \/ prices !! t = None ->
                 positions self' !! t = positions self !! t).
Proof.
  induction l as [|k l IH]; intros self Hnd Hin Hwf.
  - exists self. split; [reflexivity|]. split; [|done].
    intros t Ht. by apply elem_of_nil in Ht.
  - apply NoDup_cons in Hnd as [Hk Hnd].
    destruct (Hin k) as [pos Hpos]; [by left|].
    assert (exists self1,
      sell_all_body prices date k self = Returned tt self1 /\
      positions self1 =
        match prices !! k with
        | Some _ => delete k (positions self)
        | None => positions self
        end)
      as (self1 & Hbody & Hp1).
    { unfold sell_all_body. destruct (prices !! k) as [price|]; [|by exists self].
      unfold bind, get. rewrite Hpos.
      destruct (sell_whole_position k price date self pos Hpos (Hwf _ _ Hpos))
        as (self1 & -> & Hp1).
      by exists self1. }
    destruct (IH self1 Hnd) as (self' & Hloop & Hsold & Hkept).
    + intros k' Hk'. rewrite Hp1.
      destruct (prices !! k); [|by apply Hin; right].
      rewrite lookup_delete_ne by (intros ->; done). apply Hin. by right.
    + intros t p. rewrite Hp1. destruct (prices !! k); [|apply Hwf].
      intros Hl. apply lookup_delete_Some in Hl as [_ Hl]. by eapply Hwf.
    + exists self'. split; [|split].
      * simpl. unfold bind at 1. by rewrite Hbody.
      * intros t Ht Hpr. apply elem_of_cons in Ht as [->|Ht]; [|by apply Hsold].
        rewrite Hkept by (by left). rewrite Hp1.
        destruct Hpr as [price ->]. apply lookup_delete_eq.
      * intros t Ht. assert (t ∉ l \/ prices !! t = None) as Ht'.
        { destruct Ht as [Ht|Ht]; [left|by right].
          intros ?. apply Ht. by right. }
        rewrite (Hkept t Ht'), Hp1.
        destruct (prices !! k) eqn:Hpk; [|done].
        apply lookup_delete_ne. intros ->.
        destruct Ht as [Ht|Ht]; [apply Ht; by left|congruence].
Qed.

(** C7 (as the code has it).  [sell_all] liquidates every open position
    whose ticker has an entry in the price map it is given; an open
    position whose ticker the price map lacks is skipped and stays open. *)
Theorem C7_sell_all_liquidates_priced_positions (prices : gmap string Q)
    (date : string) (self : Portfolio) :
  positions_wf self ->
  exists self',
    sell_all prices date self = Returned tt self' /\
    (forall ticker, is_Some (prices !! ticker) ->
                    positions self' !! ticker = None) /\
    (forall ticker, prices !! ticker = None ->
                    positions self' !! ticker = positions self !! ticker).
Proof.
  intros Hwf. unfold sell_all, bind, get.
  destruct (sell_all_loop prices date (map_to_list (positions self)).*1 self)
    as (self' & Hloop & Hsold & Hkept).
  - apply NoDup_fst_map_to_list.
  - intros k Hk. apply list_elem_of_fmap in Hk as ([k' pos] & -> & Hk).
    apply elem_of_map_to_list in Hk. by exists pos.
  - exact Hwf.
  - exists self'. split; [exact Hloop|]. split.
    + intros ticker Hpr.
      destruct (positions self !! ticker) as [pos|] eqn:Hpos.
      * apply Hsold; [|done]. apply list_elem_of_fmap. exists (ticker, pos).
        split; [done|]. by apply elem_of_map_to_list.
      * rewrite <- Hpos. apply Hkept. left. intros Hk.
        apply list_elem_of_fmap in Hk as ([k' pos] & -> & Hk).
        apply elem_of_map_to_list in Hk. simpl in Hpos. congruence.
    + intros ticker Hpr. apply Hkept. by right.
Qed.

(** With an empty price map nothing is sold: the ten shares stay open. *)
Lemma C7_sell_all_skips_unpriced_counterexample :
  exists pos,
    positions ten_shares_held !! "A" = Some pos /\
    sell_all ∅ "day2" ten_shares_held = Returned tt ten_shares_held /\
    positions (final_state (sell_all ∅ "day2" ten_shares_held)) !! "A" = Some pos.
Proof.
  eexists. split; [vm_compute; reflexivity|].
  split; vm_compute; reflexivity.
Qed.

Lemma positions_wf_init (capital : Q) (cfg : CostConfig) :
  positions_wf (Portfolio_init capital cfg).
Proof. intros ticker pos. simpl. by rewrite lookup_empty. Qed.

Lemma buy_fill_preserves_wf (ticker : string) (price e : Q) (n : Z)
    (date name : string) (self : Portfolio) :
  (0 < n)%Z -> positions_wf self ->
  positions_wf (final_state (buy_fill ticker price e n date name self)).
Proof.
  intros Hn Hwf t p. simpl.
  destruct (positions self !! ticker) as [pos|] eqn:Hpos;
    rewrite lookup_insert; case_decide; try apply Hwf;
    intros [= <-]; simpl; [|done].
  specialize (Hwf _ _ Hpos). lia.
Qed.

Lemma buy_preserves_wf (ticker : string) (price : Q) (shares : Z)
    (date name : string) (self : Portfolio) :
  positions_wf self ->
  positions_wf (final_state (buy ticker price shares date name self)).
Proof.
  intros Hwf. unfold buy.
  destruct (Z.leb_spec shares 0); simpl; [done|].
  destruct (Qle_bool price 0); [done|].
  destruct (Qltb _ _).
  - destruct (Qeq_bool _ 0); [done|].
    destruct (Z.leb_spec (py_int (cash self /
      (price * (1 + slippage_pct (cost self) / 100)
       * (1 + commission_pct (cost self) / 100)))) 0); [done|].
    by apply buy_fill_preserves_wf.
  - by apply buy_fill_preserves_wf.
Qed.

Lemma sell_preserves_wf (ticker : string) (price : Q) (shares : Z)
    (date : string) (self : Portfolio) :
  positions_wf self ->
  positions_wf (final_state (sell ticker price shares date self)).
Proof.
  intros Hwf. unfold sell.
  destruct (positions self !! ticker) as [pos|] eqn:Hpos; [|done].
  assert (forall credited ec pnl pct,
            positions credited = positions self ->
            positions_wf (final_state
              (sell_finish ticker date price
                 (price * (1 - slippage_pct (cost self) / 100)) ec pnl pct pos
                 (Z.min shares (pos_shares pos)) credited))) as Hfin.
  { intros credited ec pnl pct Hp t p. simpl. rewrite Hp.
    destruct (Z.leb_spec (pos_shares pos - Z.min shares (pos_shares pos)) 0).
    - intros Hl. apply lookup_delete_Some in Hl as [_ Hl]. by eapply Hwf.
    - rewrite lookup_insert. case_decide; [|apply Hwf].
      intros [= <-]. simpl. lia. }
  destruct (Qltb 0 (pos_avg_price pos)).
  - destruct (Qeq_bool _ 0); [exact Hwf|]. by apply Hfin.
  - by apply Hfin.
Qed.

Lemma ten_shares_held_wf : positions_wf ten_shares_held.
Proof. apply buy_preserves_wf, positions_wf_init. Defined.

Lemma C7_sell_all_witness :
  exists self',
    sell_all {["A" := 120]} "day2" ten_shares_held = Returned tt self' /\
    positions self' !! "A" = None.
Proof.
  destruct (C7_sell_all_liquidates_priced_positions {["A" := 120]} "day2"
              ten_shares_held ten_shares_held_wf) as (self' & Hs & Hsold & _).
  exists self'. split; [exact Hs|]. apply Hsold.
  rewrite lookup_singleton_eq. by eexists.
Defined.

(** ** Cost counters *)

Definition cost_nonneg (cfg : CostConfig) : Prop :=
  0 <= slippage_pct cfg /\ 0 <= commission_pct cfg /\ 0 <= tax_pct cfg.

(** Every order of the run has a positive price and share count. *)
Definition order_positive (o : order) : Prop :=
  match o with
  | Buy _ price shares _ _ => 0 < price /\ (0 < shares)%Z
  | Sell _ price shares _ => 0 < price /\ (0 < shares)%Z
  end.

Definition counters_nonneg (self : Portfolio) : Prop :=
  0 <= total_slippage_cost self /\ 0 <= total_commission_cost self /\
  0 <= total_tax_cost self.

(** What the run keeps true of the ledger. *)
Definition ledger_inv (cfg : CostConfig) (self : Portfolio) : Prop :=
  cost self = cfg /\ counters_nonneg self /\ positions_wf self.

Lemma Qmult3_nonneg (a b c : Q) : 0 <= a -> 0 <= b -> 0 <= c -> 0 <= a * b * c.
Proof. intros. repeat apply Qmult_le_0_compat; assumption. Qed.

Lemma inject_Z_pos (n : Z) : (0 < n)%Z -> 0 <= inject_Z n.
Proof. intros H. change 0 with (inject_Z 0). rewrite <- Zle_Qle. lia. Qed.

Lemma buy_fill_inv (cfg : CostConfig) (ticker : string) (price : Q) (n : Z)
    (date name : string) (self : Portfolio) :
  cost_nonneg cfg -> 0 < price -> (0 < n)%Z -> ledger_inv cfg self ->
  ledger_inv cfg (final_state
    (buy_fill ticker price (price * (1 + slippage_pct (cost self) / 100)) n
       date name self)).
Proof.
  intros (Hs & Hc & Ht) Hp Hn (Hcfg & (H1 & H2 & H3) & Hwf).
  split; [exact Hcfg|]. split; [|by apply buy_fill_preserves_wf].
  pose proof (inject_Z_pos n Hn) as Hn'.
  unfold counters_nonneg; simpl. rewrite Hcfg.
  split; [|split; [|exact H3]].
  - assert (0 <= price * (slippage_pct cfg * (1 # 100)) * inject_Z n) as H
      by (apply Qmult3_nonneg; [lra| |done]; apply Qmult_le_0_compat; lra).
    pct. lra.
  - assert (0 <= price * (1 + slippage_pct cfg * (1 # 100)) * inject_Z n
                 * (commission_pct cfg * (1 # 100))) as H.
    { apply Qmult_le_0_compat; [apply Qmult3_nonneg; [lra|lra|done]|].
      apply Qmult_le_0_compat; lra. }
    pct. lra.
Qed.

Lemma buy_inv (cfg : CostConfig) (ticker : string) (price : Q) (shares : Z)
    (date name : string) (self : Portfolio) :
  cost_nonneg cfg -> ledger_inv cfg self ->
  ledger_inv cfg (final_state (buy ticker price shares date name self)).
Proof.
  intros Hcfg Hinv. unfold buy.
  destruct (Z.leb_spec shares 0); simpl; [done|].
  destruct (Qle_bool price 0) eqn:Hp; [done|].
  assert (0 < price) as Hp'.
  { apply Qnot_le_lt. intros Hle. apply Qle_bool_iff in Hle. congruence. }
  destruct (Qltb _ _).
  - destruct (Qeq_bool _ 0); [done|].
    destruct (Z.leb_spec (py_int (cash self /
      (price * (1 + slippage_pct (cost self) / 100)
       * (1 + commission_pct (cost self) / 100)))) 0); [done|].
    by apply buy_fill_inv.
  - by apply buy_fill_inv.
Qed.

Lemma sell_inv (cfg : CostConfig) (ticker : string) (price : Q) (shares : Z)
    (date : string) (self : Portfolio) :
  cost_nonneg cfg -> slippage_pct cfg <= 100 ->
  0 < price -> (0 < shares)%Z -> ledger_inv cfg self ->
  ledger_inv cfg (final_state (sell ticker price shares date self)).
Proof.
  intros (Hs & Hc & Ht) Hs100 Hp Hn (Hcfg & (H1 & H2 & H3) & Hwf).
  split; [|split; [|by apply sell_preserves_wf]].
  - unfold sell. destruct (positions self !! ticker); [|done].
    destruct (Qltb 0 _); [destruct (Qeq_bool _ 0)|]; done.
  - unfold sell. destruct (positions self !! ticker) as [pos|] eqn:Hpos;
      [|done].
    pose proof (Hwf _ _ Hpos) as Hsh.
    assert (0 <= inject_Z (Z.min shares (pos_shares pos))) as Ha
      by (apply inject_Z_pos; lia).
    set (a := inject_Z (Z.min shares (pos_shares pos))) in *.
    assert (counters_nonneg
      {| initial_capital := initial_capital self;
         cash := cash self
           + (price * (1 - slippage_pct (cost self) / 100) * a
              - price * (1 - slippage_pct (cost self) / 100) * a
                * (commission_pct (cost self) / 100)
              - price * (1 - slippage_pct (cost self) / 100) * a
                * (tax_pct (cost self) / 100));
         positions := positions self;
         equity_history := equity_history self;
         trades := trades self;
         cost := cost self;
         total_slippage_cost := total_slippage_cost self
           + (price - price * (1 - slippage_pct (cost self) / 100)) * a;
         total_commission_cost := total_commission_cost self
           + price * (1 - slippage_pct (cost self) / 100) * a
             * (commission_pct (cost self) / 100);
         total_tax_cost := total_tax_cost self
           + price * (1 - slippage_pct (cost self) / 100) * a
             * (tax_pct (cost self) / 100) |}) as Hcred.
    { unfold counters_nonneg; simpl. rewrite Hcfg.
      assert (0 <= price * (slippage_pct cfg * (1 # 100)) * a) as Hsl
        by (apply Qmult3_nonneg; [lra| |done]; apply Qmult_le_0_compat; lra).
      assert (0 <= price * (1 - slippage_pct cfg * (1 # 100)) * a) as Hg
        by (apply Qmult3_nonneg; [lra|lra|done]).
      assert (0 <= price * (1 - slippage_pct cfg * (1 # 100)) * a
                   * (commission_pct cfg * (1 # 100))) as Hco
        by (apply Qmult_le_0_compat; [done|]; apply Qmult_le_0_compat; lra).
      assert (0 <= price * (1 - slippage_pct cfg * (1 # 100)) * a
                   * (tax_pct cfg * (1 # 100))) as Hta
        by (apply Qmult_le_0_compat; [done|]; apply Qmult_le_0_compat; lra).
      pct. repeat split; lra. }
    destruct (Qltb 0 _); [destruct (Qeq_bool _ 0)|]; exact Hcred.
Qed.

Lemma place_all_inv (cfg : CostConfig) (orders : list order) :
  cost_nonneg cfg -> slippage_pct cfg <= 100 ->
  Forall order_positive orders ->
  forall self, ledger_inv cfg self ->
               ledger_inv cfg (final_state (place_all orders self)).
Proof.
  intros Hcfg Hs100 Hall. induction Hall as [|o orders Ho _ IH]; intros self Hinv.
  - exact Hinv.
  - unfold place_all; simpl. unfold bind at 1. unfold bind at 1.
    assert (ledger_inv cfg (final_state (place o self))) as H1.
    { destruct o as [t p n d nm|t p n d]; simpl in *.
      - by apply buy_inv.
      - destruct Ho. by apply sell_inv. }
    destruct (place o self) as [n s|e s]; simpl in *; [by apply IH|exact H1].
Qed.

(** The three rounded fields and the rounded total are within two units of
    each other. *)
Lemma rounded_sum_close (a b c : Q) :
  (Z.abs (py_round a + py_round b + py_round c - py_round (a + b + c)) <= 2)%Z.
Proof.
  pose proof (py_round_lower a). pose proof (py_round_upper a).
  pose proof (py_round_lower b). pose proof (py_round_upper b).
  pose proof (py_round_lower c). pose proof (py_round_upper c).
  pose proof (py_round_lower (a + b + c)).
  pose proof (py_round_upper (a + b + c)).
  set (d := (py_round a + py_round b + py_round c - py_round (a + b + c))%Z).
  assert (inject_Z d == inject_Z (py_round a) + inject_Z (py_round b)
                        + inject_Z (py_round c) - inject_Z (py_round (a + b + c)))
    as Hd.
  { unfold d. unfold Z.sub. rewrite !inject_Z_plus, inject_Z_opp. ring. }
  assert (inject_Z d < inject_Z 3) as Hu by (change (inject_Z 3) with 3; lra).
  assert (inject_Z (-3) < inject_Z d) as Hl
    by (change (inject_Z (-3)) with (-3); lra).
  rewrite <- Zlt_Qlt in Hu, Hl. lia.
Qed.

(** C9 (as the code has it).  With non-negative cost percentages, a
    slippage of at most 100% and only orders of positive price and share
    count, the slippage, commission and tax fields of the cost summary are
    each non-negative; the total field is the rounding of the sum of the
    three unrounded counters, and lies within 2 of the sum of the three
    rounded fields. *)
Theorem C9_cost_summary_nonneg_and_total (cfg : CostConfig) (capital : Q)
    (orders : list order) :
  cost_nonneg cfg -> slippage_pct cfg <= 100 ->
  Forall order_positive orders ->
  let final := final_state (place_all orders (Portfolio_init capital cfg)) in
  let summary := get_cost_summary final in
  (0 <= cs_slippage summary)%Z /\ (0 <= cs_commission summary)%Z /\
  (0 <= cs_tax summary)%Z /\ (0 <= cs_total summary)%Z /\
  cs_total summary
    = py_round (total_slippage_cost final + total_commission_cost final
                + total_tax_cost final) /\
  (Z.abs (cs_slippage summary + cs_commission summary + cs_tax summary
          - cs_total summary) <= 2)%Z.
Proof.
  intros Hcfg Hs100 Hall final summary.
  destruct (place_all_inv cfg orders Hcfg Hs100 Hall (Portfolio_init capital cfg))
    as (_ & (H1 & H2 & H3) & _).
  { split; [reflexivity|]. split; [|apply positions_wf_init].
    unfold counters_nonneg; simpl. repeat split; lra. }
  fold final in H1, H2, H3. unfold summary, get_cost_summary; simpl.
  repeat split; try (apply py_round_nonneg; lra).
  apply rounded_sum_close.
Qed.

(** One share bought at 100 with 0.4% slippage and 0.4% commission: the
    counters are 0.4, 0.4016 and 0, each rounded to 0, while their sum
    rounds to 1.  And with a slippage of 200%, which makes the selling
    price negative, the tax counter itself becomes negative. *)
Lemma C9_rounded_fields_counterexample :
  (let cfg := mkCostConfig (2 # 5) (2 # 5) 0 in
   let final := final_state (place_all [Buy "A" 100 1 "day1" ""]
                               (Portfolio_init 1000 cfg)) in
   let summary := get_cost_summary final in
   cost_nonneg cfg /\ Forall order_positive [Buy "A" 100 1 "day1" ""] /\
   (cs_slippage summary + cs_commission summary + cs_tax summary)%Z = 0%Z /\
   cs_total summary = 1%Z) /\
  (let cfg := mkCostConfig 200 0 10 in
   let orders := [Buy "A" 100 1 "day1" ""; Sell "A" 100 1 "day2"] in
   let final := final_state (place_all orders (Portfolio_init 1000 cfg)) in
   cost_nonneg cfg /\ Forall order_positive orders /\
   cs_tax (get_cost_summary final) = (-10)%Z).
Proof.
  split; simpl.
  - split; [unfold cost_nonneg; simpl; repeat split; lra|].
    split; [repeat constructor|].
    split; vm_compute; reflexivity.
  - split; [unfold cost_nonneg; simpl; repeat split; lra|].
    split; [repeat constructor|].
    vm_compute; reflexivity.
Qed.

Lemma C9_cost_summary_witness :
  let final := final_state
                 (place_all [Buy "A" 100 1 "day1" ""; Sell "A" 110 1 "day2"]
                    (Portfolio_init 1000 (mkCostConfig (3 # 10) (3 # 200) (1 # 5)))) in
  (0 <= cs_slippage (get_cost_summary final))%Z /\
  (0 <= cs_tax (get_cost_summary final))%Z.
Proof.
  destruct (C9_cost_summary_nonneg_and_total
              (mkCostConfig (3 # 10) (3 # 200) (1 # 5)) 1000
              [Buy "A" 100 1 "day1" ""; Sell "A" 110 1 "day2"])
    as (H1 & _ & H3 & _).
  - unfold cost_nonneg; simpl. repeat split; discriminate.
  - simpl. discriminate.
  - repeat constructor.
  - split; [exact H1|exact H3].
Defined.

(** ** Drawdown *)

Lemma pow10_pos (n : nat) : 0 < inject_Z (10 ^ Z.of_nat n).
Proof.
  change 0 with (inject_Z 0). rewrite <- Zlt_Qlt.
  apply Z.pow_pos_nonneg; lia.
Qed.

Lemma py_round_n_mono (x y : Q) (n : nat) :
  x <= y -> py_round_n x n <= py_round_n y n.
Proof.
  intros Hxy. unfold py_round_n.
  pose proof (pow10_pos n) as Hp.
  apply Qmult_le_compat_r; [|apply Qlt_le_weak, Qinv_lt_0_compat, Hp].
  rewrite <- Zle_Qle. apply py_round_mono.
  apply Qmult_le_compat_r; [exact Hxy|lra].
Qed.

Lemma py_round_n_proper (x y : Q) (n : nat) :
  x == y -> py_round_n x n == py_round_n y n.
Proof.
  intros E. apply Qle_antisym; apply py_round_n_mono; rewrite E; apply Qle_refl.
Qed.

Lemma py_round_n_zero (n : nat) : py_round_n 0 n == 0.
Proof.
  unfold py_round_n.
  assert (0 * inject_Z (10 ^ Z.of_nat n) == inject_Z 0) as E by ring.
  assert (py_round (0 * inject_Z (10 ^ Z.of_nat n)) = 0%Z) as ->.
  { apply Z.le_antisymm.
    - rewrite <- (py_round_inject_Z 0) at 2. apply py_round_mono. rewrite E. lra.
    - rewrite <- (py_round_inject_Z 0) at 1. apply py_round_mono. rewrite E. lra. }
  pose proof (pow10_pos n). field. lra.
Qed.

Section DrawdownProofs.

Variable fl : Q -> Q.
Variable float_pow : Q -> Q -> result (option Q).

(** What the drawdown bound needs of the rounding: it is monotone and
    leaves 0 and 1 as they are, as rounding to the nearest float does. *)
Hypothesis fl_mono : forall x y, x <= y -> fl x <= fl y.
Hypothesis fl_0 : fl 0 == 0.
Hypothesis fl_1 : fl 1 == 1.

Lemma fl_proper (x y : Q) : x == y -> fl x == fl y.
Proof. intros E. apply Qle_antisym; apply fl_mono; rewrite E; apply Qle_refl. Qed.

Lemma fl_nonpos (x : Q) : x <= 0 -> fl x <= 0.
Proof. intros H. rewrite <- fl_0. by apply fl_mono. Qed.

Lemma round2_mono (x y : Q) : x <= y -> round2 fl x <= round2 fl y.
Proof. intros H. apply fl_mono. by apply py_round_n_mono. Qed.

Lemma round2_zero : round2 fl 0 == 0.
Proof. unfold round2. rewrite <- fl_0 at 2. apply fl_proper, py_round_n_zero. Qed.

(** The drawdown of one day is never positive, whatever the state before,
    and it is 0 on a day that sets the peak. *)
Lemma drawdown_nonpos (eq pk : Q) : eq <= pk -> drawdown fl eq pk <= 0.
Proof.
  intros Hle. unfold drawdown. destruct (Qltb 0 pk) eqn:Hpk; [|lra].
  apply Qltb_lt in Hpk.
  assert (eq / pk <= 1) as H by (apply Qle_shift_div_r; lra).
  assert (fl (eq / pk) <= 1) as H1 by (rewrite <- fl_1; by apply fl_mono).
  assert (fl (fl (eq / pk) - 1) <= 0) as H2 by (apply fl_nonpos; lra).
  apply fl_nonpos. lra.
Qed.

Lemma drawdown_at_peak (eq pk : Q) : pk == eq -> drawdown fl eq pk == 0.
Proof.
  intros E. unfold drawdown. destruct (Qltb 0 pk) eqn:Hpk; [|reflexivity].
  apply Qltb_lt in Hpk.
  assert (eq / pk == 1) as H by (rewrite E; field; lra).
  assert (fl (eq / pk) == 1) as H1 by (rewrite <- fl_1; by apply fl_proper).
  assert (fl (fl (eq / pk) - 1) == 0) as H2.
  { rewrite <- fl_0. apply fl_proper. rewrite H1. ring. }
  rewrite <- fl_0. apply fl_proper. rewrite H2. ring.
Qed.

(** One iteration, given that the date of the day exists: the peak becomes
    the larger of the old peak and the day's equity, and the day's value of
    the curve is the rounded drawdown from that peak. *)
Lemma dd_step_spec (dates : list string) (i : nat) (eq : Q) (st : dd_state) :
  is_Some (dates !! i) ->
  let pk := if Qltb (peak st) eq then eq else peak st in
  let dd := drawdown fl eq pk in
  exists st',
    dd_step fl dates i eq st = Returned tt st' /\
    peak st' = pk /\
    dd <= 0 /\
    dd_curve st' = dd_curve st ++ [round2 fl dd] /\
    mdd st' <= dd /\ mdd st' <= mdd st /\
    (mdd st' = mdd st \/ mdd st' = dd) /\
    (peak st == eq -> dd == 0).
Proof.
  intros [d Hd] pk dd.
  assert (dd <= 0 /\ (peak st == eq -> dd == 0)) as [Hneg Hzero].
  { unfold dd, pk. destruct (Qltb (peak st) eq) eqn:Hgt.
    - split; [apply drawdown_nonpos; lra|]. intros _.
      by apply drawdown_at_peak.
    - apply Qltb_ge in Hgt. split; [by apply drawdown_nonpos|].
      apply drawdown_at_peak. }
  unfold dd_step, bind, get, put, getitem, ret. rewrite Hd.
  subst dd pk. destruct (Qltb (peak st) eq) eqn:Hgt; simpl;
    match goal with
    | |- context [Qltb ?d (mdd st)] => destruct (Qltb d (mdd st)) eqn:Hm
    end;
    (apply Qltb_lt in Hm || apply Qltb_ge in Hm);
    eexists; (split; [reflexivity|]); simpl;
    repeat split; auto; lra.
Qed.

(** The loop from day [i] on, [done] being the equities of the days before:
    the peak is the maximum of the equities met so far, the first one
    before the loop starts. *)
Lemma dd_loop_spec (dates : list string) (todo : list Q) :
  forall (done : list Q) (st : dd_state),
    (length done + length todo <= length dates)%nat ->
    Forall (fun e => e <= peak st) done ->
    (peak st ∈ done \/ head todo = Some (peak st)) ->
    exists st' dds,
      dd_loop fl dates (length done) todo st = Returned tt st' /\
      length dds = length todo /\
      Forall (fun d => d <= 0) dds /\
      dd_curve st' = dd_curve st ++ map (round2 fl) dds /\
      Forall (fun d => mdd st' <= d) dds /\
      mdd st' <= mdd st /\
      (mdd st' = mdd st \/ mdd st' ∈ dds) /\
      (forall k eq, todo !! k = Some eq ->
         exists pk,
           pk ∈ take (S (length done + k)) (done ++ todo) /\
           Forall (fun e => e <= pk) (take (S (length done + k)) (done ++ todo)) /\
           dds !! k = Some (drawdown fl eq pk)) /\
      (forall eq rest, todo = eq :: rest -> peak st == eq ->
                       exists d0 ds, dds = d0 :: ds /\ d0 == 0).
Proof.
  induction todo as [|eq rest IH]; intros done st Hlen Hmax Hin; simpl in *.
  - exists st, []. split; [reflexivity|]. split; [reflexivity|].
    split; [constructor|]. split; [by rewrite app_nil_r|].
    split; [constructor|]. split; [lra|]. split; [by left|].
    split; [intros k eq Hk; by rewrite lookup_nil in Hk|]. discriminate.
  - destruct (dd_step_spec dates (length done) eq st) as
      (st1 & Hstep & Hpk & Hneg & Hcurve & Hle & Hmono & Hatt & Hzero).
    { apply lookup_lt_is_Some. lia. }
    set (pk := if Qltb (peak st) eq then eq else peak st) in *.
    assert (peak st <= pk /\ eq <= pk /\ pk ∈ done ++ [eq]) as (Hp1 & Hp2 & Hp3).
    { unfold pk. destruct (Qltb (peak st) eq) eqn:Hgt.
      - apply Qltb_lt in Hgt. split; [lra|]. split; [lra|].
        apply elem_of_app. right. by left.
      - apply Qltb_ge in Hgt. split; [lra|]. split; [lra|].
        apply elem_of_app. destruct Hin as [Hin|[= ->]]; [by left|].
        right. by left. }
    assert (Forall (fun e => e <= pk) (done ++ [eq])) as Hmax1.
    { apply Forall_app. split; [|by repeat constructor].
      eapply Forall_impl; [exact Hmax|]. simpl. intros e He. lra. }
    destruct (IH (done ++ [eq]) st1) as
      (st' & dds & Hloop & Hlen' & Hnegs & Hcurve' & Hles & Hmono' & Hatt'
       & Htie & _).
    { rewrite length_app. simpl. lia. }
    { by rewrite Hpk. }
    { left. by rewrite Hpk. }
    rewrite length_app in Hloop. simpl in Hloop.
    replace (length done + 1)%nat with (S (length done)) in Hloop by lia.
    exists st', (drawdown fl eq pk :: dds). unfold bind at 1. rewrite Hstep.
    split; [exact Hloop|]. split; [simpl; lia|].
    split; [by constructor|].
    split; [rewrite Hcurve', Hcurve, <- (assoc_L (++)); reflexivity|].
    split; [constructor; [lra|exact Hles]|].
    split; [lra|]. split.
    { destruct Hatt' as [E|Hin']; [|right; apply elem_of_cons; by right].
      rewrite E. destruct Hatt as [E'|E']; [by left|].
      right. apply elem_of_cons. by left. }
    split.
    + intros [|k] e Hk; simpl in Hk.
      * injection Hk as <-. exists pk.
        replace (S (length done + 0)) with (length (done ++ [eq]))
          by (rewrite length_app; simpl; lia).
        rewrite (cons_middle eq done rest), (assoc_L (++)), take_app_length.
        split; [exact Hp3|]. split; [exact Hmax1|]. reflexivity.
      * destruct (Htie k e Hk) as (pk' & H1 & H2 & H3).
        exists pk'.
        rewrite length_app in H1, H2. simpl in H1, H2.
        rewrite <- (assoc_L (++)) in H1, H2. simpl in H1, H2.
        replace (S (length done + S k)) with (S (length done + 1 + k)) by lia.
        split; [exact H1|]. split; [exact H2|]. exact H3.
    + intros eq' rest' [= <- <-] Hpeak. eexists _, dds. split; [reflexivity|].
      by apply Hzero.
Qed.

Lemma zip_fst {A B} (l : list A) (k : list B) :
  length l = length k -> (zip l k).*1 = l.
Proof.
  revert k. induction l as [|a l IH]; intros [|b k] Hlen; simpl in *;
    try done. f_equal. apply IH. lia.
Qed.

Lemma zip_snd {A B} (l : list A) (k : list B) :
  length l = length k -> (zip l k).*2 = k.
Proof.
  revert k. induction l as [|a l IH]; intros [|b k] Hlen; simpl in *;
    try done. f_equal. apply IH. lia.
Qed.

(** C8. For a non-empty equity history whose first value is not zero,
    [_calc_metrics] raises what the power of the annualised return raises,
    or [TypeError] when that power is a complex number, and otherwise
    returns metrics that carry one drawdown value per day: the value of day
    [t] is the rounded drawdown [(equity(t) / peak - 1) * 100] from the
    running peak, the largest equity from the first day to day [t] (0 when
    that peak is not positive); every value of the curve is at most 0, and
    the reported MDD is the minimum of the curve: it is below or equal to
    every value and equal to one of them.  The arithmetic is that of any
    rounding that is monotone and exact on 0 and 1. *)
Theorem C8_drawdown_bound_and_mdd_is_minimum (equities : list Q)
    (dates : list string) (first : Q) (rest : list Q) :
  equities = first :: rest -> ~ first == 0 ->
  length dates = length equities ->
  match annual_power fl float_pow equities first with
  | Exception e => _calc_metrics fl float_pow equities dates = Exception e
  | Value None => _calc_metrics fl float_pow equities dates = Exception TypeError
  | Value (Some _) =>
      exists annual mdd_reported period curve,
        _calc_metrics fl float_pow equities dates
        = Value (DrawdownMetrics annual mdd_reported period curve) /\
        curve.*1 = dates /\
        (forall t eq, equities !! t = Some eq ->
           exists pk,
             pk ∈ take (S t) equities /\
             Forall (fun e => e <= pk) (take (S t) equities) /\
             curve.*2 !! t
             = Some (fl (py_round_n
                           (if Qltb 0 pk then fl (fl (fl (eq / pk) - 1) * 100)
                            else 0) 2))) /\
        Forall (fun dd => dd <= 0) curve.*2 /\
        Forall (fun dd => mdd_reported <= dd) curve.*2 /\
        (exists t dd, curve.*2 !! t = Some dd /\ mdd_reported == dd)
  end.
Proof.
  intros -> Hfirst Hlen. unfold _calc_metrics.
  replace (Qeq_bool first 0) with false
    by (symmetry; apply not_true_iff_false; by rewrite Qeq_bool_iff).
  destruct dates as [|date0 dates']; [discriminate|].
  set (init := {| peak := first; mdd := 0; dd_curve := [];
                  mdd_peak_d := date0; mdd_trough_d := date0;
                  tmp_peak_d := date0 |}).
  destruct (dd_loop_spec (date0 :: dates') (first :: rest) [] init) as
    (st' & dds & Hloop & Hlen' & Hnegs & Hcurve & Hles & Hmono & Hatt & Htie
     & Hhead);
    [simpl in *; lia|constructor|by right|].
  change (length (@nil Q)) with 0%nat in Hloop. rewrite Hloop.
  destruct (annual_power fl float_pow (first :: rest) first) as [[pw|]|e];
    [|reflexivity|reflexivity].
  destruct (Hhead first rest eq_refl) as (d0 & ds & -> & Hd0);
    [reflexivity|].
  change (dd_curve init ++ map (round2 fl) (d0 :: ds))
    with (map (round2 fl) (d0 :: ds)) in Hcurve.
  simpl in Hmono.
  eexists _, _, _, _. split; [reflexivity|].
  assert (length (date0 :: dates') = length (dd_curve st')) as Hl
    by (rewrite Hcurve, length_map; simpl in *; lia).
  rewrite zip_fst, zip_snd by exact Hl.
  split; [done|]. rewrite Hcurve.
  change (map (round2 fl) (d0 :: ds)) with (round2 fl <$> (d0 :: ds)).
  split; [|split; [|split]].
  - intros t eq Ht. destruct (Htie t eq Ht) as (pk & H1 & H2 & H3).
    exists pk. simpl in H1, H2. split; [exact H1|]. split; [exact H2|].
    rewrite list_lookup_fmap, H3. reflexivity.
  - apply Forall_forall. intros v Hv. apply list_elem_of_fmap in Hv as (d & -> & Hd).
    rewrite <- round2_zero. apply round2_mono.
    eapply Forall_forall in Hnegs; [exact Hnegs|exact Hd].
  - apply Forall_forall. intros v Hv. apply list_elem_of_fmap in Hv as (d & -> & Hd).
    apply round2_mono.
    eapply Forall_forall in Hles; [exact Hles|exact Hd].
  - destruct Hatt as [E|Hin].
    + exists 0%nat, (round2 fl d0). split; [reflexivity|].
      apply fl_proper, py_round_n_proper. rewrite E, Hd0. reflexivity.
    + apply list_elem_of_lookup in Hin as [t Ht].
      exists t, (round2 fl (mdd st')). split; [|reflexivity].
      by rewrite list_lookup_fmap, Ht.
Qed.

End DrawdownProofs.

(** [x ** y] for a whole exponent [y], all that the example below needs of
    the power. *)
Definition whole_power (x y : Q) : result (option Q) :=
  Value (Some (x ^ Qfloor y)).

(** Four days in binary64: the curve is 0, 0, -25, -8.33 and the reported
    MDD is -25, from the peak of the second day to the trough of the
    third. *)
Lemma C8_drawdown_witness :
  exists annual mdd_reported period curve,
    _calc_metrics fl64 whole_power [100; 120; 90; 110] ["d1"; "d2"; "d3"; "d4"]
    = Value (DrawdownMetrics annual mdd_reported period curve) /\
    curve.*1 = ["d1"; "d2"; "d3"; "d4"] /\
    Forall (fun dd => dd <= 0) curve.*2 /\
    Forall (fun dd => mdd_reported <= dd) curve.*2.
Proof.
  assert (~ 100 == 0) as Hne by discriminate.
  pose proof (C8_drawdown_bound_and_mdd_is_minimum fl64 whole_power
                fl64_mono fl64_0 fl64_1
                [100; 120; 90; 110] ["d1"; "d2"; "d3"; "d4"] 100 [120; 90; 110]
                eq_refl Hne eq_refl) as H.
  unfold annual_power, whole_power in H.
  destruct H as (a & m & p & c & E & H0 & _ & H1 & H2 & _).
  exists a, m, p, c. auto.
Defined.

Example drawdown_example :
  exists annual,
    _calc_metrics fl64 whole_power [100; 120; 90; 110] ["d1"; "d2"; "d3"; "d4"]
    = Value (DrawdownMetrics annual (-25) ("d2", "d3")
               [("d1", 0); ("d2", 0); ("d3", -25);
                ("d4", fl64 (- (833 # 100)))]).
Proof. eexists. vm_compute. reflexivity. Qed.

(** The power of the annualised return overflows for a 300-fold gain in
    two days ([300.0 ** 126.0]), and the metrics are not returned. *)
Example overflow_example :
  _calc_metrics fl64 (fun _ _ => Exception OverflowError) [1; 300] ["d1"; "d2"]
  = Exception OverflowError.
Proof. vm_compute. reflexivity. Qed.

(** ** The trailing stop *)

(** [m] keeps [P]: whatever state satisfies [P], the state in which [m]
    ends, by returning or by raising, satisfies it too. *)
Definition keeps {S A} (P : S -> Prop) (m : M S A) : Prop :=
  forall s, P s -> P (final_state (m s)).

Lemma keeps_ret {S A} (P : S -> Prop) (a : A) : keeps P (ret a).
Proof. intros s Hs. exact Hs. Qed.

Lemma keeps_raise {S A} (P : S -> Prop) (e : exn) : keeps P (@raise S A e).
Proof. intros s Hs. exact Hs. Qed.

Lemma keeps_get {S} (P : S -> Prop) : keeps P get.
Proof. intros s Hs. exact Hs. Qed.

Lemma keeps_lift {S A} (P : S -> Prop) (r : result A) : keeps P (lift r).
Proof. intros s Hs. unfold lift. by destruct r. Qed.

Lemma keeps_dict_get {S V} (P : S -> Prop) (m : gmap string V) (k : string) :
  keeps P (dict_get m k).
Proof. intros s Hs. unfold dict_get. by destruct (m !! k). Qed.

Lemma keeps_py_div {S} (P : S -> Prop) (x y : Q) : keeps P (@py_div S x y).
Proof. intros s Hs. unfold py_div. by destruct (Qeq_bool y 0). Qed.

Lemma keeps_modify {S} (P : S -> Prop) (f : S -> S) :
  (forall s, P s -> P (f s)) -> keeps P (modify f).
Proof. intros Hf s Hs. by apply Hf. Qed.

Lemma keeps_bind {S A B} (P : S -> Prop) (m : M S A) (k : A -> M S B) :
  keeps P m -> (forall a, keeps P (k a)) -> keeps P (bind m k).
Proof.
  intros Hm Hk s Hs. unfold bind. specialize (Hm s Hs).
  destruct (m s) as [a s'|e s']; simpl in *; [by apply Hk|exact Hm].
Qed.

(** What holds of the state a method reads holds while the rest runs. *)
Lemma keeps_bind_get {S B} (P : S -> Prop) (k : S -> M S B) :
  (forall s0, P s0 -> keeps P (k s0)) -> keeps P (bind get k).
Proof. intros Hk s Hs. unfold bind, get. by apply Hk. Qed.

(** The rest of a method runs on the value a pure computation returned. *)
Lemma keeps_bind_lift {S A B} (P : S -> Prop) (r : result A) (k : A -> M S B) :
  (forall a, r = Value a -> keeps P (k a)) -> keeps P (bind (lift r) k).
Proof.
  intros Hk s Hs. unfold bind, lift. destruct r as [a|e]; [|exact Hs].
  by apply Hk.
Qed.

(** A property kept by every iteration is kept by the loop, also when an
    iteration raises. *)
Lemma keeps_for_each {S X} (P : S -> Prop) (l : list X) (body : X -> M S unit) :
  (forall x, x ∈ l -> keeps P (body x)) -> keeps P (for_each l body).
Proof.
  induction l as [|x l IH]; intros Hbody; simpl; [apply keeps_ret|].
  apply keeps_bind; [apply Hbody; by left|].
  intros _. apply IH. intros y Hy. apply Hbody. by right.
Qed.

Lemma buy_positions_frame (ticker other : string) (price : Q) (shares : Z)
    (date name : string) (self : Portfolio) :
  other <> ticker ->
  positions (final_state (buy ticker price shares date name self)) !! other
  = positions self !! other.
Proof.
  intros Hne.
  assert (forall e n,
    positions (final_state (buy_fill ticker price e n date name self)) !! other
    = positions self !! other) as Hfill.
  { intros e n. simpl.
    destruct (positions self !! ticker); by rewrite lookup_insert_ne. }
  unfold buy.
  repeat match goal with
         | |- context [if ?b then _ else _] => destruct b
         end; simpl; try reflexivity; apply Hfill.
Qed.

Lemma sell_positions_frame (ticker other : string) (price : Q) (shares : Z)
    (date : string) (self : Portfolio) :
  other <> ticker ->
  positions (final_state (sell ticker price shares date self)) !! other
  = positions self !! other.
Proof.
  intros Hne. unfold sell.
  destruct (positions self !! ticker) as [pos|]; [|reflexivity].
  destruct (Qltb 0 (pos_avg_price pos)); [destruct (Qeq_bool _ 0)|];
    simpl; try reflexivity;
    destruct (_ <=? 0)%Z;
    by rewrite ?lookup_delete_ne, ?lookup_insert_ne.
Qed.

(** What the strategy knows of one ticker. *)
Definition ticker_view (t : string) (st : RunState)
    : option bool * option Z * option Q * option Position :=
  (holding st !! t, sold_day st !! t, peaks st !! t,
   positions (rs_portfolio st) !! t).

(** The ticker was stopped out on day [i0] and is not held. *)
Definition stopped_out (t : string) (i0 : Z) (st : RunState) : Prop :=
  holding st !! t = Some false /\ sold_day st !! t = Some i0 /\
  positions (rs_portfolio st) !! t = None.

Section TrailingStopProofs.

Variable fl : Q -> Q.
Variable stdev : list Q -> Q.
Variable self : BacktestEngine.
Variables (lookback : Z) (stop_pct : Q) (cooldown : Z) (reentry : bool).

(** The check of another ticker leaves the view of [t] alone. *)
Lemma stop_check_frame (prices : gmap string Q) (i : Z) (date u t : string)
    (st : RunState) :
  u <> t ->
  ticker_view t (final_state (stop_check fl stop_pct prices i date u st))
  = ticker_view t st.
Proof.
  intros Hne. unfold stop_check, bind, get, put, dict_get, ret, raise, modify.
  destruct (holding st !! u) as [[|]|]; simpl; try reflexivity.
  destruct (prices !! u) as [p|]; simpl; [|reflexivity].
  assert (forall pk : gmap string Q,
            (if Qltb (default 0 (peaks st !! u)) p then <[u := p]> (peaks st)
             else peaks st) !! t = peaks st !! t) as Hpk.
  { intros _. destruct (Qltb _ p); [by rewrite lookup_insert_ne|done]. }
  destruct (Qltb 0 _); simpl;
    [|unfold ticker_view; simpl; by rewrite Hpk].
  destruct (Qle_bool _ stop_pct); simpl;
    [|unfold ticker_view; simpl; by rewrite Hpk].
  destruct (positions (rs_portfolio st) !! u) as [pos|] eqn:Hpos; simpl.
  - unfold on_portfolio; simpl.
    pose proof (sell_positions_frame u t p (pos_shares pos) date
                  (rs_portfolio st) (not_eq_sym Hne)) as Hs.
    destruct (sell u p (pos_shares pos) date (rs_portfolio st)) as [n s|e s];
      simpl in *; unfold ticker_view; simpl;
      rewrite ?lookup_insert_ne by done; by rewrite Hpk, Hs.
  - unfold ticker_view; simpl. rewrite !lookup_insert_ne by done.
    by rewrite Hpk.
Qed.

(** The check of a ticker that is not held does nothing. *)
Lemma stop_check_not_held (prices : gmap string Q) (i : Z) (date t : string)
    (st : RunState) :
  holding st !! t = Some false ->
  stop_check fl stop_pct prices i date t st = Returned tt st.
Proof.
  intros H. unfold stop_check, bind, get, dict_get, ret. by rewrite H.
Qed.

Lemma stopped_out_view (t : string) (i0 : Z) (st st' : RunState) :
  ticker_view t st' = ticker_view t st ->
  stopped_out t i0 st -> stopped_out t i0 st'.
Proof.
  unfold ticker_view, stopped_out. intros [= -> -> _ ->]. done.
Qed.

Lemma stop_loop_keeps_stopped_out (prices : gmap string Q) (i : Z)
    (date t : string) (i0 : Z) (valid : list string) :
  keeps (stopped_out t i0) (for_each valid (stop_check fl stop_pct prices i date)).
Proof.
  apply keeps_for_each. intros u _ s Hs.
  destruct (decide (u = t)) as [->|Hne].
  - rewrite stop_check_not_held; [exact Hs|apply Hs].
  - eapply stopped_out_view; [|exact Hs]. by apply stop_check_frame.
Qed.

(** During the cooldown the ticker is not a buying candidate. *)
Lemma cooldown_not_buyable (prices : gmap string Q) (i i0 : Z) (t : string)
    (st : RunState) (valid buyable : list string) :
  stopped_out t i0 st -> (i - i0 <= cooldown)%Z ->
  collect_buyable cooldown reentry prices i st valid = Value buyable ->
  t ∉ buyable.
Proof.
  intros (Hh & Hs & _) Hcool. revert buyable.
  induction valid as [|u valid IH]; simpl; intros buyable Hb.
  - injection Hb as <-. apply not_elem_of_nil.
  - destruct (is_buyable cooldown reentry prices i st u) as [b|e] eqn:Hu;
      simpl in Hb; [|discriminate].
    destruct (collect_buyable cooldown reentry prices i st valid) as [l|e];
      simpl in Hb; [|discriminate].
    injection Hb as <-. specialize (IH l eq_refl).
    destruct b; [|exact IH].
    apply not_elem_of_cons. split; [|exact IH].
    intros ->. unfold is_buyable in Hu. rewrite Hh, Hs in Hu.
    destruct (negb reentry && (0 <=? i0)%Z && initial_buy_done st);
      [discriminate|].
    destruct (Z.leb_spec (i - i0) cooldown); [discriminate|lia].
Qed.

Lemma on_portfolio_buy_keeps_stopped_out (u t : string) (i0 : Z) (p : Q)
    (n : Z) (date name : string) :
  u <> t -> keeps (stopped_out t i0) (on_portfolio (buy u p n date name)).
Proof.
  intros Hne st (H1 & H2 & H3). unfold on_portfolio.
  pose proof (buy_positions_frame u t p n date name (rs_portfolio st)
                (not_eq_sym Hne)) as Hb.
  destruct (buy u p n date name (rs_portfolio st)) as [bought s'|e s'];
    simpl in *; unfold stopped_out; simpl; by rewrite Hb.
Qed.

(** Buying another ticker leaves the stopped-out ticker as it is. *)
Lemma buy_weighted_keeps_stopped_out (prices inv_vols : gmap string Q)
    (total_inv available : Q) (n : nat) (date u t : string) (i0 : Z) :
  u <> t ->
  keeps (stopped_out t i0)
    (buy_weighted self prices inv_vols total_inv available n date u).
Proof.
  intros Hne. unfold buy_weighted.
  apply keeps_bind.
  { destruct (Qltb 0 total_inv); [|apply keeps_py_div].
    apply keeps_bind; [apply keeps_dict_get|]. intros iv. apply keeps_py_div. }
  intros w. destruct (Qle_bool _ 0); [apply keeps_ret|].
  apply keeps_bind; [apply keeps_dict_get|]. intros p.
  apply keeps_bind; [apply keeps_py_div|]. intros q.
  destruct (0 <? py_int q)%Z; [|apply keeps_ret].
  apply keeps_bind; [by apply on_portfolio_buy_keeps_stopped_out|].
  intros bought. destruct (0 <? bought)%Z; [|apply keeps_ret].
  apply keeps_modify. intros s (H1 & H2 & H3).
  unfold stopped_out; simpl. by rewrite lookup_insert_ne.
Qed.

Lemma snapshot_keeps_stopped_out (t : string) (i0 : Z) (date : string)
    (prices : gmap string Q) :
  keeps (stopped_out t i0) (on_portfolio (snapshot date prices)).
Proof. intros st Hst. exact Hst. Qed.

(** Within the cooldown the buying block leaves the ticker stopped out. *)
Lemma buy_phase_keeps_stopped_out (valid : list string) (i i0 : Z)
    (date t : string) :
  (i - i0 <= cooldown)%Z ->
  keeps (stopped_out t i0)
    (buy_phase stdev self lookback cooldown reentry valid i date).
Proof.
  intros Hcool. unfold buy_phase.
  apply keeps_bind_get. intros st Hst.
  apply keeps_bind_lift. intros buyable Hb.
  pose proof (cooldown_not_buyable _ _ _ _ _ _ _ Hst Hcool Hb) as Hnot.
  destruct buyable as [|b0 buyable]; [apply keeps_ret|].
  apply keeps_bind; [apply keeps_lift|]. intros inv_vols.
  apply keeps_bind_get. intros st' _.
  apply keeps_for_each. intros u Hu.
  apply buy_weighted_keeps_stopped_out. intros ->. by apply Hnot.
Qed.



Lemma ticker_view_eq (t : string) (a b : RunState) :
  ticker_view t a = ticker_view t b ->
  holding a !! t = holding b !! t /\ sold_day a !! t = sold_day b !! t /\
  peaks a !! t = peaks b !! t /\
  positions (rs_portfolio a) !! t = positions (rs_portfolio b) !! t.
Proof. unfold ticker_view. intros [= -> -> -> ->]. done. Qed.

Lemma py_max_idem (a b : Q) : py_max (py_max a b) b = py_max a b.
Proof.
  unfold py_max. destruct (Qltb a b) eqn:H; [|by rewrite H].
  replace (Qltb b b) with false; [done|].
  symmetry. apply Qltb_ge. apply Qle_refl.
Qed.

(** The stop decision of the day: the drawdown of [p] from the peak [pk]
    is at or beyond the stop. *)
Definition stop_triggered (p pk : Q) : bool :=
  Qltb 0 pk && Qle_bool (fl (fl (fl (p / pk) - 1) * 100)) stop_pct.

(** The check of a held ticker: its peak becomes the larger of the old peak
    and the day's price; when the stop triggers the whole position is sold
    at the day's price and the ticker is marked as sold on day [i]. *)
Lemma stop_check_held (prices : gmap string Q) (i : Z) (date t : string)
    (st : RunState) (p old : Q) :
  holding st !! t = Some true -> prices !! t = Some p ->
  peaks st !! t = Some old ->
  positions_wf (rs_portfolio st) ->
  let pk := py_max old p in
  exists st',
    stop_check fl stop_pct prices i date t st = Returned tt st' /\
    peaks st' !! t = Some pk /\
    (if stop_triggered p pk
     then stopped_out t i st' /\
          (forall pos, positions (rs_portfolio st) !! t = Some pos ->
             cash (rs_portfolio st')
             = cash (rs_portfolio st)
               + sell_net_proceeds (cost (rs_portfolio st)) p (pos_shares pos))
     else holding st' !! t = Some true /\
          sold_day st' !! t = sold_day st !! t /\
          rs_portfolio st' = rs_portfolio st) /\
    positions_wf (rs_portfolio st') /\
    (forall v, is_Some (holding st !! v) -> is_Some (holding st' !! v)).
Proof.
  intros Hh Hp Hpk Hwf pk.
  unfold stop_check, bind, get, put, dict_get, ret, modify.
  rewrite Hh, Hp, Hpk. simpl.
  assert ((if Qltb old p then <[t := p]> (peaks st) else peaks st) !! t = Some pk)
    as Hpk'.
  { unfold pk, py_max. destruct (Qltb old p); [apply lookup_insert_eq|exact Hpk]. }
  rewrite Hpk'. simpl. unfold stop_triggered.
  destruct (Qltb 0 pk); simpl; [|eexists; repeat split; eauto].
  destruct (Qle_bool _ stop_pct); simpl; [|eexists; repeat split; eauto].
  destruct (positions (rs_portfolio st) !! t) as [pos|] eqn:Hpos; simpl.
  - destruct (sell_returns t p (pos_shares pos) date (rs_portfolio st) pos Hpos)
      as (ec & pct & credited & Hsell & Hcp & _ & _ & _ & Hcash).
    { left. specialize (Hwf _ _ Hpos). lia. }
    unfold on_portfolio; simpl. rewrite Hsell. simpl.
    rewrite Z.min_id, Z.sub_diag in *. simpl.
    eexists. split; [reflexivity|]. simpl.
    split; [exact Hpk'|]. split; [split|split].
    + unfold stopped_out; simpl. rewrite !lookup_insert_eq, lookup_delete_eq. done.
    + intros pos' [= <-]. exact Hcash.
    + intros v q. simpl. rewrite Hcp. intros Hl.
      apply lookup_delete_Some in Hl as [_ Hl]. by eapply Hwf.
    + intros v Hv. simpl. rewrite lookup_insert. by case_decide.
  - eexists. split; [reflexivity|]. simpl.
    split; [exact Hpk'|]. split; [split|split].
    + unfold stopped_out; simpl. rewrite !lookup_insert_eq. done.
    + intros pos' [=].
    + exact Hwf.
    + intros v Hv. simpl. rewrite lookup_insert. by case_decide.
Qed.

(** Any check returns when the ticker is known to [holding] and the
    positions are well-formed, and it leaves both so. *)
Lemma stop_check_returns (prices : gmap string Q) (i : Z) (date u : string)
    (st : RunState) :
  is_Some (holding st !! u) -> positions_wf (rs_portfolio st) ->
  exists st',
    stop_check fl stop_pct prices i date u st = Returned tt st' /\
    positions_wf (rs_portfolio st') /\
    (forall v, is_Some (holding st !! v) -> is_Some (holding st' !! v)).
Proof.
  intros [held Hh] Hwf.
  unfold stop_check, bind, get, put, dict_get, ret, modify. rewrite Hh.
  destruct held; simpl; [|by exists st].
  destruct (prices !! u) as [p|]; simpl; [|by exists st].
  destruct (Qltb 0 _); simpl; [|eexists; repeat split; eauto].
  destruct (Qle_bool _ stop_pct); simpl; [|eexists; repeat split; eauto].
  destruct (positions (rs_portfolio st) !! u) as [pos|] eqn:Hpos; simpl.
  - destruct (sell_whole_position u p date (rs_portfolio st) pos Hpos
                (Hwf _ _ Hpos)) as (p' & Hsell & Hp').
    unfold on_portfolio; simpl. rewrite Hsell. simpl.
    eexists. split; [reflexivity|]. simpl. split.
    + intros v q. rewrite Hp'. intros Hl.
      apply lookup_delete_Some in Hl as [_ Hl]. by eapply Hwf.
    + intros v Hv. rewrite lookup_insert. by case_decide.
  - eexists. split; [reflexivity|]. simpl. split; [exact Hwf|].
    intros v Hv. rewrite lookup_insert. by case_decide.
Qed.

(** The outcome of the stop loop for a held ticker [t] whose price of the
    day is [p] and whose peak becomes [pk]. *)
Definition stop_outcome (t : string) (i : Z) (p pk : Q)
    (before : option Position) (st : RunState) : Prop :=
  peaks st !! t = Some pk /\
  (if stop_triggered p pk then stopped_out t i st
   else holding st !! t = Some true /\
        positions (rs_portfolio st) !! t = before).

Lemma stop_loop_held_aux (prices : gmap string Q) (i : Z) (date t : string)
    (p pk : Q) (before : option Position) (valid : list string) :
  prices !! t = Some p ->
  forall st : RunState,
    (forall u, u ∈ valid -> is_Some (holding st !! u)) ->
    positions_wf (rs_portfolio st) ->
    (holding st !! t = Some true /\
     (exists old, peaks st !! t = Some old /\ py_max old p = pk) /\
     positions (rs_portfolio st) !! t = before) \/
    (stop_triggered p pk = true /\ stop_outcome t i p pk before st) ->
    t ∈ valid \/ stop_outcome t i p pk before st ->
    exists st',
      for_each valid (stop_check fl stop_pct prices i date) st = Returned tt st' /\
      stop_outcome t i p pk before st'.
Proof.
  intros Hp. induction valid as [|u valid IH]; intros st Hkeys Hwf HJ HR.
  - exists st. split; [reflexivity|].
    destruct HR as [HR|HR]; [by apply elem_of_nil in HR|exact HR].
  - simpl. unfold bind.
    destruct (decide (u = t)) as [->|Hne].
    + destruct HJ as [(Hh & (old & Hpk & Hmax) & Hpos)|(Htrig & Hout)].
      * destruct (stop_check_held prices i date t st p old Hh Hp Hpk Hwf)
          as (st1 & -> & Hpk1 & Hcase & Hwf1 & Hkeys1).
        rewrite Hmax in Hpk1, Hcase.
        assert (stop_outcome t i p pk before st1) as Hout1.
        { split; [exact Hpk1|].
          destruct (stop_triggered p pk); [apply Hcase|].
          destruct Hcase as (H1 & _ & H3). split; [exact H1|by rewrite H3]. }
        apply IH; [| exact Hwf1 | | by right].
        -- intros v Hv. apply Hkeys1, Hkeys. by right.
        -- destruct (stop_triggered p pk) eqn:Htrig; [right; by split|].
           left. destruct Hcase as (H1 & _ & H3). split; [exact H1|].
           split; [|by rewrite H3].
           exists pk. split; [exact Hpk1|]. rewrite <- Hmax. apply py_max_idem.
      * assert (holding st !! t = Some false) as Hh.
        { destruct Hout as (_ & Hout). rewrite Htrig in Hout. apply Hout. }
        rewrite (stop_check_not_held prices i date t st Hh).
        apply IH; [| exact Hwf | by right; split | by right].
        intros v Hv. apply Hkeys. by right.
    + destruct (stop_check_returns prices i date u st) as
        (st1 & Hret & Hwf1 & Hkeys1); [apply Hkeys; by left|exact Hwf|].
      pose proof (stop_check_frame prices i date u t st Hne) as Hview.
      rewrite Hret in Hview |- *. simpl in Hview.
      apply ticker_view_eq in Hview as (Hv1 & Hv2 & Hv3 & Hv4).
      assert (stop_outcome t i p pk before st ->
              stop_outcome t i p pk before st1) as Hmove.
      { unfold stop_outcome, stopped_out. rewrite Hv1, Hv2, Hv3, Hv4. done. }
      apply IH; [| exact Hwf1 | |].
      * intros v Hv. apply Hkeys1, Hkeys. by right.
      * destruct HJ as [HJ|[Htrig Hout]]; [left|right; split; auto].
        by rewrite Hv1, Hv3, Hv4.
      * destruct HR as [HR|HR]; [|right; by apply Hmove].
        apply elem_of_cons in HR as [->|HR]; [done|by left].
Qed.


(** The stop loop of one day, for a held ticker. *)
Lemma stop_loop_held (prices : gmap string Q) (i : Z) (date t : string)
    (p old : Q) (valid : list string) (st : RunState) :
  t ∈ valid ->
  (forall u, u ∈ valid -> is_Some (holding st !! u)) ->
  positions_wf (rs_portfolio st) ->
  holding st !! t = Some true -> prices !! t = Some p ->
  peaks st !! t = Some old ->
  exists st',
    for_each valid (stop_check fl stop_pct prices i date) st = Returned tt st' /\
    stop_outcome t i p (py_max old p) (positions (rs_portfolio st) !! t) st'.
Proof.
  intros Hin Hkeys Hwf Hh Hp Hpk.
  apply stop_loop_held_aux; auto.
  left. split; [exact Hh|]. split; [|reflexivity]. by exists old.
Qed.

(** On the day the stop triggers the ticker ends the day stopped out,
    provided the cooldown is not negative. *)
Lemma day_step_stops (valid : list string) (i : Z) (date t : string)
    (p old : Q) (st : RunState) :
  t ∈ valid ->
  (forall u, u ∈ valid -> is_Some (holding st !! u)) ->
  positions_wf (rs_portfolio st) ->
  holding st !! t = Some true ->
  _last_known_prices self date !! t = Some p ->
  peaks st !! t = Some old ->
  stop_triggered p (py_max old p) = true ->
  (0 <= cooldown)%Z ->
  stopped_out t i
    (final_state
       (day_step fl stdev self lookback stop_pct cooldown reentry valid i date st)).
Proof.
  intros Hin Hkeys Hwf Hh Hp Hpk Htrig Hcool.
  destruct (stop_loop_held (_last_known_prices self date) i date t p old valid st)
    as (st1 & Hloop & _ & Hout); auto.
  rewrite Htrig in Hout.
  unfold day_step, bind at 1. rewrite Hloop.
  apply (keeps_bind (stopped_out t i)); [|intros _; apply snapshot_keeps_stopped_out|exact Hout].
  apply buy_phase_keeps_stopped_out. lia.
Qed.


End TrailingStopProofs.

(** The scenario of the design document: one ticker with closes 100, 120
    and 90 on three consecutive days, no costs. *)
Definition flat_row (date : string) (close : Q) : PriceRow :=
  {| r_date := date; r_open := close; r_high := close; r_low := close;
     r_close := close; r_volume := 0 |}.

Definition three_day_engine : BacktestEngine :=
  add_price_data "A"
    [flat_row "2024-01-01" 100; flat_row "2024-01-02" 120;
     flat_row "2024-01-03" 90]
    "" (BacktestEngine_init 1000 0 0 0).





(** * Further properties of the ledger *)

(** ** The fill of a buy *)

Lemma buy_cases (ticker : string) (price : Q) (shares : Z) (date name : string)
    (self : Portfolio) :
  -100 < slippage_pct (cost self) -> -100 < commission_pct (cost self) ->
  let exec_price := price * (1 + slippage_pct (cost self) / 100) in
  let unit_cost := exec_price * (1 + commission_pct (cost self) / 100) in
  buy ticker price shares date name self = Returned 0%Z self \/
  exists n : Z,
    buy ticker price shares date name self
      = buy_fill ticker price exec_price n date name self /\
    0 < price /\ (0 < n <= shares)%Z /\ inject_Z n * unit_cost <= cash self.
Proof.
  intros Hs Hc e d. unfold buy. fold e.
  destruct (Z.leb_spec shares 0) as [?|Hsh]; simpl; [by left|].
  destruct (Qle_bool price 0) eqn:Hp; [by left|].
  assert (0 < price) as Hp'.
  { apply Qnot_le_lt. intros Hle. apply Qle_bool_iff in Hle. congruence. }
  pose proof (unit_cost_pos price _ _ Hp' Hs Hc) as Hd. fold e in Hd. fold d in Hd.
  destruct (Qltb (cash self) _) eqn:Hlt.
  - apply Qltb_lt in Hlt. fold d.
    replace (Qeq_bool d 0) with false
      by (symmetry; apply not_true_iff_false; rewrite Qeq_bool_iff; lra).
    destruct (Z.leb_spec (py_int (cash self / d)) 0) as [?|Hm]; [by left|].
    right. exists (py_int (cash self / d)). split; [reflexivity|].
    assert (0 <= cash self / d) as Hnn.
    { destruct (Qlt_le_dec (cash self / d) 0) as [Hneg|]; [|done].
      pose proof (py_int_nonpos (cash self / d) (Qlt_le_weak _ _ Hneg)). lia. }
    rewrite (py_int_floor _ Hnn) in *.
    pose proof (Qfloor_le (cash self / d)) as Hfl.
    assert (inject_Z (Qfloor (cash self / d)) * d <= cash self / d * d) as Hmul
      by (apply Qmult_le_compat_r; lra).
    assert (cash self / d * d == cash self) as E by (field; lra).
    rewrite E in Hmul.
    split; [exact Hp'|]. split; [|exact Hmul]. split; [exact Hm|].
    assert (cash self < inject_Z shares * d) as Hlt' by (unfold d; lra).
    assert (inject_Z (Qfloor (cash self / d)) < inject_Z shares) as Hcmp.
    { apply Qnot_le_lt. intros Hge.
      assert (inject_Z shares * d <= inject_Z (Qfloor (cash self / d)) * d)
        by (apply Qmult_le_compat_r; lra).
      lra. }
    rewrite <- Zlt_Qlt in Hcmp. lia.
  - apply Qltb_ge in Hlt. right. exists shares. split; [reflexivity|].
    split; [exact Hp'|]. split; [lia|]. unfold d. lra.
Qed.

(** X2. With slippage and commission above -100%, the number of shares
    [buy] returns is never negative and never more than the number
    requested, and a returned fill of zero leaves the ledger untouched. *)
Theorem X2_buy_fill_within_request (ticker : string) (price : Q) (shares : Z)
    (date name : string) (self self' : Portfolio) (n : Z) :
  -100 < slippage_pct (cost self) -> -100 < commission_pct (cost self) ->
  buy ticker price shares date name self = Returned n self' ->
  (0 <= n)%Z /\ (n <= Z.max 0 shares)%Z /\ (n = 0%Z -> self' = self).
Proof.
  intros Hs Hc Hbuy.
  destruct (buy_cases ticker price shares date name self Hs Hc)
    as [E|(m & E & Hp & Hm & Hfit)]; rewrite E in Hbuy.
  - injection Hbuy as <- <-. split; [lia|]. split; [lia|done].
  - unfold buy_fill in Hbuy. injection Hbuy as <- <-.
    split; [lia|]. split; [lia|]. lia.
Qed.

Lemma X2_buy_fill_within_request_witness :
  exists n self',
    buy "A" 50 2 "day1" "" (Portfolio_init 100 (mkCostConfig 0 10 0))
      = Returned n self' /\ (0 <= n <= 2)%Z.
Proof.
  assert (exists self',
            buy "A" 50 2 "day1" "" (Portfolio_init 100 (mkCostConfig 0 10 0))
            = Returned 1%Z self') as [self' Hb]
    by (eexists; vm_compute; reflexivity).
  exists 1%Z, self'. split; [exact Hb|].
  destruct (X2_buy_fill_within_request "A" 50 2 "day1" ""
              (Portfolio_init 100 (mkCostConfig 0 10 0)) self' 1%Z)
    as (H1 & H2 & _); try (vm_compute; reflexivity); [exact Hb|].
  lia.
Defined.

(** ** Where the money goes *)

(** The three cumulative cost counters together. *)
Definition total_costs (self : Portfolio) : Q :=
  total_slippage_cost self + total_commission_cost self + total_tax_cost self.

(** The shares an order ends up moving: what it returned, nothing when it
    raised before its [return]. *)
Definition shares_filled (o : outcome Portfolio Z) : Z :=
  match o with
  | Returned n _ => n
  | Raised _ _ => 0
  end.

(** X3. Every buy order, however it ends, takes from the cash exactly the
    quoted value of the shares it filled plus what it adds to the cost
    counters: cash plus accumulated costs falls by quote price times
    filled shares.  Every sell order against an existing position moves
    [min(requested, held)] shares the other way, also when it raises
    after crediting the cash; a sell for a ticker without a position
    changes nothing. *)
Theorem X3_cash_and_costs_account_for_quoted_value :
  (forall (ticker : string) (price : Q) (shares : Z) (date name : string)
          (self : Portfolio),
     let o := buy ticker price shares date name self in
     cash (final_state o) + total_costs (final_state o)
     == cash self + total_costs self - price * inject_Z (shares_filled o)) /\
  (forall (ticker : string) (price : Q) (shares : Z) (date : string)
          (self : Portfolio),
     let o := sell ticker price shares date self in
     match positions self !! ticker with
     | Some pos =>
         cash (final_state o) + total_costs (final_state o)
         == cash self + total_costs self
            + price * inject_Z (Z.min shares (pos_shares pos))
     | None => o = Returned 0%Z self
     end).
Proof.
  split.
  - intros ticker price shares date name self o. unfold o, buy.
    assert (forall n,
      cash (final_state (buy_fill ticker price
              (price * (1 + slippage_pct (cost self) / 100)) n date name self))
      + total_costs (final_state (buy_fill ticker price
              (price * (1 + slippage_pct (cost self) / 100)) n date name self))
      == cash self + total_costs self
         - price * inject_Z (shares_filled (buy_fill ticker price
              (price * (1 + slippage_pct (cost self) / 100)) n date name self)))
      as Hfill.
    { intros n. unfold total_costs; simpl. ring. }
    repeat match goal with
           | |- context [if ?b then _ else _] => destruct b
           end; simpl; try apply Hfill; unfold total_costs; ring.
  - intros ticker price shares date self o. unfold o, sell.
    destruct (positions self !! ticker) as [pos|]; [|reflexivity].
    destruct (Qltb 0 (pos_avg_price pos)); [destruct (Qeq_bool _ 0)|];
      unfold total_costs; simpl; ring.
Qed.

(** ** The cost basis of a position *)

(** X4. A buy that fills [n > 0] shares of a ticker raises the cost basis
    of its position (average price times shares) by exactly the execution
    price times [n], and the share count by [n]; for a ticker without a
    position the basis starts at that amount. *)
Theorem X4_buy_adds_to_cost_basis (ticker : string) (price : Q) (shares : Z)
    (date name : string) (self self' : Portfolio) (n : Z) :
  positions_wf self ->
  buy ticker price shares date name self = Returned n self' -> (0 < n)%Z ->
  let exec_price := price * (1 + slippage_pct (cost self) / 100) in
  let old_shares := match positions self !! ticker with
                    | Some pos => pos_shares pos
                    | None => 0%Z
                    end in
  let old_basis := match positions self !! ticker with
                   | Some pos => pos_avg_price pos * inject_Z (pos_shares pos)
                   | None => 0
                   end in
  exists pos',
    positions self' !! ticker = Some pos' /\
    pos_shares pos' = (old_shares + n)%Z /\
    pos_avg_price pos' * inject_Z (pos_shares pos')
    == old_basis + exec_price * inject_Z n.
Proof.
  intros Hwf Hbuy Hn e old_shares old_basis.
  assert (exists m, buy_fill ticker price e m date name self = Returned n self')
    as [m Hfill].
  { unfold buy in Hbuy. fold e in Hbuy.
    repeat match type of Hbuy with
           | context [if ?b then _ else _] => destruct b
           end; try (injection Hbuy as <- _; lia); try discriminate; eauto. }
  unfold buy_fill in Hfill. injection Hfill as -> <-. simpl.
  unfold old_shares, old_basis.
  destruct (positions self !! ticker) as [pos|] eqn:Hpos;
    rewrite lookup_insert_eq; eexists; (split; [reflexivity|]); simpl.
  - split; [reflexivity|].
    pose proof (Hwf _ _ Hpos) as Hsh.
    assert (0 < inject_Z (pos_shares pos + n)) as Hnz.
    { change 0 with (inject_Z 0). rewrite <- Zlt_Qlt. lia. }
    field. lra.
  - split; [lia|]. ring.
Qed.

Lemma X4_buy_adds_to_cost_basis_witness :
  exists self' pos',
    buy "A" 120 5 "day2" "" ten_shares_held = Returned 5%Z self' /\
    positions self' !! "A" = Some pos' /\ pos_shares pos' = 15%Z.
Proof.
  assert (exists self', buy "A" 120 5 "day2" "" ten_shares_held = Returned 5%Z self')
    as [self' Hb] by (eexists; vm_compute; reflexivity).
  destruct (X4_buy_adds_to_cost_basis "A" 120 5 "day2" "" ten_shares_held self'
              5%Z ten_shares_held_wf Hb eq_refl) as (pos' & H1 & H2 & _).
  exists self', pos'. split; [exact Hb|]. split; [exact H1|].
  rewrite H2. vm_compute. reflexivity.
Defined.

(** ** Positions stay positive *)

Lemma place_all_preserves_wf (orders : list order) :
  forall self, positions_wf self ->
               positions_wf (final_state (place_all orders self)).
Proof.
  induction orders as [|o orders IH]; intros self Hwf; [exact Hwf|].
  unfold place_all; simpl. unfold bind at 1. unfold bind at 1.
  assert (positions_wf (final_state (place o self))) as H1
    by (destruct o; [by apply buy_preserves_wf|by apply sell_preserves_wf]).
  destruct (place o self) as [n s|e s]; simpl in *; [by apply IH|exact H1].
Qed.

(** X5. Whatever orders are placed on a fresh portfolio, valid or not, and
    wherever the sequence stops, every entry of the positions map holds a
    positive number of shares: a position that reaches zero is removed, and
    none goes negative. *)
Theorem X5_positions_always_positive (capital : Q) (cfg : CostConfig)
    (orders : list order) :
  positions_wf (final_state (place_all orders (Portfolio_init capital cfg))).
Proof. apply place_all_preserves_wf, positions_wf_init. Qed.

(** ** Trading at the mark *)

Lemma Qsum_Permutation (l l' : list Q) : l ≡ₚ l' -> Qsum l == Qsum l'.
Proof.
  induction 1 as [|x l l' _ IH|x y l|l1 l2 l3 _ IH1 _ IH2]; simpl.
  - reflexivity.
  - by rewrite IH.
  - ring.
  - by rewrite IH1.
Qed.

(** The marked value of all open positions. *)
Definition positions_value (prices : gmap string Q) (m : gmap string Position) : Q :=
  Qsum (map (marked_value prices) (map_to_list m)).

Lemma positions_value_insert_fresh (prices : gmap string Q)
    (m : gmap string Position) (t : string) (x : Position) :
  m !! t = None ->
  positions_value prices (<[t := x]> m)
  == marked_value prices (t, x) + positions_value prices m.
Proof.
  intros Hm. unfold positions_value.
  rewrite (Qsum_Permutation _ (map (marked_value prices) ((t, x) :: map_to_list m))).
  - reflexivity.
  - apply Permutation_map. by apply map_to_list_insert.
Qed.

Lemma positions_value_delete (prices : gmap string Q)
    (m : gmap string Position) (t : string) (x : Position) :
  m !! t = Some x ->
  positions_value prices m
  == marked_value prices (t, x) + positions_value prices (delete t m).
Proof.
  intros Hm. rewrite <- (insert_delete_id m t x Hm) at 1.
  apply positions_value_insert_fresh, lookup_delete_eq.
Qed.

Lemma positions_value_insert_over (prices : gmap string Q)
    (m : gmap string Position) (t : string) (x y : Position) :
  m !! t = Some x ->
  positions_value prices (<[t := y]> m)
  == positions_value prices m - marked_value prices (t, x)
     + marked_value prices (t, y).
Proof.
  intros Hm. rewrite (positions_value_delete prices m t x Hm).
  rewrite <- (insert_delete_eq m t y).
  rewrite positions_value_insert_fresh by apply lookup_delete_eq. ring.
Qed.

Lemma equity_value (prices : gmap string Q) (self : Portfolio) :
  equity prices self == cash self + positions_value prices (positions self).
Proof. apply equity_sum. Qed.

(** X6. An order executed at the price at which the ticker is marked moves
    value between cash, position and cost counters without creating or
    losing any: the equity at those marks plus the accumulated costs is the
    same after a buy or a sell as before it, however the order ends. *)
Theorem X6_trading_at_the_mark_conserves_equity_plus_costs
    (prices : gmap string Q) (o : order) (self : Portfolio) :
  prices !! match o with
            | Buy ticker _ _ _ _ => ticker
            | Sell ticker _ _ _ => ticker
            end
  = Some match o with
         | Buy _ price _ _ _ => price
         | Sell _ price _ _ => price
         end ->
  equity prices (final_state (place o self))
  + total_costs (final_state (place o self))
  == equity prices self + total_costs self.
Proof.
  intros Hmark. rewrite !equity_value.
  destruct o as [ticker price shares date name|ticker price shares date]; simpl.
  - assert (forall e n,
      cash (final_state (buy_fill ticker price e n date name self))
      + positions_value prices
          (positions (final_state (buy_fill ticker price e n date name self)))
      + total_costs (final_state (buy_fill ticker price e n date name self))
      == cash self + positions_value prices (positions self) + total_costs self)
      as Hfill.
    { intros e n. unfold total_costs; simpl.
      destruct (positions self !! ticker) as [pos|] eqn:Hpos.
      - rewrite (positions_value_insert_over prices _ ticker pos _ Hpos).
        unfold marked_value; simpl. rewrite Hmark.
        rewrite inject_Z_plus. ring.
      - rewrite (positions_value_insert_fresh prices _ ticker _ Hpos).
        unfold marked_value; simpl. rewrite Hmark. ring. }
    unfold buy.
    repeat match goal with
           | |- context [if ?b then _ else _] => destruct b
           end; simpl; try apply Hfill; reflexivity.
  - unfold sell. destruct (positions self !! ticker) as [pos|] eqn:Hpos;
      [|reflexivity].
    set (a := Z.min shares (pos_shares pos)).
    assert (forall ec pnl pct credited,
      positions credited = positions self ->
      positions_value prices
        (positions (final_state
           (sell_finish ticker date price
              (price * (1 - slippage_pct (cost self) / 100)) ec pnl pct pos a
              credited)))
      == positions_value prices (positions self) - price * inject_Z a) as Hfin.
    { intros ec pnl pct credited Hc. simpl. rewrite Hc.
      destruct (Z.leb_spec (pos_shares pos - a) 0) as [Hz|Hz].
      - assert (a = pos_shares pos) as Ha by (unfold a in *; lia).
        rewrite (positions_value_delete prices _ ticker pos Hpos).
        unfold marked_value; simpl. rewrite Hmark, Ha. ring.
      - rewrite (positions_value_insert_over prices _ ticker pos _ Hpos).
        unfold marked_value; simpl. rewrite Hmark.
        unfold Z.sub. rewrite inject_Z_plus, inject_Z_opp. ring. }
    destruct (Qltb 0 (pos_avg_price pos)) eqn:Havg.
    + destruct (Qeq_bool _ 0) eqn:Hz.
      * apply Qltb_lt in Havg. apply Qeq_bool_iff in Hz.
        apply Qmult_integral in Hz as [Hz|Hz];
          [rewrite Hz in Havg; by apply Qlt_irrefl in Havg|].
        fold a in Hz. unfold total_costs; simpl. fold a. rewrite Hz. ring.
      * rewrite Hfin by reflexivity. unfold total_costs; simpl. fold a. ring.
    + rewrite Hfin by reflexivity. unfold total_costs; simpl. fold a. ring.
Qed.

Lemma X6_trading_at_the_mark_witness :
  equity {["A" := 110]} (final_state (place (Sell "A" 110 4 "day2") ten_shares_held))
  + total_costs (final_state (place (Sell "A" 110 4 "day2") ten_shares_held))
  == equity {["A" := 110]} ten_shares_held + total_costs ten_shares_held.
Proof.
  apply X6_trading_at_the_mark_conserves_equity_plus_costs. reflexivity.
Defined.

(** * Price data *)

(** ** The order of date strings *)

Lemma string_compare_refl (s : string) : String.compare s s = Eq.
Proof.
  pose proof (String.compare_antisym s s) as H.
  destruct (String.compare s s); simpl in H; congruence.
Qed.

Lemma string_compare_lt_trans (a b c : string) :
  String.compare a b = Lt -> String.compare b c = Lt ->
  String.compare a c = Lt.
Proof.
  assert (forall x y, String.compare x y = OrdersEx.String_as_OT.compare x y)
    as Hbridge.
  { induction x as [|h x IH]; intros [|k y]; simpl; reflexivity. }
  rewrite !Hbridge. apply OrdersEx.String_as_OT.lt_strorder.
Qed.

Lemma string_leb_refl (s : string) : String.leb s s = true.
Proof. unfold String.leb. by rewrite string_compare_refl. Qed.

Lemma string_leb_false_lt (a b : string) :
  String.leb a b = false <-> String.compare b a = Lt.
Proof.
  unfold String.leb. rewrite (String.compare_antisym b a).
  destruct (String.compare a b); simpl; split; congruence.
Qed.

Lemma string_leb_trans (a b c : string) :
  String.leb a b = true -> String.leb b c = true -> String.leb a c = true.
Proof.
  unfold String.leb. intros Hab Hbc.
  destruct (String.compare a b) eqn:E1; [|clear Hab|discriminate].
  - apply String.compare_eq_iff in E1 as ->. exact Hbc.
  - destruct (String.compare b c) eqn:E2; [| |discriminate].
    + apply String.compare_eq_iff in E2 as <-. by rewrite E1.
    + by rewrite (string_compare_lt_trans a b c E1 E2).
Qed.

(** ** Registering a series *)

(** Rows in non-decreasing order of date. *)
Definition date_sorted (data : list PriceRow) : Prop :=
  Sorted (fun a b => String.leb (r_date a) (r_date b) = true) data.

Lemma insert_row_Permutation (r : PriceRow) (l : list PriceRow) :
  insert_row r l ≡ₚ r :: l.
Proof.
  induction l as [|y l IH]; simpl; [done|].
  destruct (String.leb (r_date r) (r_date y)); [done|].
  rewrite IH. apply Permutation_swap.
Qed.

Lemma insert_row_sorted (r : PriceRow) (l : list PriceRow) :
  date_sorted l -> date_sorted (insert_row r l).
Proof.
  unfold date_sorted. induction l as [|y l IH]; intros Hs; simpl.
  - repeat constructor.
  - destruct (String.leb (r_date r) (r_date y)) eqn:Hle.
    + constructor; [exact Hs|]. by constructor.
    + apply Sorted_inv in Hs as [Hs Hhd]. constructor; [by apply IH|].
      destruct l as [|z l]; simpl.
      * constructor. destruct (String.leb_total (r_date y) (r_date r)); congruence.
      * destruct (String.leb (r_date r) (r_date z)).
        -- constructor.
           destruct (String.leb_total (r_date y) (r_date r)); congruence.
        -- constructor. by apply HdRel_inv in Hhd.
Qed.

(** The rows of one date, in the order in which they stand. *)
Definition rows_of_date (d : string) (l : list PriceRow) : list PriceRow :=
  List.filter (fun r => String.eqb (r_date r) d) l.

Lemma insert_row_stable (d : string) (r : PriceRow) (l : list PriceRow) :
  rows_of_date d (insert_row r l) = rows_of_date d (r :: l).
Proof.
  unfold rows_of_date.
  induction l as [|y l IH]; simpl in *; [done|].
  destruct (String.leb (r_date r) (r_date y)) eqn:Hle; [done|].
  simpl. rewrite IH.
  destruct (String.eqb (r_date r) d) eqn:Hr; [|done].
  destruct (String.eqb (r_date y) d) eqn:Hy; [|done].
  apply String.eqb_eq in Hr, Hy. rewrite Hr, Hy, string_leb_refl in Hle.
  discriminate.
Qed.

Lemma sorted_by_date_spec (data : list PriceRow) :
  sorted_by_date data ≡ₚ data /\ date_sorted (sorted_by_date data) /\
  (forall d, rows_of_date d (sorted_by_date data) = rows_of_date d data).
Proof.
  induction data as [|r data (IH1 & IH2 & IH3)]; simpl.
  - split; [done|]. split; [constructor|done].
  - split; [by rewrite insert_row_Permutation, IH1|].
    split; [by apply insert_row_sorted|].
    intros d. rewrite insert_row_stable. unfold rows_of_date in *. simpl.
    by rewrite IH3.
Qed.

(** X7. [add_price_data] stores under the ticker the supplied rows sorted
    by date: the same rows, in non-decreasing order of date, rows of equal
    date in the order supplied; it replaces whatever series the ticker had,
    leaves the series of every other ticker as it was, and registers the
    display name only when one is given. *)
Theorem X7_add_price_data_stores_sorted_series (ticker : string)
    (data : list PriceRow) (name : string) (self : BacktestEngine) :
  exists stored,
    price_data (add_price_data ticker data name self) !! ticker = Some stored /\
    stored ≡ₚ data /\ date_sorted stored /\
    (forall d, rows_of_date d stored = rows_of_date d data) /\
    (forall other, other <> ticker ->
       price_data (add_price_data ticker data name self) !! other
       = price_data self !! other) /\
    ticker_names (add_price_data ticker data name self) !! ticker
    = (if String.eqb name "" then ticker_names self !! ticker else Some name) /\
    portfolio (add_price_data ticker data name self) = portfolio self.
Proof.
  exists (sorted_by_date data). simpl.
  destruct (sorted_by_date_spec data) as (H1 & H2 & H3).
  split; [apply lookup_insert_eq|]. split; [exact H1|]. split; [exact H2|].
  split; [exact H3|]. split.
  - intros other Hne. by apply lookup_insert_ne.
  - split; [|reflexivity].
    destruct (String.eqb name ""); [reflexivity|apply lookup_insert_eq].
Qed.

(** ** The trading dates *)

Definition strictly_increasing (l : list string) : Prop :=
  StronglySorted (fun a b => String.compare a b = Lt) l.

Lemma add_date_elem (d x : string) (l : list string) :
  x ∈ add_date d l <-> x = d \/ x ∈ l.
Proof.
  induction l as [|y l IH]; simpl.
  - rewrite list_elem_of_singleton, elem_of_nil. tauto.
  - destruct (String.compare d y) eqn:E.
    + apply String.compare_eq_iff in E as ->. rewrite elem_of_cons. tauto.
    + rewrite !elem_of_cons. tauto.
    + rewrite !elem_of_cons, IH. tauto.
Qed.

Lemma add_date_increasing (d : string) (l : list string) :
  strictly_increasing l -> strictly_increasing (add_date d l).
Proof.
  unfold strictly_increasing. induction l as [|y l IH]; intros Hs; simpl.
  - repeat constructor.
  - apply StronglySorted_inv in Hs as [Hs Hall].
    destruct (String.compare d y) eqn:E.
    + by constructor.
    + constructor; [by constructor|]. constructor; [exact E|].
      eapply Forall_impl; [exact Hall|]. intros z Hz. simpl in Hz.
      by eapply string_compare_lt_trans.
    + constructor; [by apply IH|].
      apply Forall_forall. intros z Hz. apply add_date_elem in Hz as [->|Hz].
      * rewrite String.compare_antisym, E. reflexivity.
      * eapply Forall_forall in Hall; [exact Hall|exact Hz].
Qed.

Lemma add_dates_spec (ds acc : list string) :
  strictly_increasing acc ->
  strictly_increasing (foldr add_date acc ds) /\
  (forall x, x ∈ foldr add_date acc ds <-> x ∈ ds \/ x ∈ acc).
Proof.
  intros Hacc. induction ds as [|d ds (IH1 & IH2)]; simpl.
  - split; [exact Hacc|]. intros x. rewrite elem_of_nil. tauto.
  - split; [by apply add_date_increasing|].
    intros x. rewrite add_date_elem, IH2, elem_of_cons. tauto.
Qed.

Lemma build_dates_fold_spec (l : list (string * list PriceRow)) :
  let dates := foldr (uncurry (fun (_ : string) ticker_data dates =>
                         foldr add_date dates (map r_date ticker_data))) [] l in
  strictly_increasing dates /\
  (forall d, d ∈ dates <->
             exists t data row, (t, data) ∈ l /\ row ∈ data /\ r_date row = d).
Proof.
  induction l as [|[t data] l IH]; simpl in *.
  - split; [constructor|]. intros d. rewrite elem_of_nil. split; [done|].
    intros (t & data & row & H & _). by apply elem_of_nil in H.
  - destruct IH as [IH1 IH2].
    destruct (add_dates_spec (map r_date data) _ IH1) as [H1 H2].
    split; [exact H1|]. intros d. rewrite H2, IH2. split.
    + intros [Hd|(t' & data' & row & Hin & Hrow & Hdate)].
      * apply list_elem_of_fmap in Hd as (row & -> & Hrow).
        exists t, data, row. split; [by left|done].
      * exists t', data', row. split; [by right|done].
    + intros (t' & data' & row & Hin & Hrow & Hdate).
      apply elem_of_cons in Hin as [[= -> ->]|Hin].
      * left. apply list_elem_of_fmap. by exists row.
      * right. by exists t', data', row.
Qed.

(** X8. The trading dates that [_build_dates] collects are strictly
    increasing (sorted, no date twice) and are exactly the dates that occur
    in a row of some registered series; in particular the list is empty
    exactly when no series has a row. *)
Theorem X8_build_dates_sorted_union (self : BacktestEngine) :
  strictly_increasing (_build_dates self) /\
  (forall d, d ∈ _build_dates self <->
             exists ticker data row,
               price_data self !! ticker = Some data /\ row ∈ data /\
               r_date row = d) /\
  (_build_dates self = [] <->
   forall ticker data, price_data self !! ticker = Some data -> data = []).
Proof.
  unfold _build_dates. rewrite map_fold_foldr.
  destruct (build_dates_fold_spec (map_to_list (price_data self))) as [H1 H2].
  assert (forall d,
    d ∈ foldr (uncurry (fun (_ : string) ticker_data dates =>
                  foldr add_date dates (map r_date ticker_data))) []
          (map_to_list (price_data self)) <->
    exists ticker data row,
      price_data self !! ticker = Some data /\ row ∈ data /\ r_date row = d)
    as Hmem.
  { intros d. rewrite H2. split; intros (t & data & row & Hin & Hr);
      exists t, data, row; (split; [|exact Hr]);
      by apply elem_of_map_to_list. }
  split; [exact H1|]. split; [exact Hmem|]. split.
  - intros Hnil ticker data Hdata. destruct data as [|row data]; [done|].
    exfalso. assert (r_date row ∈ @nil string) as Hbad; [|by apply elem_of_nil in Hbad].
    rewrite <- Hnil. apply Hmem. exists ticker, (row :: data), row.
    split; [exact Hdata|]. split; [by left|done].
  - intros Hempty. apply elem_of_nil_inv. intros d Hd.
    apply Hmem in Hd as (t & data & row & Hdata & Hrow & _).
    rewrite (Hempty t data Hdata) in Hrow. by apply elem_of_nil in Hrow.
Qed.

(** ** The last known price *)

Lemma last_close_sorted (data : list PriceRow) (date : string) :
  date_sorted data ->
  forall init : option Q,
    last_close data date init
    = match last (List.filter (fun row => String.leb (r_date row) date) data) with
      | Some row => Some (r_close row)
      | None => init
      end.
Proof.
  intros Hs. apply Sorted_StronglySorted in Hs.
  2: { intros a b c. apply string_leb_trans. }
  induction Hs as [|row data Hs IH Hall]; intros init; simpl; [done|].
  destruct (String.leb (r_date row) date) eqn:Hle.
  - rewrite IH, (last_cons row). by destruct (last _).
  - assert (Forall (fun z => String.leb (r_date z) date = false) data) as Hlater.
    { eapply Forall_impl; [exact Hall|]. intros z Hz. simpl in Hz.
      destruct (String.leb (r_date z) date) eqn:Hzd; [|done].
      rewrite (string_leb_trans _ _ _ Hz Hzd) in Hle. discriminate. }
    assert (List.filter (fun row => String.leb (r_date row) date) data = []) as ->;
      [|done].
    clear -Hlater. induction Hlater as [|z data Hz _ IH]; simpl; [done|].
    by rewrite Hz.
Qed.

Lemma last_close_source (data : list PriceRow) (date : string) :
  forall (init : option Q) (c : Q),
    last_close data date init = Some c ->
    init = Some c \/
    exists row, row ∈ data /\ String.leb (r_date row) date = true /\
                r_close row = c.
Proof.
  induction data as [|row data IH]; intros init c H; simpl in H; [by left|].
  destruct (String.leb (r_date row) date) eqn:Hle; [|by left].
  apply IH in H as [[= <-]|(r & Hr & Hd & Hc)]; right.
  - exists row. split; [by left|done].
  - exists r. split; [by right|done].
Qed.

(** X9. [_last_known_prices] never looks ahead: a price it reports for a
    ticker is the close of a row of that ticker's series dated on or before
    the date asked for.  For a series sorted by date it is the close of the
    last such row, and the ticker is absent from the result exactly when
    every row is later; a ticker without a series is absent. *)
Theorem X9_last_known_price_is_latest_close_not_after (self : BacktestEngine)
    (date ticker : string) :
  (forall c, _last_known_prices self date !! ticker = Some c ->
             exists data row,
               price_data self !! ticker = Some data /\ row ∈ data /\
               String.leb (r_date row) date = true /\ r_close row = c) /\
  (forall data, price_data self !! ticker = Some data -> date_sorted data ->
     _last_known_prices self date !! ticker
     = r_close <$> last (List.filter
                           (fun row => String.leb (r_date row) date) data)) /\
  (price_data self !! ticker = None ->
   _last_known_prices self date !! ticker = None).
Proof.
  unfold _last_known_prices. rewrite lookup_omap.
  split; [|split].
  - intros c H. destruct (price_data self !! ticker) as [data|]; [|done].
    simpl in H. apply last_close_source in H as [[=]|(row & H1 & H2 & H3)].
    by exists data, row.
  - intros data -> Hs. simpl. rewrite (last_close_sorted data date Hs).
    by destruct (last _).
  - by intros ->.
Qed.

Lemma X9_last_known_price_witness :
  _last_known_prices three_day_engine "2024-01-02" !! "A" = Some 120.
Proof.
  destruct (X9_last_known_price_is_latest_close_not_after three_day_engine
              "2024-01-02" "A") as (_ & H & _).
  rewrite (H (sorted_by_date
                [flat_row "2024-01-01" 100; flat_row "2024-01-02" 120;
                 flat_row "2024-01-03" 90])).
  - reflexivity.
  - reflexivity.
  - apply sorted_by_date_spec.
Defined.

(** * Further properties of the trailing-stop strategy *)

Lemma keeps_and {S A} (P Q : S -> Prop) (m : M S A) :
  keeps P m -> keeps Q m -> keeps (fun s => P s /\ Q s) m.
Proof. intros HP HQ s [Hp Hq]. split; [by apply HP|by apply HQ]. Qed.

Lemma keeps_put {S} (P : S -> Prop) (s' : S) : P s' -> keeps P (put s').
Proof. intros H s _. exact H. Qed.

(** A property of the portfolio alone, kept by a portfolio method, is kept
    by the call of that method from the strategy. *)
Lemma keeps_on_portfolio {A} (P : Portfolio -> Prop) (m : M Portfolio A) :
  keeps P m -> keeps (fun st => P (rs_portfolio st)) (on_portfolio m).
Proof.
  intros Hm st Hst. unfold on_portfolio. specialize (Hm _ Hst).
  by destruct (m (rs_portfolio st)).
Qed.

Section TrailingStopMore.

Variable fl : Q -> Q.
Variable stdev : list Q -> Q.
Variable self : BacktestEngine.
Variables (lookback : Z) (stop_pct : Q) (cooldown : Z) (reentry : bool).

(** The state after the initialisation loop. *)
Lemma init_locals_spec (valid : list string) (t : string) :
  let st := init_locals self cooldown valid in
  rs_portfolio st = portfolio self /\ peaks st = ∅ /\
  initial_buy_done st = false /\
  (t ∈ valid ->
   holding st !! t = Some false /\ sold_day st !! t = Some (- cooldown - 1)%Z) /\
  (t ∉ valid -> holding st !! t = None /\ sold_day st !! t = None).
Proof.
  unfold init_locals.
  set (f := fun (st : RunState) (t : string) =>
              {| rs_portfolio := rs_portfolio st; peaks := peaks st;
                 sold_day := <[t := (- cooldown - 1)%Z]> (sold_day st);
                 holding := <[t := false]> (holding st);
                 initial_buy_done := initial_buy_done st |}).
  assert (forall l acc,
    rs_portfolio (foldl f acc l) = rs_portfolio acc /\
    peaks (foldl f acc l) = peaks acc /\
    initial_buy_done (foldl f acc l) = initial_buy_done acc /\
    (t ∈ l -> holding (foldl f acc l) !! t = Some false /\
              sold_day (foldl f acc l) !! t = Some (- cooldown - 1)%Z) /\
    (t ∉ l -> holding (foldl f acc l) !! t = holding acc !! t /\
              sold_day (foldl f acc l) !! t = sold_day acc !! t)) as H.
  { induction l as [|u l IH]; intros acc; simpl.
    - split; [done|]. split; [done|]. split; [done|]. split; [|done].
      intros Hin. by apply elem_of_nil in Hin.
    - destruct (IH (f acc u)) as (H1 & H2 & H3 & H4 & H5).
      split; [exact H1|]. split; [exact H2|]. split; [exact H3|]. split.
      + intros Hin. destruct (decide (t ∈ l)) as [Hl|Hl]; [by apply H4|].
        apply elem_of_cons in Hin as [->|Hin]; [|done].
        destruct (H5 Hl) as [-> ->]. simpl. by rewrite !lookup_insert_eq.
      + intros Hnin. apply not_elem_of_cons in Hnin as [Hne Hl].
        destruct (H5 Hl) as [-> ->]. simpl. by rewrite !lookup_insert_ne. }
  destruct (H valid {| rs_portfolio := portfolio self; peaks := ∅;
                       sold_day := ∅; holding := ∅;
                       initial_buy_done := false |})
    as (H1 & H2 & H3 & H4 & H5).
  simpl in *. split; [exact H1|]. split; [exact H2|]. split; [exact H3|].
  split; [exact H4|]. intros Hn. destruct (H5 Hn) as [-> ->].
  by rewrite !lookup_empty.
Qed.

(** X10. On the first day every ticker of the valid list whose last known
    price is positive is a buying candidate, whatever the cooldown and the
    re-entry setting: the initial [sold_day] of [-cooldown - 1] lies just
    outside the cooldown.  A ticker with no price yet, or a price that is
    not positive, is not a candidate. *)
Theorem X10_first_day_candidates (valid : list string) (prices : gmap string Q)
    (t : string) :
  t ∈ valid ->
  is_buyable cooldown reentry prices 0 (init_locals self cooldown valid) t
  = Value match prices !! t with
          | Some p => Qltb 0 p
          | None => false
          end.
Proof.
  intros Hin.
  destruct (init_locals_spec valid t) as (_ & _ & Hdone & Hval & _).
  destruct (Hval Hin) as [Hh Hs].
  unfold is_buyable. rewrite Hh, Hs, Hdone, andb_false_r.
  destruct (Z.leb_spec (0 - (- cooldown - 1)) cooldown); [lia|].
  by destruct (prices !! t).
Qed.

(** ** Re-entry switched off *)

Lemma stop_check_keeps_buy_done (prices : gmap string Q) (i : Z)
    (date u : string) :
  keeps (fun st => initial_buy_done st = true)
    (stop_check fl stop_pct prices i date u).
Proof.
  unfold stop_check. apply keeps_bind_get. intros st Hst.
  apply keeps_bind; [apply keeps_dict_get|]. intros held.
  destruct (negb held); [apply keeps_ret|].
  destruct (prices !! u) as [p|]; [|apply keeps_ret].
  apply keeps_bind; [by apply keeps_put|]. intros _.
  destruct (Qltb 0 _); [|apply keeps_ret].
  destruct (Qle_bool _ stop_pct); [|apply keeps_ret].
  apply keeps_bind; [|intros _; by apply keeps_modify].
  destruct (positions (rs_portfolio st) !! u) as [pos|]; [|apply keeps_ret].
  apply keeps_bind; [|intros _; apply keeps_ret].
  intros s Hs. unfold on_portfolio.
  by destruct (sell u p (pos_shares pos) date (rs_portfolio s)).
Qed.

Lemma buy_weighted_keeps_buy_done (prices inv_vols : gmap string Q)
    (total_inv available : Q) (n : nat) (date u : string) :
  keeps (fun st => initial_buy_done st = true)
    (buy_weighted self prices inv_vols total_inv available n date u).
Proof.
  unfold buy_weighted.
  apply keeps_bind.
  { destruct (Qltb 0 total_inv); [|apply keeps_py_div].
    apply keeps_bind; [apply keeps_dict_get|]. intros iv. apply keeps_py_div. }
  intros w. destruct (Qle_bool _ 0); [apply keeps_ret|].
  apply keeps_bind; [apply keeps_dict_get|]. intros p.
  apply keeps_bind; [apply keeps_py_div|]. intros q.
  destruct (0 <? py_int q)%Z; [|apply keeps_ret].
  apply keeps_bind.
  { intros s Hs. unfold on_portfolio. by destruct (buy _ _ _ _ _ _). }
  intros bought. destruct (0 <? bought)%Z; [|apply keeps_ret].
  by apply keeps_modify.
Qed.

(** With re-entry off, a ticker stopped out on a day of the run is no
    buying candidate once a first buy was made. *)
Lemma no_reentry_not_buyable (prices : gmap string Q) (i i0 : Z) (t : string)
    (st : RunState) (valid buyable : list string) :
  reentry = false -> (0 <= i0)%Z ->
  stopped_out t i0 st -> initial_buy_done st = true ->
  collect_buyable cooldown reentry prices i st valid = Value buyable ->
  t ∉ buyable.
Proof.
  intros -> Hi0 (Hh & Hs & _) Hdone. revert buyable.
  induction valid as [|u valid IH]; simpl; intros buyable Hb.
  - injection Hb as <-. apply not_elem_of_nil.
  - destruct (is_buyable cooldown false prices i st u) as [b|e] eqn:Hu;
      simpl in Hb; [|discriminate].
    destruct (collect_buyable cooldown false prices i st valid) as [l|e];
      simpl in Hb; [|discriminate].
    injection Hb as <-. specialize (IH l eq_refl).
    destruct b; [|exact IH].
    apply not_elem_of_cons. split; [|exact IH].
    intros ->. unfold is_buyable in Hu. rewrite Hh, Hs, Hdone in Hu.
    simpl in Hu. destruct (Z.leb_spec 0 i0); [discriminate|lia].
Qed.

Lemma day_step_keeps_out_without_reentry (valid : list string) (i i0 : Z)
    (date t : string) :
  reentry = false -> (0 <= i0)%Z ->
  keeps (fun st => stopped_out t i0 st /\ initial_buy_done st = true)
    (day_step fl stdev self lookback stop_pct cooldown reentry valid i date).
Proof.
  intros Hre Hi0. unfold day_step.
  apply keeps_bind.
  { apply keeps_and; [apply stop_loop_keeps_stopped_out|].
    apply keeps_for_each. intros u _. apply stop_check_keeps_buy_done. }
  intros _. apply keeps_bind; [|intros _; intros st Hst; exact Hst].
  unfold buy_phase. apply keeps_bind_get. intros st [Hst Hdone].
  apply keeps_bind_lift. intros buyable Hb.
  pose proof (no_reentry_not_buyable _ _ _ _ _ _ _ Hre Hi0 Hst Hdone Hb) as Hnot.
  destruct buyable as [|b0 buyable]; [apply keeps_ret|].
  apply keeps_bind; [apply keeps_lift|]. intros inv_vols.
  apply keeps_bind_get. intros st' _.
  apply keeps_for_each. intros u Hu. apply keeps_and.
  - apply buy_weighted_keeps_stopped_out. intros ->. by apply Hnot.
  - apply buy_weighted_keeps_buy_done.
Qed.

(** X11. With re-entry switched off, a ticker that was stopped out on a day
    of the run, after the first buy of the run, is never bought again: it
    stays out of the positions on every later day, however long the run and
    whatever the cooldown. *)
Theorem X11_no_reentry_is_permanent (valid : list string) (t : string)
    (i0 : Z) (dates : list string) (i : Z) (st : RunState) :
  reentry = false -> (0 <= i0)%Z ->
  holding st !! t = Some false -> sold_day st !! t = Some i0 ->
  positions (rs_portfolio st) !! t = None ->
  initial_buy_done st = true ->
  let st' := final_state
               (run_days fl stdev self lookback stop_pct cooldown reentry
                  valid i dates st) in
  holding st' !! t = Some false /\ sold_day st' !! t = Some i0 /\
  positions (rs_portfolio st') !! t = None.
Proof.
  intros Hre Hi0 H1 H2 H3 H4.
  assert (forall dates i,
    keeps (fun st => stopped_out t i0 st /\ initial_buy_done st = true)
      (run_days fl stdev self lookback stop_pct cooldown reentry valid i dates))
    as Hrun.
  { clear dates i. induction dates as [|date dates IH]; intros i; simpl.
    - apply keeps_ret.
    - apply keeps_bind; [by apply day_step_keeps_out_without_reentry|].
      intros _. apply IH. }
  apply (Hrun dates i st). by repeat split.
Qed.

End TrailingStopMore.

Lemma X10_first_day_candidates_witness :
  is_buyable 5 true {["A" := 100]} 0 (init_locals three_day_engine 5 ["A"]) "A"
  = Value true.
Proof.
  rewrite (X10_first_day_candidates three_day_engine 5 true ["A"]
             {["A" := 100]} "A"); [reflexivity|by left].
Defined.

Lemma X11_no_reentry_is_permanent_witness :
  let st := {| rs_portfolio := Portfolio_init 1000 (mkCostConfig 0 0 0);
               peaks := {["A" := 120]}; sold_day := {["A" := 2%Z]};
               holding := {["A" := false]}; initial_buy_done := true |} in
  positions
    (rs_portfolio
       (final_state
          (run_days fl64 (fun _ => 1) three_day_engine 20 (-10) 0 false ["A"] 3
             ["2024-01-04"; "2024-01-05"] st))) !! "A" = None.
Proof.
  intros st.
  apply (X11_no_reentry_is_permanent fl64 (fun _ => 1) three_day_engine 20 (-10) 0
           false ["A"] "A" 2 ["2024-01-04"; "2024-01-05"] 3 st);
    reflexivity || discriminate.
Defined.

(** ** One snapshot per trading day *)

Lemma buy_keeps_history (ticker : string) (price : Q) (shares : Z)
    (date name : string) (h : list Snapshot) :
  keeps (fun p => equity_history p = h) (buy ticker price shares date name).
Proof.
  intros self Hh. unfold buy.
  repeat match goal with
         | |- context [if ?b then _ else _] => destruct b
         end; simpl; exact Hh.
Qed.

Lemma sell_keeps_history (ticker : string) (price : Q) (shares : Z)
    (date : string) (h : list Snapshot) :
  keeps (fun p => equity_history p = h) (sell ticker price shares date).
Proof.
  intros self Hh. unfold sell.
  destruct (positions self !! ticker) as [pos|]; [|exact Hh].
  destruct (Qltb 0 (pos_avg_price pos)); [destruct (Qeq_bool _ 0)|];
    simpl; exact Hh.
Qed.

(** The dates of the snapshots recorded so far. *)
Definition history_dates (st : RunState) : list string :=
  map snap_date (equity_history (rs_portfolio st)).

(** The dates the run iterates over, as the method selects them. *)
Definition date_window (self : BacktestEngine) (start_date end_date : option string)
    : list string :=
  match _build_dates self with
  | [] => []
  | first_date :: _ =>
      let start := str_or start_date first_date in
      let end_ := str_or end_date (List.last (_build_dates self) first_date) in
      List.filter (fun d => String.leb start d && String.leb d end_)
        (_build_dates self)
  end.

(** The tickers the run trades: those with a non-empty series. *)
Definition valid_tickers (self : BacktestEngine) (tickers : list string)
    : list string :=
  List.filter (fun t => match price_data self !! t with
                        | Some (_ :: _) => true
                        | _ => false
                        end) tickers.

Lemma build_dates_increasing (self : BacktestEngine) :
  strictly_increasing (_build_dates self).
Proof.
  unfold _build_dates. rewrite map_fold_foldr.
  apply (build_dates_fold_spec (map_to_list (price_data self))).
Qed.

Lemma strictly_increasing_filter (f : string -> bool) (l : list string) :
  strictly_increasing l -> strictly_increasing (List.filter f l).
Proof.
  unfold strictly_increasing. induction 1 as [|x l Hs IH Hall]; simpl.
  - constructor.
  - destruct (f x); [|exact IH]. constructor; [exact IH|].
    apply Forall_forall. intros y Hy.
    apply list_elem_of_In, filter_In in Hy as [Hy _].
    eapply Forall_forall in Hall; [exact Hall|]. by apply list_elem_of_In.
Qed.

Section SnapshotPerDay.

Variable fl : Q -> Q.
Variable stdev : list Q -> Q.
Variable self : BacktestEngine.
Variables (lookback : Z) (stop_pct : Q) (cooldown : Z) (reentry : bool).

Let same_history (h : list Snapshot) (st : RunState) : Prop :=
  equity_history (rs_portfolio st) = h.

Lemma stop_check_keeps_history (prices : gmap string Q) (i : Z)
    (date u : string) (h : list Snapshot) :
  keeps (same_history h) (stop_check fl stop_pct prices i date u).
Proof.
  unfold stop_check. apply keeps_bind_get. intros st Hst.
  apply keeps_bind; [apply keeps_dict_get|]. intros held.
  destruct (negb held); [apply keeps_ret|].
  destruct (prices !! u) as [p|]; [|apply keeps_ret].
  apply keeps_bind; [by apply keeps_put|]. intros _.
  destruct (Qltb 0 _); [|apply keeps_ret].
  destruct (Qle_bool _ stop_pct); [|apply keeps_ret].
  apply keeps_bind; [|intros _; by apply keeps_modify].
  destruct (positions (rs_portfolio st) !! u) as [pos|]; [|apply keeps_ret].
  apply keeps_bind; [|intros _; apply keeps_ret].
  apply (keeps_on_portfolio (fun p => equity_history p = h)).
  apply sell_keeps_history.
Qed.

Lemma buy_weighted_keeps_history (prices inv_vols : gmap string Q)
    (total_inv available : Q) (n : nat) (date u : string) (h : list Snapshot) :
  keeps (same_history h)
    (buy_weighted self prices inv_vols total_inv available n date u).
Proof.
  unfold buy_weighted.
  apply keeps_bind.
  { destruct (Qltb 0 total_inv); [|apply keeps_py_div].
    apply keeps_bind; [apply keeps_dict_get|]. intros iv. apply keeps_py_div. }
  intros w. destruct (Qle_bool _ 0); [apply keeps_ret|].
  apply keeps_bind; [apply keeps_dict_get|]. intros p.
  apply keeps_bind; [apply keeps_py_div|]. intros q.
  destruct (0 <? py_int q)%Z; [|apply keeps_ret].
  apply keeps_bind.
  { apply (keeps_on_portfolio (fun p => equity_history p = h)).
    apply buy_keeps_history. }
  intros bought. destruct (0 <? bought)%Z; [|apply keeps_ret].
  by apply keeps_modify.
Qed.

Lemma buy_phase_keeps_history (valid : list string) (i : Z) (date : string)
    (h : list Snapshot) :
  keeps (same_history h)
    (buy_phase stdev self lookback cooldown reentry valid i date).
Proof.
  unfold buy_phase. apply keeps_bind_get. intros st Hst.
  apply keeps_bind; [apply keeps_lift|]. intros buyable.
  destruct buyable as [|b0 buyable]; [apply keeps_ret|].
  apply keeps_bind; [apply keeps_lift|]. intros inv_vols.
  apply keeps_bind_get. intros st' _.
  apply keeps_for_each. intros u _. apply buy_weighted_keeps_history.
Qed.

(** A day that ends normally adds the snapshot of its date; a day cut short
    by an exception adds none. *)
Lemma day_step_history (valid : list string) (i : Z) (date : string)
    (st : RunState) :
  match day_step fl stdev self lookback stop_pct cooldown reentry valid i date st with
  | Returned _ st' => history_dates st' = history_dates st ++ [date]
  | Raised _ st' => history_dates st' = history_dates st
  end.
Proof.
  unfold day_step, bind.
  pose proof (keeps_for_each (same_history (equity_history (rs_portfolio st)))
                valid (stop_check fl stop_pct (_last_known_prices self date) i date)
                (fun u _ => stop_check_keeps_history _ i date u _) st eq_refl)
    as H1.
  destruct (for_each valid _ st) as [[] st1|e st1]; simpl in H1;
    [|unfold history_dates; by rewrite H1].
  pose proof (buy_phase_keeps_history valid i date _ st1 H1) as H2.
  destruct (buy_phase _ _ _ _ _ _ _ _ st1) as [[] st2|e st2]; simpl in H2;
    [|unfold history_dates; by rewrite H2].
  unfold on_portfolio, snapshot, history_dates; simpl.
  rewrite H2, map_app. reflexivity.
Qed.

Lemma run_days_history (valid dates : list string) :
  forall (i : Z) (st : RunState),
    exists recorded,
      history_dates
        (final_state (run_days fl stdev self lookback stop_pct cooldown reentry
                        valid i dates st))
      = history_dates st ++ recorded /\
      recorded `prefix_of` dates /\
      (forall st', run_days fl stdev self lookback stop_pct cooldown reentry
                     valid i dates st = Returned tt st' -> recorded = dates).
Proof.
  induction dates as [|date dates IH]; intros i st; simpl.
  - exists []. split; [by rewrite app_nil_r|]. split; [done|]. done.
  - unfold bind. pose proof (day_step_history valid i date st) as Hday.
    destruct (day_step _ _ _ _ _ _ _ valid i date st) as [[] st1|e st1].
    + destruct (IH (i + 1)%Z st1) as (rec & Hrec & Hpre & Hret).
      exists (date :: rec). rewrite Hrec, Hday, <- (assoc_L (++)).
      split; [done|]. split; [by apply prefix_cons|].
      intros st' Hrun. by rewrite (Hret st' Hrun).
    + exists []. simpl. rewrite Hday, app_nil_r.
      split; [done|]. split; [apply prefix_nil|]. discriminate.
Qed.

(** X12. [run_volatility_trailing_stop] records the equity once per trading
    day and in date order: the dates of the snapshots it adds to the
    history form a strictly increasing list, a prefix of the selected date
    window, and the whole window when the method returns with at least one
    valid ticker; with no valid ticker nothing is recorded. *)
Theorem X12_one_snapshot_per_trading_day (tickers : list string)
    (start_date end_date : option string) :
  let o := run_volatility_trailing_stop fl stdev self lookback stop_pct cooldown
             reentry tickers start_date end_date in
  exists recorded,
    map snap_date (equity_history (rs_portfolio (final_state o)))
    = map snap_date (equity_history (portfolio self)) ++ recorded /\
    recorded `prefix_of` date_window self start_date end_date /\
    strictly_increasing recorded /\
    (forall st, o = Returned tt st -> valid_tickers self tickers <> [] ->
                recorded = date_window self start_date end_date) /\
    (valid_tickers self tickers = [] -> recorded = []).
Proof.
  intros o.
  assert (strictly_increasing (date_window self start_date end_date)) as Hinc.
  { unfold date_window.
    pose proof (build_dates_increasing self) as Hs.
    destruct (_build_dates self) eqn:E; [constructor|].
    rewrite <- E. apply strictly_increasing_filter. by rewrite E. }
  assert (forall recorded,
            recorded `prefix_of` date_window self start_date end_date ->
            strictly_increasing recorded) as Hpre_inc.
  { intros recorded [k Hk]. rewrite Hk in Hinc.
    by apply StronglySorted_app_1_l in Hinc. }
  unfold o, run_volatility_trailing_stop.
  fold (valid_tickers self tickers).
  assert (exists recorded,
    map snap_date (equity_history (rs_portfolio (init_locals self cooldown [])))
    = map snap_date (equity_history (portfolio self)) ++ recorded /\
    recorded = []) as Hnone by (exists []; by rewrite app_nil_r).
  unfold date_window in *.
  destruct (_build_dates self) as [|first_date rest] eqn:Hdates.
  - exists []. simpl. rewrite app_nil_r.
    split; [done|]. split; [done|]. split; [constructor|]. done.
  - set (window := List.filter _ (first_date :: rest)) in *.
    destruct (valid_tickers self tickers) as [|v valid] eqn:Hvalid.
    + exists []. simpl. rewrite app_nil_r.
      split; [done|]. split; [apply prefix_nil|]. split; [constructor|].
      split; [intros _ _ H; by destruct H|done].
    + destruct window as [|d window'] eqn:Hwin.
      * exists []. simpl. rewrite app_nil_r.
        split; [done|]. split; [done|]. split; [constructor|]. done.
      * destruct (run_days_history (v :: valid) (d :: window') 0
                    (init_locals self cooldown (v :: valid)))
          as (recorded & Hrec & Hpre & Hret).
        exists recorded. unfold history_dates in Hrec. rewrite Hrec.
        destruct (init_locals_spec self cooldown (v :: valid) v) as (-> & _).
        split; [done|]. split; [exact Hpre|]. split; [by apply Hpre_inc|].
        split; [|discriminate]. intros st Hst _. by apply (Hret st).
Qed.

End SnapshotPerDay.

(** * The benchmark comparison *)




(** * Prices of the day *)

Lemma string_leb_antisym (a b : string) :
  String.leb a b = true -> String.leb b a = true -> a = b.
Proof.
  unfold String.leb. rewrite (String.compare_antisym b a).
  destruct (String.compare a b) eqn:E; simpl; try discriminate.
  intros _ _. by apply String.compare_eq_iff.
Qed.

Lemma price_index_lookup (data : list PriceRow) (d : string) :
  forall idx : gmap string PriceRow,
    foldl (fun idx row => <[r_date row := row]> idx) idx data !! d
    = match last (List.filter (fun row => String.eqb (r_date row) d) data) with
      | Some row => Some row
      | None => idx !! d
      end.
Proof.
  induction data as [|row data IH]; intros idx; simpl; [done|].
  rewrite IH. destruct (String.eqb (r_date row) d) eqn:E.
  - apply String.eqb_eq in E. rewrite (last_cons row).
    destruct (last _); [done|]. subst d. by rewrite lookup_insert_eq.
  - destruct (last _); [done|]. rewrite lookup_insert_ne; [done|].
    intros Heq. rewrite Heq, String.eqb_refl in E. discriminate.
Qed.

Lemma last_close_on_row_date (data : list PriceRow) (d : string) :
  date_sorted data ->
  forall (init : option Q) (row : PriceRow),
    last (List.filter (fun row => String.eqb (r_date row) d) data) = Some row ->
    last_close data d init = Some (r_close row).
Proof.
  intros Hs. apply Sorted_StronglySorted in Hs.
  2: { intros a b c. apply string_leb_trans. }
  induction Hs as [|r data Hs IH Hall]; intros init row Hlast; simpl in *;
    [done|].
  destruct (last (List.filter (fun row => String.eqb (r_date row) d) data))
    as [r'|] eqn:Hrest.
  - assert (row = r') as ->.
    { destruct (String.eqb (r_date r) d); [|congruence].
      rewrite (last_cons r), Hrest in Hlast. congruence. }
    assert (String.leb (r_date r) d = true) as ->.
    { apply last_Some_elem_of, list_elem_of_In, filter_In in Hrest as [Hin Hd].
      apply String.eqb_eq in Hd as <-.
      eapply Forall_forall in Hall; [exact Hall|]. by apply list_elem_of_In. }
    by apply IH.
  - destruct (String.eqb (r_date r) d) eqn:Hd; [|congruence].
    rewrite (last_cons r), Hrest in Hlast. injection Hlast as <-.
    apply String.eqb_eq in Hd as <-. rewrite string_leb_refl.
    rewrite (last_close_sorted data (r_date r)).
    2: { by apply StronglySorted_Sorted. }
    assert (List.filter (fun row => String.leb (r_date row) (r_date r)) data = [])
      as ->; [|done].
    apply last_None in Hrest.
    clear -Hall Hrest. induction Hall as [|z data Hz _ IH]; simpl in *; [done|].
    destruct (String.eqb (r_date z) (r_date r)) eqn:E; [done|].
    destruct (String.leb (r_date z) (r_date r)) eqn:E'; [|by apply IH].
    rewrite (string_leb_antisym _ _ E' Hz), String.eqb_refl in E. discriminate.
Qed.

(** X14. [_price] reads the close of the row registered under the date: if
    the series has several rows of one date the last of them (the index is
    built in list order), and nothing if it has none or the ticker has no
    series.  On a series sorted by date, as [add_price_data] stores it, a
    price that [_price] reports for a date is also the price
    [_last_known_prices] reports for that date: on the day of a quote the
    last known price is the quote of the day. *)
Theorem X14_price_of_the_day_is_the_last_known_price (self : BacktestEngine)
    (ticker date : string) (data : list PriceRow) :
  price_data self !! ticker = Some data ->
  _price self ticker date
  = r_close <$> last (List.filter (fun row => String.eqb (r_date row) date) data)
  /\ (date_sorted data ->
      forall p, _price self ticker date = Some p ->
                _last_known_prices self date !! ticker = Some p).
Proof.
  intros Hdata. unfold _price, price_index. rewrite Hdata, price_index_lookup.
  rewrite lookup_empty.
  split; [by destruct (last _)|].
  intros Hs p Hp. unfold _last_known_prices. rewrite lookup_omap, Hdata. simpl.
  destruct (last _) as [row|] eqn:Hlast; [|done].
  injection Hp as <-. by apply last_close_on_row_date.
Qed.

Lemma X14_price_of_the_day_witness :
  _price three_day_engine "A" "2024-01-02" = Some 120 /\
  _last_known_prices three_day_engine "2024-01-02" !! "A" = Some 120.
Proof.
  destruct (X14_price_of_the_day_is_the_last_known_price three_day_engine
              "A" "2024-01-02"
              (sorted_by_date
                 [flat_row "2024-01-01" 100; flat_row "2024-01-02" 120;
                  flat_row "2024-01-03" 90]) eq_refl) as [H1 H2].
  split; [reflexivity|].
  apply H2; [apply sorted_by_date_spec|reflexivity].
Defined.

(** * Buy and hold *)

Lemma final_state_bind {S A B} (m : M S A) (k : A -> M S B) (s : S) :
  final_state (bind m k s)
  = match m s with
    | Returned a s' => final_state (k a s')
    | Raised _ s' => s'
    end.
Proof. unfold bind. by destruct (m s). Qed.

Lemma buy_appends_open_record (ticker : string) (price : Q) (shares : Z)
    (date name : string) (self : Portfolio) :
  let p := final_state (buy ticker price shares date name self) in
  equity_history p = equity_history self /\
  exists added,
    trades p = trades self ++ added /\ (length added <= 1)%nat /\
    Forall (fun t => t_status t = st_open /\ t_entry_date t = date /\
                     t_ticker t = ticker /\ t_entry_price t = price) added.
Proof.
  unfold buy.
  repeat match goal with
         | |- context [if ?b then _ else _] => destruct b
         end; simpl;
    (split; [reflexivity|]);
    try (exists []; rewrite app_nil_r; split; [done|]; split; [simpl; lia|constructor]).
  all: eexists [_]; split; [reflexivity|]; split; [simpl; lia|];
    by repeat constructor.
Qed.

(** What the buying loop of [run_equal_weight] leaves behind. *)
Lemma equal_weight_buys (self : BacktestEngine) (alloc : Q) (buy_date : string)
    (valid : list string) :
  forall p0 : Portfolio,
    let p := final_state (for_each valid (equal_weight_buy self alloc buy_date) p0) in
    equity_history p = equity_history p0 /\
    exists added,
      trades p = trades p0 ++ added /\ (length added <= length valid)%nat /\
      Forall (fun t => t_status t = st_open /\ t_entry_date t = buy_date /\
                       t_ticker t ∈ valid) added.
Proof.
  induction valid as [|t valid IH]; intros p0; cbv zeta; simpl.
  - split; [done|]. exists []. rewrite app_nil_r. split; [done|]. split; [simpl; lia|constructor].
  - assert (let p1 := final_state (equal_weight_buy self alloc buy_date t p0) in
            equity_history p1 = equity_history p0 /\
            exists added,
              trades p1 = trades p0 ++ added /\ (length added <= 1)%nat /\
              Forall (fun r => t_status r = st_open /\ t_entry_date r = buy_date /\
                               t_ticker r = t) added) as Hstep.
    { unfold equal_weight_buy.
      assert (equity_history p0 = equity_history p0 /\
              exists added,
                trades p0 = trades p0 ++ added /\ (length added <= 1)%nat /\
                Forall (fun r => t_status r = st_open /\ t_entry_date r = buy_date /\
                                 t_ticker r = t) added) as Hnone.
      { split; [done|]. exists []. rewrite app_nil_r.
        split; [done|]. split; [simpl; lia|constructor]. }
      destruct (_price self t buy_date) as [price|]; [|exact Hnone].
      destruct (negb (Qeq_bool price 0) && Qltb 0 price); [|exact Hnone].
      unfold bind, py_div.
      destruct (Qeq_bool _ 0); [exact Hnone|]. unfold ret.
      match goal with
      | |- context [buy ?a ?b ?c ?d ?e p0] =>
          pose proof (buy_appends_open_record a b c d e p0) as Hb;
          destruct (buy a b c d e p0) as [n p1|e1 p1]
      end; simpl in *;
        destruct Hb as (Hh & added & Ht & Hl & Hall);
        (split; [exact Hh|]); exists added; (split; [exact Ht|]);
        (split; [exact Hl|]);
        eapply Forall_impl; [exact Hall| |exact Hall|]; simpl; tauto. }
    rewrite !final_state_bind.
    destruct (equal_weight_buy self alloc buy_date t p0) as [[] p1|e p1];
      simpl in Hstep; destruct Hstep as (Hh & added & Ht & Hl & Hall).
    + specialize (IH p1). simpl in IH.
      destruct IH as (Hh' & added' & Ht' & Hl' & Hall').
      split; [congruence|]. exists (added ++ added').
      split; [rewrite (assoc_L (++)), <- Ht; exact Ht'|].
      split; [rewrite length_app; lia|].
      apply Forall_app. split.
      * eapply Forall_impl; [exact Hall|]. simpl. intros r (? & ? & ->).
        repeat split; try done. by left.
      * eapply Forall_impl; [exact Hall'|]. simpl. intros r (? & ? & ?).
        repeat split; try done. by right.
    + simpl. split; [exact Hh|]. exists added. split; [exact Ht|].
      split; [lia|].
      eapply Forall_impl; [exact Hall|]. simpl. intros r (? & ? & ->).
      repeat split; try done. by left.
Qed.

(** What the snapshot loop does: it cannot raise. *)
Lemma snapshot_loop (self : BacktestEngine) (dates : list string) :
  forall p1 : Portfolio,
    exists p2 recorded,
      for_each dates (fun date => snapshot date (_last_known_prices self date)) p1
      = Returned tt p2 /\
      trades p2 = trades p1 /\ cash p2 = cash p1 /\
      positions p2 = positions p1 /\
      equity_history p2 = equity_history p1 ++ recorded /\
      map snap_date recorded = dates /\
      Forall (fun s => snap_cash s = cash p1 /\
                       snap_equity s
                       = equity (_last_known_prices self (snap_date s)) p1)
             recorded.
Proof.
  induction dates as [|d dates IH]; intros p1; simpl.
  - exists p1, []. rewrite app_nil_r. repeat split; constructor.
  - unfold bind at 1. unfold snapshot at 1.
    match goal with
    | |- context [for_each dates _ ?p] => destruct (IH p) as
          (p2 & recorded & Hrun & Ht & Hc & Hp & Hh & Hd & Hall)
    end.
    simpl in *. eexists p2, (_ :: recorded).
    split; [exact Hrun|]. split; [exact Ht|]. split; [exact Hc|].
    split; [exact Hp|]. split; [by rewrite Hh, <- (assoc_L (++))|].
    split; [simpl; by rewrite Hd|].
    constructor; [by split|].
    eapply Forall_impl; [exact Hall|]. simpl. intros s [H1 H2]. split; [done|].
    rewrite H2. unfold equity. simpl. reflexivity.
Qed.

(** X15. [run_equal_weight] buys once and holds.  The trade list is only
    extended, by at most one record per traded ticker; every record it adds
    is open, entered on the first date of the window and for one of the
    traded tickers, and no record that was there before is touched.  All
    snapshots are taken after the buying: they all show the cash the run
    ends with and value the positions the run ends with, one snapshot per
    date of the window in date order when the method returns and trades at
    least one ticker, none when it raises or trades no ticker. *)
Theorem X15_equal_weight_buys_once_and_holds (self : BacktestEngine)
    (tickers : list string) (start_date end_date : option string) :
  let o := run_equal_weight self tickers start_date end_date in
  let p := final_state o in
  exists added recorded,
    trades p = trades (portfolio self) ++ added /\
    (length added <= length (valid_tickers self tickers))%nat /\
    Forall (fun t => t_status t = st_open /\
                     head (date_window self start_date end_date)
                     = Some (t_entry_date t) /\
                     t_ticker t ∈ valid_tickers self tickers) added /\
    equity_history p = equity_history (portfolio self) ++ recorded /\
    Forall (fun s => snap_cash s = cash p /\
                     snap_equity s
                     = equity (_last_known_prices self (snap_date s)) p)
           recorded /\
    (forall e s, o = Raised e s -> recorded = []) /\
    (valid_tickers self tickers = [] -> recorded = []) /\
    (forall s, o = Returned tt s -> valid_tickers self tickers <> [] ->
               map snap_date recorded = date_window self start_date end_date).
Proof.
  intros o p.
  assert (forall q : Portfolio,
            p = q -> o = Returned tt q -> q = portfolio self ->
            (valid_tickers self tickers = [] \/
             date_window self start_date end_date = []) ->
            exists added recorded,
              trades p = trades (portfolio self) ++ added /\
              (length added <= length (valid_tickers self tickers))%nat /\
              Forall (fun t => t_status t = st_open /\
                               head (date_window self start_date end_date)
                               = Some (t_entry_date t) /\
                               t_ticker t ∈ valid_tickers self tickers) added /\
              equity_history p = equity_history (portfolio self) ++ recorded /\
              Forall (fun s => snap_cash s = cash p /\
                               snap_equity s
                               = equity (_last_known_prices self (snap_date s)) p)
                     recorded /\
              (forall e s, o = Raised e s -> recorded = []) /\
              (valid_tickers self tickers = [] -> recorded = []) /\
              (forall s, o = Returned tt s -> valid_tickers self tickers <> [] ->
                         map snap_date recorded
                         = date_window self start_date end_date)) as Hidle.
  { intros q -> Ho -> Hempty. exists [], []. rewrite !app_nil_r.
    split; [done|]. split; [simpl; lia|]. split; [constructor|].
    split; [done|]. split; [constructor|]. split; [done|]. split; [done|].
    intros s _ Hv. destruct Hempty as [Hv'|Hd]; [done|]. by rewrite Hd. }
  subst p o. unfold run_equal_weight, date_window in *.
  fold (valid_tickers self tickers) in *.
  destruct (_build_dates self) as [|first_date all_dates] eqn:Hdates.
  { apply (Hidle (portfolio self)); auto. }
  cbv zeta in *.
  set (dates := List.filter _ (first_date :: all_dates)) in *.
  destruct dates as [|buy_date dates'] eqn:Hwin.
  { apply (Hidle (portfolio self)); auto. }
  destruct (valid_tickers self tickers) as [|t0 valid'] eqn:Hvalid.
  { apply (Hidle (portfolio self)); auto. }
  clear Hidle. rewrite <- Hvalid.
  set (alloc := initial_capital (portfolio self) / _).
  unfold bind.
  pose proof (equal_weight_buys self alloc buy_date (valid_tickers self tickers)
                (portfolio self)) as Hbuy.
  destruct (for_each (valid_tickers self tickers) _ (portfolio self))
    as [[] p1|e p1]; simpl in Hbuy;
    destruct Hbuy as (Hh & added & Ht & Hl & Hall).
  - destruct (snapshot_loop self (buy_date :: dates') p1)
      as (p2 & recorded & Hrun & Ht2 & Hc2 & Hp2 & Hh2 & Hd2 & Hall2).
    rewrite Hrun. simpl. exists added, recorded.
    split; [congruence|]. split; [exact Hl|].
    split; [eapply Forall_impl; [exact Hall|]; simpl; intros r (? & -> & ?); done|].
    split; [congruence|].
    split.
    { eapply Forall_impl; [exact Hall2|]. simpl. intros s [H1 H2].
      split; [congruence|]. rewrite H2. unfold equity. by rewrite Hc2, Hp2. }
    split; [done|]. split; [by rewrite Hvalid|]. done.
  - simpl. exists added, []. rewrite app_nil_r.
    split; [exact Ht|]. split; [exact Hl|].
    split; [eapply Forall_impl; [exact Hall|]; simpl; intros r (? & -> & ?); done|].
    split; [exact Hh|]. split; [constructor|]. split; [done|].
    split; [done|]. done.
Qed.

(** * Periodic rebalancing *)

(** A record whose entry, and exit if it has one, fall on dates of [D]. *)
Definition traded_on (D : string -> Prop) (r : TradeRecord) : Prop :=
  D (t_entry_date r) /\ forall d, t_exit_date r = Some d -> D d.

Lemma close_first_open_traded_on (D : string -> Prop) (ticker date : string)
    (price exec_price exit_cost pnl pnl_pct : Q) (l : list TradeRecord) :
  D date -> Forall (traded_on D) l ->
  Forall (traded_on D)
    (close_first_open ticker
       (fun t => close_record t date price exec_price exit_cost pnl pnl_pct) l).
Proof.
  intros Hd. induction 1 as [|r l Hr Hl IH]; simpl; [constructor|].
  destruct (String.eqb (t_ticker r) ticker && Status_eqb (t_status r) st_open).
  - constructor; [|exact Hl]. destruct Hr as [He _]. split; [exact He|].
    simpl. by intros d [= <-].
  - by constructor.
Qed.

Lemma sell_keeps_traded_on (D : string -> Prop) (ticker : string) (price : Q)
    (shares : Z) (date : string) :
  D date ->
  keeps (fun p => Forall (traded_on D) (trades p)) (sell ticker price shares date).
Proof.
  intros Hd self Hall. unfold sell.
  destruct (positions self !! ticker) as [pos|]; [|exact Hall].
  assert (forall e c pn pp credited,
            trades credited = trades self ->
            Forall (traded_on D)
              (trades (final_state
                 (sell_finish ticker date price e c pn pp pos
                    (Z.min shares (pos_shares pos)) credited)))) as Hfin.
  { intros e c pn pp credited Hcr. simpl. rewrite Hcr. unfold close_last_open.
    apply Forall_reverse, close_first_open_traded_on; [exact Hd|].
    by apply Forall_reverse. }
  destruct (Qltb 0 (pos_avg_price pos)); [destruct (Qeq_bool _ 0)|];
    [exact Hall|by apply Hfin|by apply Hfin].
Qed.

Lemma buy_keeps_traded_on (D : string -> Prop) (ticker : string) (price : Q)
    (shares : Z) (date name : string) :
  D date ->
  keeps (fun p => Forall (traded_on D) (trades p))
    (buy ticker price shares date name).
Proof.
  intros Hd self Hall. unfold buy.
  repeat match goal with
         | |- context [if ?b then _ else _] => destruct b
         end; simpl; try exact Hall;
    (apply Forall_app; split; [exact Hall|]; constructor; [|constructor];
     split; [exact Hd|done]).
Qed.

Lemma sell_all_keeps_traded_on (D : string -> Prop) (prices : gmap string Q)
    (date : string) :
  D date ->
  keeps (fun p => Forall (traded_on D) (trades p)) (sell_all prices date).
Proof.
  intros Hd. unfold sell_all. apply keeps_bind_get. intros self0 _.
  apply keeps_for_each. intros t _. unfold sell_all_body.
  destruct (prices !! t) as [price|]; [|apply keeps_ret].
  apply keeps_bind_get. intros self _.
  destruct (positions self !! t) as [pos|]; [|apply keeps_raise].
  apply keeps_bind; [by apply sell_keeps_traded_on|]. intros _. apply keeps_ret.
Qed.

Lemma rebalance_buy_keeps_traded_on (D : string -> Prop) (self : BacktestEngine)
    (prices : gmap string Q) (alloc : Q) (date ticker : string) :
  D date ->
  keeps (fun p => Forall (traded_on D) (trades p))
    (rebalance_buy self prices alloc date ticker).
Proof.
  intros Hd. unfold rebalance_buy.
  destruct (prices !! ticker) as [price|]; [|apply keeps_ret].
  destruct (Qltb 0 price); [|apply keeps_ret].
  apply keeps_bind; [apply keeps_py_div|]. intros q.
  apply keeps_bind; [by apply buy_keeps_traded_on|]. intros _. apply keeps_ret.
Qed.

Lemma snapshot_keeps_trades (P : list TradeRecord -> Prop) (date : string)
    (prices : gmap string Q) :
  keeps (fun p => P (trades p)) (snapshot date prices).
Proof. intros self H. exact H. Qed.

(** The dates on which [run_rebalance] rebalances: those at the indices
    [0, period, 2 * period, ...] of the window. *)
Definition rebalance_date (window : list string) (period : Z) (d : string)
    : Prop :=
  exists k : nat, window !! (k * Z.to_nat period)%nat = Some d.

Lemma rebalance_days_keep_traded_on (self : BacktestEngine) (valid : list string)
    (period : Z) (window : list string) :
  (1 <= period)%Z ->
  forall (rest done : list string) (i last_rebal : Z),
    window = done ++ rest -> i = Z.of_nat (length done) ->
    (period | last_rebal)%Z -> (last_rebal < i <= last_rebal + period)%Z ->
    keeps (fun p => Forall (traded_on (rebalance_date window period)) (trades p))
      (rebalance_days self valid period i last_rebal rest).
Proof.
  intros Hperiod.
  induction rest as [|date rest IH]; intros done i last_rebal Hw Hi Hdiv Hrange;
    simpl; [apply keeps_ret|].
  destruct (Z.leb_spec period (i - last_rebal)) as [Hreb|Hno].
  - assert (i = last_rebal + period)%Z as Hi' by lia.
    assert (period | i)%Z as Hdivi.
    { rewrite Hi'. apply Z.divide_add_r; [exact Hdiv|apply Z.divide_refl]. }
    assert (rebalance_date window period date) as Hd.
    { destruct Hdivi as [k Hk]. exists (Z.to_nat k).
      assert (0 <= k)%Z as Hk0 by nia.
      replace (Z.to_nat k * Z.to_nat period)%nat with (length done) by nia.
      rewrite Hw. by rewrite list_lookup_middle. }
    apply keeps_bind.
    { apply keeps_bind; [by apply sell_all_keeps_traded_on|]. intros _.
      apply keeps_bind_get. intros p _.
      apply keeps_for_each. intros t _. by apply rebalance_buy_keeps_traded_on. }
    intros _. apply keeps_bind; [apply snapshot_keeps_trades|]. intros _.
    apply (IH (done ++ [date])).
    + by rewrite <- (assoc_L (++)).
    + rewrite length_app. simpl. lia.
    + exact Hdivi.
    + lia.
  - apply keeps_bind; [apply keeps_ret|]. intros _.
    apply keeps_bind; [apply snapshot_keeps_trades|]. intros _.
    apply (IH (done ++ [date])).
    + by rewrite <- (assoc_L (++)).
    + rewrite length_app. simpl. lia.
    + exact Hdiv.
    + lia.
Qed.

(** X17. [run_rebalance] with a period of at least one day trades only on
    its rebalancing days, the dates at the indices 0, [period], 2 *
    [period], ... of the date window: if every record of the trade list was
    entered, and closed if it is closed, on such a date before the run,
    then so is every record after it, however the run ends.  On a new
    engine, whose trade list is empty, every position is therefore opened
    and closed on a rebalancing day. *)
Theorem X17_rebalance_trades_only_every_period_days (self : BacktestEngine)
    (tickers : list string) (start_date end_date : option string) (period : Z) :
  (1 <= period)%Z ->
  let on_rebalancing_day :=
    traded_on (rebalance_date (date_window self start_date end_date) period) in
  Forall on_rebalancing_day (trades (portfolio self)) ->
  Forall on_rebalancing_day
    (trades (final_state (run_rebalance self tickers start_date end_date period))).
Proof.
  intros Hperiod D Hall. subst D. unfold run_rebalance, date_window in *.
  destruct (_build_dates self) as [|first_date all_dates]; [exact Hall|].
  cbv zeta in *.
  destruct (List.filter _ tickers) as [|t0 valid']; [exact Hall|].
  set (window := List.filter _ (first_date :: all_dates)) in *.
  destruct window as [|d0 window'] eqn:Hw; [exact Hall|].
  apply (rebalance_days_keep_traded_on self (t0 :: valid') period
           (d0 :: window') Hperiod (d0 :: window') [] 0 (- period));
    [done|done| |lia|exact Hall].
  apply Z.divide_opp_r, Z.divide_refl.
Qed.

Lemma X17_rebalance_witness :
  Forall (traded_on (rebalance_date (date_window three_day_engine None None) 2))
    (trades (final_state (run_rebalance three_day_engine ["A"] None None 2))).
Proof.
  apply (X17_rebalance_trades_only_every_period_days three_day_engine ["A"]
           None None 2).
  - lia.
  - simpl. constructor.
Defined.

(** * The win rate *)

Lemma win_rate_bounds (wins n : nat) :
  (wins <= n)%nat -> (0 < n)%nat ->
  0 <= inject_Z (Z.of_nat wins) / inject_Z (Z.of_nat n) * 100 <= 100.
Proof.
  intros Hle Hn.
  assert (0 < inject_Z (Z.of_nat n)) as Hn'.
  { change 0 with (inject_Z 0). rewrite <- Zlt_Qlt. lia. }
  assert (0 <= inject_Z (Z.of_nat wins)) as Hw.
  { change 0 with (inject_Z 0). rewrite <- Zle_Qle. lia. }
  assert (inject_Z (Z.of_nat wins) <= inject_Z (Z.of_nat n)) as Hwn.
  { rewrite <- Zle_Qle. lia. }
  assert (0 <= inject_Z (Z.of_nat wins) / inject_Z (Z.of_nat n)) as H0.
  { apply Qle_shift_div_l; [exact Hn'|]. lra. }
  assert (inject_Z (Z.of_nat wins) / inject_Z (Z.of_nat n) <= 1) as H1.
  { apply Qle_shift_div_r; [exact Hn'|]. lra. }
  split; lra.
Qed.

(** X18. The win rate that [_calc_metrics] reports is a percentage: it lies
    between 0 and 100, it is 0 when no trade is closed (the division is
    guarded), 100 when every closed trade has a positive recorded P&L, and
    open trades do not count. *)
Theorem X18_win_rate_is_a_percentage (trades : list TradeRecord) :
  0 <= win_rate trades <= 100 /\
  (Forall (fun t => t_status t = st_open) trades -> win_rate trades == 0) /\
  (Forall (fun t => t_status t = st_closed -> 0 < t_pnl t) trades ->
   Exists (fun t => t_status t = st_closed) trades ->
   win_rate trades == 100) /\
  win_rate trades
  = win_rate (List.filter (fun t => Status_eqb (t_status t) st_closed) trades).
Proof.
  assert (py_round_n 100 2 == 100) as H100 by (vm_compute; reflexivity).
  unfold win_rate.
  set (closed := List.filter (fun t => Status_eqb (t_status t) st_closed) trades).
  assert (List.filter (fun t => Status_eqb (t_status t) st_closed) closed = closed)
    as Hidem.
  { unfold closed. clear. induction trades as [|t l IH]; simpl; [done|].
    destruct (Status_eqb (t_status t) st_closed) eqn:E; [|exact IH].
    simpl. by rewrite E, IH. }
  split; [|split; [|split]].
  - destruct closed as [|c closed'] eqn:Hc.
    + rewrite py_round_n_zero. lra.
    + rewrite <- Hc.
      pose proof (win_rate_bounds
                    (length (List.filter (fun t => Qltb 0 (t_pnl t)) closed))
                    (length closed) (List.filter_length_le _ _)) as Hb.
      destruct Hb as [H0 H1]; [rewrite Hc; simpl; lia|].
      split.
      * rewrite <- (py_round_n_zero 2). by apply py_round_n_mono.
      * apply Qle_trans with (py_round_n 100 2); [by apply py_round_n_mono|].
        rewrite H100. apply Qle_refl.
  - intros Hopen.
    assert (closed = []) as ->; [|apply py_round_n_zero].
    unfold closed. clear -Hopen. induction Hopen as [|t l Ht _ IH]; [done|].
    simpl. by rewrite Ht.
  - intros Hwin Hex.
    assert (List.filter (fun t => Qltb 0 (t_pnl t)) closed = closed) as ->.
    { unfold closed. clear -Hwin. induction Hwin as [|t l Ht _ IH]; [done|].
      simpl. destruct (Status_eqb (t_status t) st_closed) eqn:E; [|exact IH].
      simpl. assert (Qltb 0 (t_pnl t) = true) as ->; [|by rewrite IH].
      apply Qltb_lt, Ht. by destruct (t_status t). }
    destruct closed as [|c closed'] eqn:Hc.
    + exfalso. apply Exists_exists in Hex as (t & Hin & Ht).
      assert (In t closed) as Hin'.
      { unfold closed. apply filter_In. split; [by apply list_elem_of_In|].
        by rewrite Ht. }
      by rewrite Hc in Hin'.
    + transitivity (py_round_n 100 2); [|exact H100]. apply py_round_n_proper.
      assert (0 < inject_Z (Z.of_nat (length (c :: closed')))) as Hn.
      { change 0 with (inject_Z 0). rewrite <- Zlt_Qlt. simpl length. lia. }
      field. lra.
  - by rewrite Hidem.
Qed.
